(** * Marker pipeline: recovering parser, normalizer, validator, qualifier

    A shallow embedding of [tools/complete_markers.py] and
    [tools/qualify_marker_set.py], followed by the properties of the
    pipeline that are stated in the specification and by further
    properties of the two programs.

    Conventions of the embedding.
    - A Python [str] is a [list ascii]; a character stands for a code
      point below 256.  [isspace] is Python's [str.isspace] on that range
      (it is also the class that [\s] denotes in [re] for [str] patterns).
    - Values loaded from YAML are the inductive [pyval]; a [dict] is an
      association list in insertion order with unique keys kept by
      [dict_set].
    - Exceptions are the [Raise] arm of [result].
    - [yaml.safe_load], [datetime.now().isoformat()] and [repr] are library
      code outside the repository: they are parameters of the functions
      that call them.  So are the writes of [process_markers] to the
      output directory and to the quarantine: each returns or raises. *)

From Stdlib Require Import List Ascii String Bool Arith Lia ZArith QArith.
From Stdlib Require Import DecimalString Permutation Lqa.
Import ListNotations.

Set Warnings "-register-all".

Local Close Scope Q_scope.
Local Open Scope nat_scope.
Local Open Scope list_scope.
Local Open Scope bool_scope.

(* ================================================================== *)
(** ** Python strings *)
(* ================================================================== *)

Module PyStr.

Definition str := list ascii.

(** String literals of the source are written [lit "..."]. *)
Definition lit (s : string) : str := list_ascii_of_string s.

Definition NL : ascii := "010"%char.
Definition TAB : ascii := "009"%char.
Definition SPACE : ascii := " "%char.
Definition DQUOTE : ascii := "034"%char.
Definition DASH : ascii := "-"%char.
Definition COLON : ascii := ":"%char.

(** [str.isspace] for code points below 256: TAB, LF, VT, FF, CR,
    FS, GS, RS, US, SPACE, NEL (0x85), NBSP (0xA0). *)
Definition whitespace_codes : list nat :=
  [9; 10; 11; 12; 13; 28; 29; 30; 31; 32; 133; 160].

Definition isspace (c : ascii) : bool :=
  existsb (fun n => Ascii.eqb c (ascii_of_nat n)) whitespace_codes.

Fixpoint lstrip (s : str) : str :=
  match s with
  | [] => []
  | c :: t => if isspace c then lstrip t else s
  end.

Definition rstrip (s : str) : str := rev (lstrip (rev s)).

(** [s.strip()] *)
Definition strip (s : str) : str := lstrip (rstrip s).

Fixpoint lstrip_char (ch : ascii) (s : str) : str :=
  match s with
  | [] => []
  | c :: t => if Ascii.eqb c ch then lstrip_char ch t else s
  end.

(** [s.strip(ch)] for a one-character argument. *)
Definition strip_char (ch : ascii) (s : str) : str :=
  lstrip_char ch (rev (lstrip_char ch (rev s))).

(** [s.startswith(p)] *)
Fixpoint startswith (p s : str) : bool :=
  match p, s with
  | [], _ => true
  | _ :: _, [] => false
  | a :: p', b :: s' => Ascii.eqb a b && startswith p' s'
  end.

(** [c in s] for a one-character [c]. *)
Definition has_char (c : ascii) (s : str) : bool :=
  existsb (Ascii.eqb c) s.

(** [p in s] for strings. *)
Fixpoint contains (p s : str) : bool :=
  startswith p s ||
  match s with
  | [] => false
  | _ :: t => contains p t
  end.

Fixpoint str_eqb (a b : str) : bool :=
  match a, b with
  | [], [] => true
  | x :: a', y :: b' => Ascii.eqb x y && str_eqb a' b'
  | _, _ => false
  end.

(** [s.split(sep)] for a one-character separator: never the empty list. *)
Fixpoint split (sep : ascii) (s : str) : list str :=
  match s with
  | [] => [[]]
  | c :: t =>
      if Ascii.eqb c sep then [] :: split sep t
      else match split sep t with
           | l :: ls => (c :: l) :: ls
           | [] => [[c]]
           end
  end.

(** [s.split(sep, 1)]: at most one cut, at the first separator. *)
Fixpoint split1 (sep : ascii) (s : str) : list str :=
  match s with
  | [] => [[]]
  | c :: t =>
      if Ascii.eqb c sep then [[]; t]
      else match split1 sep t with
           | l :: ls => (c :: l) :: ls
           | [] => [[c]]
           end
  end.

(** [sep.join(ls)] *)
Fixpoint join (sep : str) (ls : list str) : str :=
  match ls with
  | [] => []
  | l :: ls' =>
      match ls' with
      | [] => l
      | _ :: _ => l ++ sep ++ join sep ls'
      end
  end.

(** [s.replace(old, new)] for a non-empty [old]: occurrences are found
    left to right and do not overlap.  [skip] counts the characters of a
    matched occurrence that are still to be dropped. *)
Fixpoint replace_from (old new : str) (skip : nat) (s : str) : str :=
  match s with
  | [] => []
  | c :: t =>
      match skip with
      | S k => replace_from old new k t
      | O =>
          if startswith old s
          then new ++ replace_from old new (List.length old - 1) t
          else c :: replace_from old new 0 t
      end
  end.

Definition replace (old new s : str) : str := replace_from old new 0 s.

(** [s.lower()] on code points below 256: A-Z and the Latin-1 capitals
    (0xC0-0xDE without 0xD7) move up by 32. *)
Definition lower_char (c : ascii) : ascii :=
  let n := nat_of_ascii c in
  if ((65 <=? n) && (n <=? 90)) ||
     ((192 <=? n) && (n <=? 222) && negb (n =? 215))
  then ascii_of_nat (n + 32) else c.

Definition lower (s : str) : str := map lower_char s.

(** [str(n)] for a natural number. *)
Definition str_of_nat (n : nat) : str :=
  lit (NilEmpty.string_of_uint (Nat.to_uint n)).

Definition is_alpha_ (c : ascii) : bool :=
  let n := nat_of_ascii c in
  ((65 <=? n) && (n <=? 90)) || ((97 <=? n) && (n <=? 122)) || (n =? 95).

Definition is_alnum_ (c : ascii) : bool :=
  let n := nat_of_ascii c in
  is_alpha_ c || ((48 <=? n) && (n <=? 57)).

(** [not s] *)
Definition is_empty (s : str) : bool :=
  match s with [] => true | _ :: _ => false end.

(** [s[:n]] *)
Definition take (n : nat) (s : str) : str := firstn n s.

(** [s[n:]] *)
Definition drop (n : nat) (s : str) : str := skipn n s.

End PyStr.
Import PyStr.


(* ================================================================== *)
(** ** Python values, dictionaries and exceptions *)
(* ================================================================== *)

Module Py.

(** The values [yaml.safe_load] yields and the two programs build:
    [None], booleans, integers, strings, lists, and dictionaries with
    string keys.  A document can also hold floats, dates, binary values
    and sets: they are outside this type, and where the class of an
    exception depends on the kind of such a value the statements below
    leave the class open. *)
Inductive pyval : Type :=
| VNone
| VBool (b : bool)
| VInt (z : Z)
| VStr (s : str)
| VList (l : list pyval)
| VDict (d : list (str * pyval)).

Definition dict := list (str * pyval).

Inductive exn :=
  AttributeError | TypeError | KeyError | ValueError | OSError.

Inductive result (A : Type) : Type :=
| Ok (a : A)
| Raise (e : exn).
Arguments Ok {A} a.
Arguments Raise {A} e.

Definition bind {A B} (r : result A) (k : A -> result B) : result B :=
  match r with
  | Ok a => k a
  | Raise e => Raise e
  end.

(** [d.get(k)], [None] of Rocq standing for an absent key. *)
Fixpoint dict_get (d : dict) (k : str) : option pyval :=
  match d with
  | [] => None
  | (k', v) :: d' => if str_eqb k k' then Some v else dict_get d' k
  end.

(** [d.get(k, default)] *)
Definition dict_get_default (d : dict) (k : str) (default : pyval) : pyval :=
  match dict_get d k with
  | Some v => v
  | None => default
  end.

(** [k in d] *)
Definition dict_has (d : dict) (k : str) : bool :=
  match dict_get d k with
  | Some _ => true
  | None => false
  end.

(** [d[k] = v]: an existing key keeps its place, a new one goes last. *)
Fixpoint dict_set (d : dict) (k : str) (v : pyval) : dict :=
  match d with
  | [] => [(k, v)]
  | (k', v') :: d' =>
      if str_eqb k k' then (k', v) :: d' else (k', v') :: dict_set d' k v
  end.

(** [d.keys()] *)
Definition dict_keys (d : dict) : list str := map fst d.

(** Truth value of an object, as [if x:] tests it. *)
Definition truthy (v : pyval) : bool :=
  match v with
  | VNone => false
  | VBool b => b
  | VInt z => negb (Z.eqb z 0)
  | VStr s => match s with [] => false | _ :: _ => true end
  | VList l => match l with [] => false | _ :: _ => true end
  | VDict d => match d with [] => false | _ :: _ => true end
  end.

(** Lists and dictionaries have no hash. *)
Definition hashable (v : pyval) : bool :=
  match v with
  | VList _ | VDict _ => false
  | _ => true
  end.

(** [==] between hashable values: [True == 1] and [False == 0]. *)
Definition atom_eqb (a b : pyval) : bool :=
  match a, b with
  | VNone, VNone => true
  | VBool x, VBool y => Bool.eqb x y
  | VInt x, VInt y => Z.eqb x y
  | VBool x, VInt y | VInt y, VBool x => Z.eqb y (if x then 1 else 0)%Z
  | VStr x, VStr y => str_eqb x y
  | _, _ => false
  end.

(** The elements of a set built from a list, each once; a set has no
    order of its own, the model lists first occurrences. *)
Fixpoint dedup (l : list pyval) : list pyval :=
  match l with
  | [] => []
  | x :: t => x :: filter (fun y => negb (atom_eqb x y)) (dedup t)
  end.

(** Iterating over a value ([for x in v], [set(v)]). *)
Definition py_iter (v : pyval) : result (list pyval) :=
  match v with
  | VStr s => Ok (map (fun c => VStr [c]) s)
  | VList l => Ok l
  | VDict d => Ok (map (fun kv => VStr (fst kv)) d)
  | _ => Raise TypeError
  end.

(** [set(v)], as the list of its elements. *)
Definition py_set (v : pyval) : result (list pyval) :=
  bind (py_iter v) (fun l =>
    if forallb hashable l then Ok (dedup l) else Raise TypeError).

(** [len(v)] *)
Definition py_len (v : pyval) : result nat :=
  match v with
  | VStr s => Ok (List.length s)
  | VList l => Ok (List.length l)
  | VDict d => Ok (List.length d)
  | _ => Raise TypeError
  end.

(** [k in v] for a string [k]. *)
Definition py_in (k : str) (v : pyval) : result bool :=
  match v with
  | VStr s => Ok (contains k s)
  | VList l => Ok (existsb (atom_eqb (VStr k)) l)
  | VDict d => Ok (dict_has d k)
  | _ => Raise TypeError
  end.

(** What the interpreter supplies: the clock reading of
    [datetime.now().isoformat()] and [repr] of a value that is not a
    string. *)
Record runtime : Type := {
  now_isoformat : str;
  repr : pyval -> str
}.

(** [str(v)], also the text an f-string puts for [{v}]. *)
Definition py_str (rt : runtime) (v : pyval) : str :=
  match v with
  | VStr s => s
  | _ => repr rt v
  end.

End Py.
Import Py.

Declare Scope py_scope.
Notation "x <- e ;; k" := (bind e (fun x => k))
  (at level 61, e at next level, right associativity) : py_scope.
Local Open Scope py_scope.

(* ================================================================== *)
(** ** [complete_markers.py]: class [YAMLRepairer] *)
(* ================================================================== *)

Module YAMLRepairer.

(** [re.match(r'^[a-zA-Z_][a-zA-Z0-9_]*$', s)] on a stripped line (which
    has no line break in it). *)
Definition is_identifier (s : str) : bool :=
  match s with
  | [] => false
  | c :: t => is_alpha_ c && forallb is_alnum_ t
  end.

(** The body of the loop over the lines in [repair_yaml_content]: a bare
    identifier gets a colon after it. *)
Definition repair_line (line : str) : str :=
  if negb (is_empty (strip line))
     && negb (startswith (lit "-") (strip line))
     && negb (has_char COLON line)
  then if is_identifier (strip line) then rstrip line ++ lit ":" else line
  else line.

(** The text up to the next line break, and the text from that break on. *)
Fixpoint span_line (s : str) : str * str :=
  match s with
  | [] => ([], [])
  | c :: t =>
      if Ascii.eqb c NL then ([], s)
      else let (l, r) := span_line t in (c :: l, r)
  end.

(** The group, the closing double quote and the [$] of the pattern on
    the rest of a line: the line ends in a double quote that has at least
    one character before it. *)
Definition quoted_tail (l : str) : option str :=
  match rev l with
  | [] => None
  | q :: x' =>
      if Ascii.eqb q DQUOTE && negb (is_empty x') then Some (rev x') else None
  end.

(** One attempt of the pattern of [re.sub] in [repair_yaml_content]
    (with [re.MULTILINE]) at a line start: white space, a dash, white
    space, a double quote, the group [(.+)], a double quote, the line
    end.  The result is the group and the text after the match.
    Both [\s*] are greedy and are followed by a character that is no
    white space, so they take every white space there is, line breaks
    included; [.] stays on one line and [$] stands at a line end, so the
    closing quote is the last character of the line of the opening
    quote.  [match_quote] is the pattern from the second [\s*] on. *)
Definition match_quote (t : str) : option (str * str) :=
  match lstrip t with
  | [] => None
  | q :: u =>
      if Ascii.eqb q DQUOTE then
        let (l, rest) := span_line u in
        match quoted_tail l with
        | Some x => Some (x, rest)
        | None => None
        end
      else None
  end.

Definition match_item (s : str) : option (str * str) :=
  match lstrip s with
  | [] => None
  | d :: t => if Ascii.eqb d DASH then match_quote t else None
  end.

(** The replacement template: two spaces, a dash, a space, and the
    group between double quotes. *)
Definition item_template (x : str) : str :=
  lit "  - " ++ [DQUOTE] ++ x ++ [DQUOTE].

(** The [re.sub] call of [repair_yaml_content].
    The pattern is anchored by [^], so the search tries the line starts
    from left to right: where the pattern matches the match is replaced
    and the search goes on after it (at a line end), where it does not the
    line is copied.  Every round but the last consumes a line break,
    [sub_items] is run with more fuel than [s] has characters. *)
Fixpoint sub_items (fuel : nat) (s : str) : str :=
  match fuel with
  | O => s
  | S f =>
      let resume rest :=
        match rest with
        | [] => []
        | c :: t => c :: sub_items f t
        end in
      match match_item s with
      | Some (x, rest) => item_template x ++ resume rest
      | None => let (l, rest) := span_line s in l ++ resume rest
      end
  end.

Definition re_sub_items (s : str) : str := sub_items (S (List.length s)) s.

(** [repair_yaml_content(content)] *)
Definition repair_yaml_content (content : str) : str :=
  (* Remove document separators *)
  let content := replace (lit "---") [] content in
  (* Convert tabs to spaces *)
  let content := replace [TAB] (lit "  ") content in
  (* Fix missing colons in headers *)
  let lines := split NL content in
  let repaired_lines := map repair_line lines in
  let content := join [NL] repaired_lines in
  (* Fix common YAML array issues *)
  re_sub_items content.

(** The state of the line-by-line recovery (strategy 3). *)
Record salvage_state : Type := {
  data : dict;
  current_key : option str;      (* [None] before the first key *)
  current_value : list str
}.

(** [if current_key]: the key is set and is not the empty string. *)
Definition key_truthy (k : option str) : bool :=
  match k with
  | Some (_ :: _) => true
  | _ => false
  end.

(** [if current_key and current_value: data[current_key] = ...] *)
Definition flush (st : salvage_state) : dict :=
  match current_key st with
  | Some key =>
      if key_truthy (current_key st)
         && negb (Nat.eqb (List.length (current_value st)) 0)
      then dict_set (data st) key
             (VStr (strip (join [NL] (current_value st))))
      else data st
  | None => data st
  end.

(** The body of the loop over [content.split('\n')]. *)
Definition salvage_step (st : salvage_state) (raw_line : str)
  : salvage_state :=
  let line := strip raw_line in
  if is_empty line || startswith (lit "#") line then st
  else if has_char COLON line && negb (startswith (lit "-") line) then
    let data' := flush st in
    let parts := split1 COLON line in
    let key := strip (nth 0 parts []) in
    let rhs := strip (nth 1 parts []) in
    let value :=
      if (1 <? List.length parts) && negb (is_empty rhs) then [rhs] else [] in
    {| data := data'; current_key := Some key; current_value := value |}
  else if key_truthy (current_key st) then
    {| data := data st; current_key := current_key st;
       current_value := current_value st ++ [line] |}
  else st.

(** [data = {}], [current_key = None], [current_value = []]. *)
Definition salvage_init : salvage_state :=
  {| data := []; current_key := None; current_value := [] |}.

(** The dictionary strategy 3 collects (before the test [if data:]). *)
Definition line_salvage (content : str) : dict :=
  flush (fold_left salvage_step (split NL content) salvage_init).

(** [yaml.safe_load]: a value, [yaml.YAMLError], or an exception of
    another class (the constructor of a timestamp raises [ValueError] on
    a date that does not exist). *)
Inductive yaml_result : Type :=
| YamlOk (v : pyval)
| YamlError
| YamlRaises (e : exn).

(** Reading the file: its text, or the text of the exception. *)
Inductive file_read : Type :=
| ReadOk (content : str)
| ReadFailed (message : str).

(** The three strategies, in the order they are tried. *)
Inductive strategy := Direct | Repaired | Salvage.

(** The pair [parse_with_recovery] returns, or the exception that leaves
    it ([raised]: there is no pair then, and [parsed] and [error] are
    both [None]), and the strategies it went through to get there (a
    record kept beside the result, the code itself keeps none). *)
Record outcome : Type := {
  parsed : option pyval;
  error : option str;
  invoked : list strategy;
  raised : option exn
}.

(** [data = yaml.safe_load(text)] under [try ... except yaml.YAMLError:
    pass], then [if data:]: the value a strategy returns, if it returns
    one.  An exception that is no [yaml.YAMLError] is not caught. *)
Definition usable (r : yaml_result) : result (option pyval) :=
  match r with
  | YamlOk v => Ok (if truthy v then Some v else None)
  | YamlError => Ok None
  | YamlRaises e => Raise e
  end.

(** An exception leaves [parse_with_recovery] after the strategies
    [invoked]. *)
Definition escapes (e : exn) (invoked : list strategy) : outcome :=
  {| parsed := None; error := None; invoked := invoked; raised := Some e |}.

(** [parse_with_recovery], given the parser and what reading the file
    gave. *)
Definition parse_with_recovery (safe_load : str -> yaml_result)
  (file : file_read) : outcome :=
  match file with
  | ReadFailed message =>
      {| parsed := None;
         error := Some (lit "Failed to read file: " ++ message);
         invoked := []; raised := None |}
  | ReadOk content =>
      (* Strategy 1: Try parsing as-is *)
      match usable (safe_load content) with
      | Raise e => escapes e [Direct]
      | Ok (Some v) =>
          {| parsed := Some v; error := None; invoked := [Direct];
             raised := None |}
      | Ok None =>
          (* Strategy 2: Apply repairs and try again *)
          match usable (safe_load (repair_yaml_content content)) with
          | Raise e => escapes e [Direct; Repaired]
          | Ok (Some v) =>
              {| parsed := Some v; error := None;
                 invoked := [Direct; Repaired]; raised := None |}
          | Ok None =>
              (* Strategy 3: Try line-by-line recovery *)
              let d := line_salvage content in
              if truthy (VDict d) then
                {| parsed := Some (VDict d); error := None;
                   invoked := [Direct; Repaired; Salvage]; raised := None |}
              else
                {| parsed := None;
                   error := Some (lit "All parsing strategies failed");
                   invoked := [Direct; Repaired; Salvage]; raised := None |}
          end
      end
  end.

End YAMLRepairer.
Import YAMLRepairer.


(* ================================================================== *)
(** ** [complete_markers.py]: class [MarkerNormalizer] *)
(* ================================================================== *)

Module MarkerNormalizer.

(** [CONFIG['MIN_EXAMPLES']] of [complete_markers.py]. *)
Definition MIN_EXAMPLES : nat := 5.

(** The keys of [self.frame_templates]. *)
Inductive category := ENTITY | ATTACHMENT | EMOTION | CONVERSATION | META.

Definition frame_of (signal concept pragmatics narrative : string) : dict :=
  [ (lit "signal", VStr (lit signal));
    (lit "concept", VStr (lit concept));
    (lit "pragmatics", VStr (lit pragmatics));
    (lit "narrative", VStr (lit narrative)) ].

Definition frame_templates (c : category) : dict :=
  match c with
  | ENTITY =>
      frame_of "Named entity detection patterns"
               "Recognition of persons, organizations, locations"
               "Entity extraction and classification"
               "Identifying key actors and references in discourse"
  | ATTACHMENT =>
      frame_of "Attachment style linguistic patterns"
               "Psychological attachment theory markers"
               "Relationship pattern identification"
               "Understanding interpersonal dynamics through language"
  | EMOTION =>
      frame_of "Emotional expression patterns"
               "Affective state indicators"
               "Emotion recognition and tracking"
               "Monitoring emotional trajectories in conversation"
  | CONVERSATION =>
      frame_of "Conversational dynamics patterns"
               "Interaction and dialogue structures"
               "Conversation flow analysis"
               "Understanding communication patterns and strategies"
  | META =>
      frame_of "Meta-level communication patterns"
               "Higher-order linguistic structures"
               "Meta-communication analysis"
               "Detecting abstract patterns across multiple markers"
  end.

(** [detect_category]: [marker_name.startswith] is the first thing asked
    of [marker_name], and it fails on every value that is no string: a
    value of [pyval] that is no string has no such attribute
    ([AttributeError]; a binary value, outside [pyval], has the
    attribute and refuses the argument with [TypeError]). *)
Definition detect_category (rt : runtime) (marker_data : dict)
  : result category :=
  let marker_name := dict_get_default marker_data (lit "marker_name") (VStr []) in
  let description :=
    py_str rt (dict_get_default marker_data (lit "beschreibung") (VStr [])) in
  match marker_name with
  | VStr name =>
      Ok (if startswith (lit "A_LOC") name || startswith (lit "A_PER") name
             || startswith (lit "A_ORG") name
          then ENTITY
          else if contains (lit "ATTACHMENT") name
                  || contains (lit "attachment") (lower description)
          then ATTACHMENT
          else if contains (lit "EMO_") name
                  || contains (lit "emotion") (lower description)
          then EMOTION
          else if startswith (lit "MM_") name then META
          else if startswith (lit "C_") name || startswith (lit "S_") name
          then CONVERSATION
          else CONVERSATION)
  | _ => Raise AttributeError
  end.

(** [generate_frame] *)
Definition generate_frame (rt : runtime) (marker_data : dict)
  : result dict :=
  category <- detect_category rt marker_data ;;
  let template := frame_templates category in
  let marker_name := dict_get_default marker_data (lit "marker_name") (VStr []) in
  let frame := template in
  Ok (if truthy marker_name
      then dict_set frame (lit "signal")
             (VStr (py_str rt (dict_get_default template (lit "signal") VNone)
                    ++ lit " for " ++ py_str rt marker_name))
      else frame).

(** One example as the loop of [ensure_minimum_examples] cleans it. *)
Definition clean_example (ex : str) : str :=
  let ex := strip ex in
  let ex := if startswith (lit "- ") ex then drop 2 ex else ex in
  strip_char DQUOTE ex.

Definition keep_example (ex : str) : bool :=
  negb (is_empty ex)
  && negb (str_eqb ex (lit "examples:"))
  && negb (str_eqb ex (lit "-")).

Fixpoint clean_examples (l : list pyval) : list str :=
  match l with
  | [] => []
  | VStr ex :: t =>
      let ex' := clean_example ex in
      if keep_example ex' then ex' :: clean_examples t else clean_examples t
  | _ :: t => clean_examples t
  end.

Definition synthetic_example (template_idx : nat) : str :=
  lit "Example usage pattern " ++ str_of_nat template_idx
  ++ lit " for this marker".

(** The [while] loop of [ensure_minimum_examples]; every round makes the
    list one longer, so it is run with [MIN_EXAMPLES] rounds of fuel. *)
Fixpoint pad_examples (fuel : nat) (clean : list str) : list str :=
  match fuel with
  | O => clean
  | S f =>
      if List.length clean <? MIN_EXAMPLES
      then pad_examples f
             (clean ++ [synthetic_example (List.length clean + 1)])
      else clean
  end.

(** [ensure_minimum_examples] *)
Definition ensure_minimum_examples (examples : pyval) : list str :=
  let clean :=
    match examples with
    | VList l => clean_examples l
    | _ => []
    end in
  pad_examples MIN_EXAMPLES clean.

(** [marker_data.get('metadata', {}).get(key, default)] *)
Definition metadata_get (marker_data : dict) (key : str) (default : pyval)
  : result pyval :=
  match dict_get_default marker_data (lit "metadata") (VDict []) with
  | VDict m => Ok (dict_get_default m key default)
  | _ => Raise AttributeError
  end.

Definition set_if_present (marker_data : dict) (src : str)
  (f : pyval -> pyval) (dst : str) (normalized : dict) : dict :=
  match dict_get marker_data src with
  | Some v => dict_set normalized dst (f v)
  | None => normalized
  end.

(** [normalize_marker] *)
Definition normalize_marker (rt : runtime) (marker_data : dict)
  (file_name : str) : result dict :=
  (* Extract marker ID from filename or marker_name *)
  let marker_id :=
    dict_get_default marker_data (lit "marker_name")
      (VStr (replace (lit ".yaml") [] file_name)) in
  (* Create normalized structure *)
  frame <- generate_frame rt marker_data ;;
  let examples :=
    ensure_minimum_examples
      (dict_get_default marker_data (lit "beispiele") (VList [])) in
  let pattern := lit "Pattern for " ++ py_str rt marker_id in
  created <- metadata_get marker_data (lit "created_at")
               (VStr (now_isoformat rt)) ;;
  author <- metadata_get marker_data (lit "created_by")
              (VStr (lit "complete_markers.py")) ;;
  version <- metadata_get marker_data (lit "version") (VStr (lit "1.0")) ;;
  tags_src <- metadata_get marker_data (lit "tags")
                (VList [VStr (lit "normalized"); VStr (lit "ld3.11")]) ;;
  tags <- py_set tags_src ;;
  let normalized : dict :=
    [ (lit "_id", marker_id);
      (lit "frame", VDict frame);
      (lit "examples", VList (map VStr examples));
      (lit "pattern", VStr pattern);
      (lit "metadata",
        VDict [ (lit "created", created);
                (lit "author", author);
                (lit "version", version);
                (lit "tags", VList tags) ]) ] in
  (* Add optional fields if present *)
  let normalized :=
    set_if_present marker_data (lit "kategorie") (fun v => v)
      (lit "category") normalized in
  let normalized :=
    set_if_present marker_data (lit "semantische_grabber_id") (fun v => v)
      (lit "semantic_id") normalized in
  (* Add original description as comment *)
  let normalized :=
    set_if_present marker_data (lit "beschreibung")
      (fun v => VStr (py_str rt v)) (lit "original_description") normalized in
  Ok normalized.

End MarkerNormalizer.
Import MarkerNormalizer.


(* ================================================================== *)
(** ** [qualify_marker_set.py]: class [LeanDeep31Validator] *)
(* ================================================================== *)

Module LeanDeep31Validator.

(** [CONFIG['MIN_EXAMPLES']] of [qualify_marker_set.py], a second
    constant with the value of the first. *)
Definition MIN_EXAMPLES : nat := 5.

(** [self.required_fields], [self.frame_fields], [self.optional_fields]
    and the list [xor_fields].  The first three are Python sets, which
    have no order of their own; they are listed here in the order the
    source writes them, a set difference keeps that order, and the loop
    over the frame fields visits them in it.  Another order would only
    change which of several faults is reported first. *)
Definition required_fields : list str :=
  [lit "_id"; lit "frame"; lit "examples"].

Definition frame_fields : list str :=
  [lit "signal"; lit "concept"; lit "pragmatics"; lit "narrative"].

Definition optional_fields : list str :=
  [lit "metadata"; lit "category"; lit "semantic_id";
   lit "original_description"; lit "pattern"; lit "composed_of";
   lit "detect_class"].

Definition xor_fields : list str :=
  [lit "pattern"; lit "composed_of"; lit "detect_class"].

Definition recommended_metadata : list str :=
  [lit "created"; lit "author"; lit "version"; lit "tags"].

(** The entries of [self.errors], one constructor per message of the
    source, with the data the message is formatted from. *)
Inductive verror : Type :=
| EXorViolated (present_fields : list str)
| EFrameNotDict
| EFrameMissingFields (missing_fields : list str)
| EFrameFieldNotString (field : str)
| EExamplesNotList
| EInsufficientExamples (found : nat)
| EExampleNotString (i : nat)
| EMetadataNotDict
| ETagsNotList
| EPatternNotString
| EComposedOfNotList
| EComponentNotDict (i : nat)
| EComponentFields (i : nat)
| EMissingRequiredFields (missing_required : list str)
| EIdNotNonEmptyString.

(** The entries of [self.warnings]. *)
Inductive vwarning : Type :=
| WFrameFieldEmpty (field : str)
| WDuplicateExample (first50 : str)
| WMetadataMissing (missing : list str)
| WDuplicateTags
| WPatternEmpty
| WUnknownFields (unknown_fields : list str).

(** The methods [validate_marker] calls. *)
Inductive check :=
| CkFrame | CkExamples | CkXor | CkPattern | CkComposedOf | CkMetadata.

(** The two lists of the validator object, and the calls [validate_marker]
    has made so far ([ran] is a record kept beside them, the code itself
    keeps none). *)
Record vstate : Type := {
  errors : list verror;
  warnings : list vwarning;
  ran : list check
}.

Definition init_state : vstate :=
  {| errors := []; warnings := []; ran := [] |}.

(** A method of the validator: it reads and extends the state, and
    returns or raises. *)
Definition V (A : Type) : Type := vstate -> result A * vstate.

Definition ret {A} (a : A) : V A := fun st => (Ok a, st).

Definition throw {A} (e : exn) : V A := fun st => (Raise e, st).

Definition vbind {A B} (m : V A) (k : A -> V B) : V B :=
  fun st =>
    match m st with
    | (Ok a, st') => k a st'
    | (Raise e, st') => (Raise e, st')
    end.

Definition add_error (e : verror) : V unit :=
  fun st =>
    (Ok tt, {| errors := errors st ++ [e]; warnings := warnings st;
               ran := ran st |}).

Definition add_warning (w : vwarning) : V unit :=
  fun st =>
    (Ok tt, {| errors := errors st; warnings := warnings st ++ [w];
               ran := ran st |}).

Definition enter (c : check) : V unit :=
  fun st =>
    (Ok tt, {| errors := errors st; warnings := warnings st;
               ran := ran st ++ [c] |}).

Definition missing_from (wanted : list str) (d : dict) : list str :=
  filter (fun f => negb (dict_has d f)) wanted.

Notation "x <~ e ;; k" := (vbind e (fun x => k))
  (at level 61, e at next level, right associativity) : py_scope.
Notation "e ;;; k" := (vbind e (fun _ => k))
  (at level 61, right associativity) : py_scope.

(** [validate_xor_constraint] *)
Definition validate_xor_constraint (marker : dict) : V bool :=
  let present_fields := filter (dict_has marker) xor_fields in
  if negb (Nat.eqb (List.length present_fields) 1)
  then add_error (EXorViolated present_fields) ;;; ret false
  else ret true.

(** The loop over the frame fields in [validate_frame_structure]. *)
Fixpoint frame_fields_loop (frame : dict) (fields : list str) : V bool :=
  match fields with
  | [] => ret true
  | field :: rest =>
      match dict_get frame field with
      | None => throw KeyError
      | Some (VStr s) =>
          (if is_empty (strip s)
           then add_warning (WFrameFieldEmpty field) else ret tt) ;;;
          frame_fields_loop frame rest
      | Some _ => add_error (EFrameFieldNotString field) ;;; ret false
      end
  end.

(** [validate_frame_structure] *)
Definition validate_frame_structure (frame : pyval) : V bool :=
  match frame with
  | VDict f =>
      let missing_fields := missing_from frame_fields f in
      if negb (Nat.eqb (List.length missing_fields) 0)
      then add_error (EFrameMissingFields missing_fields) ;;; ret false
      else frame_fields_loop f frame_fields
  | _ => add_error EFrameNotDict ;;; ret false
  end.

(** The loop over the examples in [validate_examples]. *)
Fixpoint examples_loop (i : nat) (unique_examples : list str)
  (examples : list pyval) : V bool :=
  match examples with
  | [] => ret true
  | VStr example :: rest =>
      (if existsb (str_eqb example) unique_examples
       then add_warning (WDuplicateExample (take 50 example)) else ret tt) ;;;
      examples_loop (S i) (example :: unique_examples) rest
  | _ :: _ => add_error (EExampleNotString i) ;;; ret false
  end.

(** [validate_examples] *)
Definition validate_examples (examples : pyval) : V bool :=
  match examples with
  | VList l =>
      if List.length l <? MIN_EXAMPLES
      then add_error (EInsufficientExamples (List.length l)) ;;; ret false
      else examples_loop 0 [] l
  | _ => add_error EExamplesNotList ;;; ret false
  end.

(** [validate_metadata]; [set(tags)] raises on a tag without a hash. *)
Definition validate_metadata (metadata : pyval) : V bool :=
  match metadata with
  | VNone => ret true
  | VDict md =>
      let missing := missing_from recommended_metadata md in
      (if negb (Nat.eqb (List.length missing) 0)
       then add_warning (WMetadataMissing missing) else ret tt) ;;;
      match dict_get md (lit "tags") with
      | None => ret true
      | Some (VList tags) =>
          match py_set (VList tags) with
          | Raise e => throw e
          | Ok distinct =>
              (if negb (Nat.eqb (List.length tags) (List.length distinct))
               then add_warning WDuplicateTags else ret tt) ;;;
              ret true
          end
      | Some _ => add_error ETagsNotList ;;; ret false
      end
  | _ => add_error EMetadataNotDict ;;; ret false
  end.

(** [validate_pattern] *)
Definition validate_pattern (pattern : pyval) : V bool :=
  match pattern with
  | VStr p =>
      (if is_empty (strip p) then add_warning WPatternEmpty else ret tt) ;;;
      ret true
  | _ => add_error EPatternNotString ;;; ret false
  end.

Fixpoint components_loop (i : nat) (composed_of : list pyval) : V bool :=
  match composed_of with
  | [] => ret true
  | VDict component :: rest =>
      if negb (dict_has component (lit "type"))
         || negb (dict_has component (lit "marker_ids"))
      then add_error (EComponentFields i) ;;; ret false
      else components_loop (S i) rest
  | _ :: _ => add_error (EComponentNotDict i) ;;; ret false
  end.

(** [validate_composed_of] *)
Definition validate_composed_of (composed_of : pyval) : V bool :=
  match composed_of with
  | VList l => components_loop 0 l
  | _ => add_error EComposedOfNotList ;;; ret false
  end.

(** [isinstance(v, str) and v.strip()] of the [_id] test. *)
Definition id_ok (v : pyval) : bool :=
  match v with
  | VStr s => negb (is_empty (strip s))
  | _ => false
  end.

(** [if key in marker: method(marker[key])], the result dropped. *)
Definition when_present (marker : dict) (key : str) (c : check)
  (method : pyval -> V bool) : V unit :=
  match dict_get marker key with
  | Some v => enter c ;;; _ <~ method v ;; ret tt
  | None => ret tt
  end.

(** [validate_marker], from the state the method resets itself to. *)
Definition validate_marker_from (marker : dict) : V bool :=
  (* Check required fields *)
  let missing_required := missing_from required_fields marker in
  if negb (Nat.eqb (List.length missing_required) 0)
  then add_error (EMissingRequiredFields missing_required) ;;; ret false
  else
    (* Validate _id *)
    (if negb (id_ok (dict_get_default marker (lit "_id") VNone))
     then add_error EIdNotNonEmptyString else ret tt) ;;;
    (* Validate frame *)
    enter CkFrame ;;;
    frame_ok <~ validate_frame_structure
                  (dict_get_default marker (lit "frame") VNone) ;;
    if negb frame_ok then ret false else
    (* Validate examples *)
    enter CkExamples ;;;
    examples_ok <~ validate_examples
                     (dict_get_default marker (lit "examples") VNone) ;;
    if negb examples_ok then ret false else
    (* Validate XOR constraint *)
    enter CkXor ;;;
    xor_ok <~ validate_xor_constraint marker ;;
    if negb xor_ok then ret false else
    (* Validate optional fields if present *)
    when_present marker (lit "pattern") CkPattern validate_pattern ;;;
    when_present marker (lit "composed_of") CkComposedOf
      validate_composed_of ;;;
    when_present marker (lit "metadata") CkMetadata validate_metadata ;;;
    (* Check for unknown fields *)
    let all_allowed_fields := required_fields ++ optional_fields ++ xor_fields in
    let unknown_fields :=
      filter (fun k => negb (existsb (str_eqb k) all_allowed_fields))
        (dict_keys marker) in
    (if negb (Nat.eqb (List.length unknown_fields) 0)
     then add_warning (WUnknownFields unknown_fields) else ret tt) ;;;
    fun st => (Ok (Nat.eqb (List.length (errors st)) 0), st).

(** [validate_marker]: [is_valid] (or the exception), and the state that
    holds the returned [errors] and [warnings]. *)
Definition validate_marker (marker : dict) : result bool * vstate :=
  validate_marker_from marker init_state.

End LeanDeep31Validator.
Import LeanDeep31Validator.

(* ================================================================== *)
(** ** [qualify_marker_set.py]: class [MarkerQualifier] *)
(* ================================================================== *)

Module MarkerQualifier.

Inductive rating := Excellent | Good | Acceptable | NeedsImprovement | Poor.

Definition Qltb (a b : Q) : bool := negb (Qle_bool b a).

(** [min(a, b)] and [max(a, b)] of Python: the first argument unless the
    second is strictly smaller (larger). *)
Definition py_min (a b : Q) : Q := if Qltb b a then b else a.
Definition py_max (a b : Q) : Q := if Qltb a b then b else a.

(** [all(field in metadata for field in fields)]: stops at the first
    field that is not in. *)
Fixpoint all_in (fields : list str) (metadata : pyval) : result bool :=
  match fields with
  | [] => Ok true
  | field :: rest =>
      b <- py_in field metadata ;;
      if b then all_in rest metadata else Ok false
  end.

(** [sum(len(frame.get(f, '')) for f in frame)] over a dictionary. *)
Fixpoint sum_lengths (frame : dict) (keys : list str) : result nat :=
  match keys with
  | [] => Ok 0
  | f :: rest =>
      n <- py_len (dict_get_default frame f (VStr [])) ;;
      m <- sum_lengths frame rest ;;
      Ok (n + m)
  end.

(** The same sum for any value of [marker['frame']]: a string or a list
    can be iterated but has no [get], other values cannot be iterated. *)
Definition frame_length_sum (frame : pyval) : result nat :=
  match frame with
  | VDict f => sum_lengths f (dict_keys f)
  | VStr [] | VList [] => Ok 0
  | VStr (_ :: _) | VList (_ :: _) => Raise AttributeError
  | _ => Raise TypeError
  end.

Definition rating_of (score : Q) : rating :=
  if Qle_bool 90 score then Excellent
  else if Qle_bool 80 score then Good
  else if Qle_bool 70 score then Acceptable
  else if Qle_bool 60 score then NeedsImprovement
  else Poor.

(** [calculate_quality_score] *)
Definition calculate_quality_score (marker : dict) (warnings : list vwarning)
  : result (Q * rating) :=
  let score : Q := 100%Q in
  (* Deduct points for warnings *)
  let score := (score - inject_Z (Z.of_nat (List.length warnings * 5)))%Q in
  (* Bonus for complete metadata *)
  score <-
    match dict_get marker (lit "metadata") with
    | Some metadata =>
        b <- all_in recommended_metadata metadata ;;
        Ok (if b then (score + 10)%Q else score)
    | None => Ok score
    end ;;
  (* Bonus for rich examples *)
  n_examples <- py_len (dict_get_default marker (lit "examples") (VList [])) ;;
  let score := if MIN_EXAMPLES <? n_examples then (score + 5)%Q else score in
  (* Bonus for detailed frame descriptions *)
  score <-
    match dict_get marker (lit "frame") with
    | Some frame =>
        total <- frame_length_sum frame ;;
        let avg_length := (inject_Z (Z.of_nat total) / 4)%Q in
        Ok (if Qltb 50 avg_length then (score + 5)%Q else score)
    | None => Ok score
    end ;;
  (* Determine rating *)
  let rating := rating_of score in
  Ok (py_max 0 (py_min 100 score), rating).

Inductive status := QUALIFIED | FAILED | ERROR.

(** The entries of [result['errors']]: the validator's errors, or one of
    the two texts [qualify_marker] writes itself. *)
Inductive qerror : Type :=
| ValidationError (e : verror)
| EmptyOrInvalidYaml
| ProcessingError (e : exn).

(** The result dictionary of [qualify_marker]. *)
Record qualification : Type := {
  q_status : status;
  q_errors : list qerror;
  q_warnings : list vwarning;
  quality_score : Q;
  quality_rating : option rating     (* [None] is the text N/A *)
}.

(** [qualify_marker] on the value loaded from the marker file (the
    reading of the file and the move to quarantine are left out).  A
    value that is no dictionary has no [keys], which [validate_marker]
    asks for first. *)
Definition qualify_marker (marker : pyval) : qualification :=
  if negb (truthy marker) then
    {| q_status := FAILED; q_errors := [EmptyOrInvalidYaml];
       q_warnings := []; quality_score := 0; quality_rating := None |}
  else
    match marker with
    | VDict m =>
        match validate_marker m with
        | (Ok true, st) =>
            match calculate_quality_score m (warnings st) with
            | Ok (score, rating) =>
                {| q_status := QUALIFIED;
                   q_errors := map ValidationError (errors st);
                   q_warnings := warnings st;
                   quality_score := score; quality_rating := Some rating |}
            | Raise e =>
                {| q_status := ERROR; q_errors := [ProcessingError e];
                   q_warnings := warnings st;
                   quality_score := 0; quality_rating := None |}
            end
        | (Ok false, st) =>
            {| q_status := FAILED;
               q_errors := map ValidationError (errors st);
               q_warnings := warnings st;
               quality_score := 0; quality_rating := None |}
        | (Raise e, st) =>
            {| q_status := ERROR; q_errors := [ProcessingError e];
               q_warnings := []; quality_score := 0; quality_rating := None |}
        end
    | _ =>
        {| q_status := ERROR; q_errors := [ProcessingError AttributeError];
           q_warnings := []; quality_score := 0; quality_rating := None |}
    end.

End MarkerQualifier.
Import MarkerQualifier.

(* ================================================================== *)
(** ** [complete_markers.py]: [process_markers] *)
(* ================================================================== *)

Module ProcessMarkers.

(** The columns [status], [error] and [details] of a row of the report.
    The details are the error text of the parser, the number written in
    the text about the examples, or the text of an exception. *)
Inductive row_status := SUCCESS | QUARANTINED.

Inductive row_error := NoError | YAML_ERROR | NORMALIZATION_ERROR.

Inductive row_details : Type :=
| ParserError (error : str)
| NormalizedWith (n_examples : nat)
| ExceptionText (e : exn).

Record report_row : Type := {
  r_file : str;
  r_status : row_status;
  r_error : row_error;
  r_details : row_details
}.

(** The counters and the report of [process_markers], with the markers
    written to the output directory and the files copied to the
    quarantine. *)
Record run : Type := {
  total_files : nat;
  successful : nat;
  quarantined : nat;
  report_data : list report_row;
  output_dir : list (str * dict);
  quarantine : list str
}.

Definition start : run :=
  {| total_files := 0; successful := 0; quarantined := 0; report_data := [];
     output_dir := []; quarantine := [] |}.

(** [normalizer.normalize_marker(marker_data, file_name)] on whatever
    the parser returned: [get] is the first thing asked of
    [marker_data], and only a dictionary has it. *)
Definition normalize_value (rt : runtime) (marker_data : option pyval)
  (file_name : str) : result dict :=
  match marker_data with
  | Some (VDict d) => normalize_marker rt d file_name
  | _ => Raise AttributeError
  end.

(** [len(normalized['examples'])] *)
Definition examples_count (normalized : dict) : result nat :=
  match dict_get normalized (lit "examples") with
  | Some v => py_len v
  | None => Raise KeyError
  end.

(** [if error:] *)
Definition error_set (error : option str) : bool :=
  match error with
  | Some (_ :: _) => true
  | _ => false
  end.

(** The quarantine of a file: the copy of the original, which reads the
    file once more, and the writing of the error details; then the
    counter and the row.  [to_quarantine] stands for the two writes:
    they return or raise, and no [try] is around them. *)
Definition quarantine_file (to_quarantine : str -> result unit)
  (st : run) (file_name : str) (tag : row_error)
  (details : row_details) : result run :=
  _ <- to_quarantine file_name ;;
  Ok {| total_files := total_files st;
        successful := successful st;
        quarantined := quarantined st + 1;
        report_data :=
          report_data st
          ++ [ {| r_file := file_name; r_status := QUARANTINED;
                  r_error := tag; r_details := details |} ];
        output_dir := output_dir st;
        quarantine := quarantine st ++ [file_name] |}.

(** The body of the loop over the files.  [write_marker] stands for
    opening the output file and [yaml.dump]: it returns or raises, under
    the [try].  The call of the parser is under no [try], and neither
    are the writes to the quarantine: an exception that leaves one of
    them leaves the loop, and [process_markers] with it. *)
Definition process_file (rt : runtime) (safe_load : str -> yaml_result)
  (write_marker : str -> dict -> result unit)
  (to_quarantine : str -> result unit)
  (st : run) (yaml_file : str * file_read) : result run :=
  let st :=
    {| total_files := total_files st + 1; successful := successful st;
       quarantined := quarantined st; report_data := report_data st;
       output_dir := output_dir st; quarantine := quarantine st |} in
  let file_name := fst yaml_file in
  (* Try to parse and repair YAML *)
  let o := parse_with_recovery safe_load (snd yaml_file) in
  match raised o with
  | Some e => Raise e
  | None =>
      if error_set (error o) then
        quarantine_file to_quarantine st file_name YAML_ERROR
          (ParserError (match error o with Some e => e | None => [] end))
      else
        match
          (normalized <- normalize_value rt (parsed o) file_name ;;
           _ <- write_marker file_name normalized ;;
           Ok normalized)
        with
        | Ok normalized =>
            let st :=
              {| total_files := total_files st;
                 successful := successful st + 1;
                 quarantined := quarantined st;
                 report_data := report_data st;
                 output_dir := output_dir st ++ [(file_name, normalized)];
                 quarantine := quarantine st |} in
            match examples_count normalized with
            | Ok n =>
                Ok {| total_files := total_files st;
                      successful := successful st;
                      quarantined := quarantined st;
                      report_data :=
                        report_data st
                        ++ [ {| r_file := file_name; r_status := SUCCESS;
                                r_error := NoError;
                                r_details := NormalizedWith n |} ];
                      output_dir := output_dir st;
                      quarantine := quarantine st |}
            | Raise e =>
                quarantine_file to_quarantine st file_name
                  NORMALIZATION_ERROR (ExceptionText e)
            end
        | Raise e =>
            quarantine_file to_quarantine st file_name
              NORMALIZATION_ERROR (ExceptionText e)
        end
  end.

(** The loop over the files: it goes on to the next file when the body
    returns, and ends with the exception when one leaves the body. *)
Fixpoint process_files (rt : runtime) (safe_load : str -> yaml_result)
  (write_marker : str -> dict -> result unit)
  (to_quarantine : str -> result unit)
  (yaml_files : list (str * file_read)) (st : run) : result run :=
  match yaml_files with
  | [] => Ok st
  | yaml_file :: rest =>
      st <- process_file rt safe_load write_marker to_quarantine st
              yaml_file ;;
      process_files rt safe_load write_marker to_quarantine rest st
  end.

(** [process_markers] on the files of the marker directory, up to the
    writing of the report. *)
Definition process_markers (rt : runtime) (safe_load : str -> yaml_result)
  (write_marker : str -> dict -> result unit)
  (to_quarantine : str -> result unit)
  (yaml_files : list (str * file_read)) : result run :=
  process_files rt safe_load write_marker to_quarantine yaml_files start.

End ProcessMarkers.

(* ================================================================== *)
(** ** [qualify_marker_set.py]: [qualify_marker_set] *)
(* ================================================================== *)

Module QualifyMarkerSet.

(** The column [details] of a row: the score and the rating, or the
    first two errors. *)
Inductive entry_details : Type :=
| ScoreAndRating (score : Q) (rating : option rating)
| FirstErrors (errors : list qerror).

Record report_entry : Type := {
  e_status : status;
  e_error : str;
  e_details : entry_details
}.

Record run : Type := {
  total_files : nat;
  qualified : nat;
  failed : nat;
  report_data : list report_entry
}.

Definition start : run :=
  {| total_files := 0; qualified := 0; failed := 0; report_data := [] |}.

(** [result['status'] == 'QUALIFIED'] *)
Definition is_qualified (s : status) : bool :=
  match s with
  | QUALIFIED => true
  | _ => false
  end.

(** The row of the report for the result of [qualify_marker]. *)
Definition report_entry_of (result : qualification) : report_entry :=
  {| e_status := q_status result;
     e_error := match q_errors result with
                | _ :: _ => lit "VALIDATION_ERROR"
                | [] => []
                end;
     e_details := if is_qualified (q_status result)
                  then ScoreAndRating (quality_score result)
                         (quality_rating result)
                  else FirstErrors (firstn 2 (q_errors result)) |}.

(** The body of the loop, on the value loaded from a marker file. *)
Definition qualify_file (st : run) (marker : pyval) : run :=
  let result := qualify_marker marker in
  {| total_files := total_files st + 1;
     qualified := if is_qualified (q_status result)
                  then qualified st + 1 else qualified st;
     failed := if is_qualified (q_status result)
               then failed st else failed st + 1;
     report_data := report_data st ++ [report_entry_of result] |}.

(** [qualify_marker_set] on the values loaded from the marker files, up
    to the writing of the report. *)
Definition qualify_marker_set (markers : list pyval) : run :=
  fold_left qualify_file markers start.

(** [success_rate] *)
Definition success_rate (r : run) : Q :=
  if 0 <? total_files r
  then (inject_Z (Z.of_nat (qualified r)) / inject_Z (Z.of_nat (total_files r))
        * 100)%Q
  else 0%Q.

End QualifyMarkerSet.


(* ================================================================== *)
(** ** Predicates, auxiliary functions and sample data *)
(* ================================================================== *)

(** *** Texts and lines *)

(** Nothing but white space. *)
Definition all_space (w : str) : Prop := forallb isspace w = true.

(** No line break: the text is (part of) one line. *)
Definition no_nl (l : str) : Prop :=
  forallb (fun c => negb (Ascii.eqb c NL)) l = true.

(** What follows a line: nothing, or a line break and more text. *)
Definition line_end (r : str) : Prop := r = [] \/ exists t, r = NL :: t.

(** The language of the pattern of [re.sub], read off the regular
    expression: [s] starts with a match whose group is [x] and that ends
    before [rest], at a line end. *)
Definition pattern_matches (s x rest : str) : Prop :=
  exists w1 w2,
    s = w1 ++ DASH :: w2 ++ DQUOTE :: x ++ DQUOTE :: rest
    /\ all_space w1 /\ all_space w2 /\ x <> [] /\ no_nl x /\ line_end rest.

(** [resume] of [sub_items], with the substitution itself for the rest. *)
Definition resume (rest : str) : str :=
  match rest with
  | [] => []
  | c :: t => c :: re_sub_items t
  end.

(** No three dashes in a row in [s], when [k] dashes stand right before
    it. *)
Fixpoint dashes_ok (k : nat) (s : str) : bool :=
  match s with
  | [] => true
  | c :: t =>
      if Ascii.eqb c DASH then (k <? 2) && dashes_ok (S k) t
      else dashes_ok 0 t
  end.

(** The text has no document separator in it. *)
Definition no_separator (s : str) : Prop := dashes_ok 0 s = true.

(** The text has no tab in it. *)
Definition no_tab (s : str) : Prop :=
  forallb (fun c => negb (Ascii.eqb c TAB)) s = true.

(** Every line is one that the loop over the lines leaves as it is. *)
Definition lines_repaired (s : str) : Prop :=
  Forall (fun l => repair_line l = l) (split NL s).

(** The number of dashes a text starts with. *)
Fixpoint leading_dashes (s : str) : nat :=
  match s with
  | [] => 0
  | c :: t => if Ascii.eqb c DASH then S (leading_dashes t) else 0
  end.

(** The four steps of [repair_yaml_content] by name; the fourth is
    [re_sub_items]. *)
Definition remove_separators (s : str) : str := replace (lit "---") [] s.

Definition expand_tabs (s : str) : str := replace [TAB] (lit "  ") s.

Definition repair_lines (s : str) : str :=
  join [NL] (map repair_line (split NL s)).

(** *** Line salvage *)

(** The lines the loop does not skip: stripped, not blank, no comment. *)
Definition skipped (line : str) : bool :=
  is_empty line || startswith (lit "#") line.

Definition surviving_lines (content : str) : list str :=
  filter (fun line => negb (skipped line)) (map strip (split NL content)).

(** A line that starts a new key: it has a colon and does not start with
    a list marker. *)
Definition is_key_line (line : str) : bool :=
  has_char COLON line && negb (startswith (lit "-") line).

(** The key and the value that a key line brings: the text before and
    after its first colon, stripped. *)
Definition key_of (line : str) : str := strip (nth 0 (split1 COLON line) []).

Definition rhs_of (line : str) : str := strip (nth 1 (split1 COLON line) []).

(** The loop body on a line that is not skipped. *)
Definition line_step (st : salvage_state) (line : str) : salvage_state :=
  if is_key_line line then
    {| data := flush st; current_key := Some (key_of line);
       current_value := if negb (is_empty (rhs_of line))
                        then [rhs_of line] else [] |}
  else if key_truthy (current_key st) then
    {| data := data st; current_key := current_key st;
       current_value := current_value st ++ [line] |}
  else st.

(** A key with a value to store is waiting for the next flush. *)
Definition pending (st : salvage_state) : Prop :=
  key_truthy (current_key st) = true /\ current_value st <> [].

(** The dictionary has an entry, or gets one at the next flush. *)
Definition will_be_nonempty (st : salvage_state) : Prop :=
  data st <> [] \/ pending st.

(** A key line has a value of its own, or gets one from the line after. *)
Definition key_with_value (line : str) (after : list str) : Prop :=
  is_key_line line = true /\ key_of line <> []
  /\ (rhs_of line <> []
      \/ exists next rest, after = next :: rest /\ is_key_line next = false).

(** Some key line among [lines] has a value. *)
Definition has_key_with_value (lines : list str) : Prop :=
  exists before line after,
    lines = before ++ line :: after /\ key_with_value line after.

(** What the state of the loop says about the lines read so far. *)
Definition salvage_invariant (lines : list str) (st : salvage_state) : Prop :=
  (will_be_nonempty st -> has_key_with_value lines)
  /\ (key_truthy (current_key st) = true -> current_value st = [] ->
      exists before k,
        lines = before ++ [k] /\ is_key_line k = true /\ key_of k <> []).

(** *** Parsers, source structures and markers used as examples *)


(** A parser that rejects every text. *)
Definition rejects_all (text : str) : yaml_result := YamlError.

(** A parser that reads every text as the mapping of [a] to [b]. *)
Definition reads_a_b (text : str) : yaml_result :=
  YamlOk (VDict [(lit "a", VStr (lit "b"))]).

(** A parser that meets a date that does not exist in the text
    [created_at: 2001-13-45], and reads every other text as the mapping
    of [a] to [b]. *)
Definition refuses_the_date (text : str) : yaml_result :=
  if str_eqb text (lit "created_at: 2001-13-45") then YamlRaises ValueError
  else YamlOk (VDict [(lit "a", VStr (lit "b"))]).

(** *** The normalizer *)

(** The dictionary literal of [normalize_marker]. *)
Definition normalized_literal (rt : runtime) (marker_id : pyval)
  (frame : dict) (examples : list str) (created author version : pyval)
  (tags : list pyval) : dict :=
  [ (lit "_id", marker_id);
    (lit "frame", VDict frame);
    (lit "examples", VList (map VStr examples));
    (lit "pattern", VStr (lit "Pattern for " ++ py_str rt marker_id));
    (lit "metadata",
      VDict [ (lit "created", created);
              (lit "author", author);
              (lit "version", version);
              (lit "tags", VList tags) ]) ].

(** The three optional fields added after it. *)
Definition with_optional_fields (rt : runtime) (marker_data : dict)
  (normalized : dict) : dict :=
  set_if_present marker_data (lit "beschreibung")
    (fun v => VStr (py_str rt v)) (lit "original_description")
    (set_if_present marker_data (lit "semantische_grabber_id") (fun v => v)
       (lit "semantic_id")
       (set_if_present marker_data (lit "kategorie") (fun v => v)
          (lit "category") normalized)).

(** The value of [marker_id] in [normalize_marker]. *)
Definition marker_id_of (marker_data : dict) (file_name : str) : pyval :=
  dict_get_default marker_data (lit "marker_name")
    (VStr (replace (lit ".yaml") [] file_name)).

(** The clock and [repr] used where a concrete run is shown. *)
Definition sample_runtime : runtime :=
  {| now_isoformat := lit "2024-01-01T00:00:00";
     repr := fun _ => lit "<object>" |}.

(** Scenario A of the specification: a name, three examples, no frame
    and no descriptor field. *)
Definition scenario_a : dict :=
  [ (lit "marker_name", VStr (lit "A_LOC_CAFE"));
    (lit "beispiele",
      VList [VStr (lit "- im Cafe"); VStr (lit "at the cafe");
             VStr (lit "coffee shop")]) ].

(** The marker [normalize_marker] returned (the empty dictionary stands
    for an exception). *)
Definition normalized_or_empty (r : result dict) : dict :=
  match r with
  | Ok m => m
  | Raise _ => []
  end.

Definition scenario_a_normalized : dict :=
  normalized_or_empty
    (normalize_marker sample_runtime scenario_a (lit "cafe.yaml")).

(** A source structure on which [normalize_marker] raises nothing: the
    name is a string if it is there, the metadata is a dictionary if it
    is there, and its tags can be put in a set. *)
Definition well_typed_source (marker_data : dict) : bool :=
  match dict_get marker_data (lit "marker_name") with
  | None | Some (VStr _) => true
  | Some _ => false
  end
  &&
  match dict_get marker_data (lit "metadata") with
  | None => true
  | Some (VDict meta) =>
      match dict_get meta (lit "tags") with
      | None => true
      | Some t => match py_set t with Ok _ => true | Raise _ => false end
      end
  | Some _ => false
  end.

(** *** The validator *)

(** What a method adds to the state it starts from. *)
Definition extend (st d : vstate) : vstate :=
  {| errors := errors st ++ errors d;
     warnings := warnings st ++ warnings d;
     ran := ran st ++ ran d |}.

(** A method that only appends to the state: from any state it does what
    it does from the empty one. *)
Definition appends {A} (c : V A) : Prop :=
  forall st, c st = (fst (c init_state), extend st (snd (c init_state))).

(** [validate_marker] from the XOR check on, and from the frame check on,
    up to the point where [is_valid] is computed: [True] says that this
    point is reached. *)
Definition checks_from_xor (marker : dict) : V bool :=
  xor_ok <~ validate_xor_constraint marker ;;
  if negb xor_ok then ret false else
  when_present marker (lit "pattern") CkPattern validate_pattern ;;;
  when_present marker (lit "composed_of") CkComposedOf
    validate_composed_of ;;;
  when_present marker (lit "metadata") CkMetadata validate_metadata ;;;
  let all_allowed_fields := required_fields ++ optional_fields ++ xor_fields in
  let unknown_fields :=
    filter (fun k => negb (existsb (str_eqb k) all_allowed_fields))
      (dict_keys marker) in
  (if negb (Nat.eqb (List.length unknown_fields) 0)
   then add_warning (WUnknownFields unknown_fields) else ret tt) ;;;
  ret true.

Definition checks_after_id (marker : dict) : V bool :=
  enter CkFrame ;;;
  frame_ok <~ validate_frame_structure
                (dict_get_default marker (lit "frame") VNone) ;;
  if negb frame_ok then ret false else
  enter CkExamples ;;;
  examples_ok <~ validate_examples
                   (dict_get_default marker (lit "examples") VNone) ;;
  if negb examples_ok then ret false else
  enter CkXor ;;;
  checks_from_xor marker.

(** The test of the identifier in [validate_marker]. *)
Definition id_step (marker : dict) : V unit :=
  if negb (id_ok (dict_get_default marker (lit "_id") VNone))
  then add_error EIdNotNonEmptyString else ret tt.

(** The last line of [validate_marker]: where the end is reached,
    [is_valid] says whether there is no error. *)
Definition finish (r : result bool * vstate) : result bool * vstate :=
  match r with
  | (Ok true, st) => (Ok (Nat.eqb (List.length (errors st)) 0), st)
  | other => other
  end.

(** [c] is [c'] with the computation of [is_valid] at its end. *)
Definition finishing (c c' : V bool) : Prop :=
  forall st, c st = finish (c' st).

(** A method that leaves the record of the calls alone. *)
Definition keeps_ran {A} (c : V A) : Prop :=
  forall st, ran (snd (c st)) = ran st.

(** The checks the validator gets to after the identifier: the frame
    check; the examples check if the frame passes; the XOR check, and
    what follows it, if the examples pass. *)
Definition checks_reached (marker : dict) : list check :=
  CkFrame ::
  match fst (validate_frame_structure
               (dict_get_default marker (lit "frame") VNone) init_state) with
  | Ok true =>
      CkExamples ::
      match fst (validate_examples
                   (dict_get_default marker (lit "examples") VNone)
                   init_state) with
      | Ok true => CkXor :: ran (snd (checks_from_xor marker init_state))
      | _ => []
      end
  | _ => []
  end.

(** Scenario B of the specification: a marker without [examples]. *)
Definition scenario_b : dict :=
  [ (lit "_id", VStr (lit "A_LOC_CAFE"));
    (lit "frame", VDict (frame_templates ENTITY));
    (lit "pattern", VStr (lit "Pattern for A_LOC_CAFE")) ].

(** The marker of scenario A with a blank identifier. *)
Definition blank_id_marker : dict :=
  dict_set scenario_a_normalized (lit "_id") (VStr (lit "  ")).

(** The verdict of [validate_frame_structure] on a dictionary: each of
    the four frame fields is there and is a string. *)
Definition is_str (v : pyval) : bool :=
  match v with
  | VStr _ => true
  | _ => false
  end.

Definition field_is_str (frame : dict) (field : str) : bool :=
  match dict_get frame field with
  | Some v => is_str v
  | None => false
  end.

Definition frame_accepted (frame : dict) : bool :=
  forallb (field_is_str frame) frame_fields.

(** A frame with the four fields and a fifth key. *)
Definition frame_with_note : dict :=
  frame_templates ENTITY
  ++ [(lit "note", VStr (lit "Seen mostly in travel reports and reviews."))].

(** A marker with that frame and five examples, four of them the same. *)
Definition marker_with_note : dict :=
  [ (lit "_id", VStr (lit "A_LOC_CAFE"));
    (lit "frame", VDict frame_with_note);
    (lit "examples",
      VList [VStr (lit "im Cafe"); VStr (lit "im Cafe"); VStr (lit "im Cafe");
             VStr (lit "im Cafe"); VStr (lit "at the cafe")]);
    (lit "pattern", VStr (lit "Pattern for A_LOC_CAFE")) ].

(** The marker of scenario A with a metadata field that is [None], as a
    YAML file with an empty [metadata:] entry gives it. *)
Definition marker_with_null_metadata : dict :=
  dict_set scenario_a_normalized (lit "metadata") VNone.

(** *** The score as specified *)

(** The score in the words of the specification: 100, minus 5 a warning,
    plus 10 for a metadata mapping with the four recommended keys, plus 5
    for more examples than the minimum, plus 5 when the four frame field
    values are longer than 50 characters on average; then the limits 0
    and 100, and the rating of the limited score. *)
Definition field_length (frame : dict) (field : str) : nat :=
  match dict_get frame field with
  | Some (VStr s) => List.length s
  | _ => 0
  end.

Definition four_fields_length (marker : dict) : nat :=
  match dict_get marker (lit "frame") with
  | Some (VDict frame) => list_sum (map (field_length frame) frame_fields)
  | _ => 0
  end.

Definition metadata_complete (marker : dict) : bool :=
  match dict_get marker (lit "metadata") with
  | Some (VDict metadata) => forallb (dict_has metadata) recommended_metadata
  | _ => false
  end.

Definition example_count (marker : dict) : nat :=
  match dict_get marker (lit "examples") with
  | Some (VList l) => List.length l
  | _ => 0
  end.

Definition specified_raw_score (marker : dict) (n_warnings : nat) : Q :=
  let score := (100 - inject_Z (Z.of_nat (n_warnings * 5)))%Q in
  let score := if metadata_complete marker then (score + 10)%Q else score in
  let score :=
    if MIN_EXAMPLES <? example_count marker then (score + 5)%Q else score in
  if Qltb 50 (inject_Z (Z.of_nat (four_fields_length marker)) / 4)%Q
  then (score + 5)%Q else score.

Definition specified_score (marker : dict) (n_warnings : nat) : Q * rating :=
  let clamped := py_max 0 (py_min 100 (specified_raw_score marker n_warnings)) in
  (clamped, rating_of clamped).

(** *** Further predicates on texts and on the salvaged dictionary *)

(** The line is not a bare identifier: stripped, it does not match the
    pattern of the keys. *)
Definition no_bare_identifier (l : str) : Prop :=
  is_identifier (strip l) = false.

(** A line as the salvage loop collects it: not empty, and stripped. *)
Definition clean_line (l : str) : Prop := l <> [] /\ strip l = l.

(** An entry as the salvage loop stores it: a key that is not empty, is
    stripped and has no colon, with a string that is not empty and is
    stripped. *)
Definition salvaged_entry (kv : str * pyval) : Prop :=
  fst kv <> [] /\ strip (fst kv) = fst kv /\ has_char COLON (fst kv) = false
  /\ exists s, snd kv = VStr s /\ s <> [] /\ strip s = s.

Definition salvage_wellformed (st : salvage_state) : Prop :=
  Forall salvaged_entry (data st)
  /\ NoDup (dict_keys (data st))
  /\ (forall k, current_key st = Some k ->
        strip k = k /\ has_char COLON k = false)
  /\ Forall clean_line (current_value st).

(** *** Further definitions for the normalizer *)

(** The examples that [ensure_minimum_examples] keeps of its argument. *)
Definition kept_examples (examples : pyval) : list str :=
  match examples with
  | VList l => clean_examples l
  | _ => []
  end.

(** The name of a source structure is absent or a string; its metadata
    are absent or a dictionary. *)
Definition name_is_text (marker_data : dict) : bool :=
  match dict_get marker_data (lit "marker_name") with
  | None | Some (VStr _) => true
  | Some _ => false
  end.

Definition metadata_is_mapping (marker_data : dict) : bool :=
  match dict_get marker_data (lit "metadata") with
  | None | Some (VDict _) => true
  | Some _ => false
  end.

(** The optional keys of a normalized marker, in the order they are
    added. *)
Definition optional_keys (marker_data : dict) : list str :=
  (if dict_has marker_data (lit "kategorie") then [lit "category"] else [])
  ++ (if dict_has marker_data (lit "semantische_grabber_id")
      then [lit "semantic_id"] else [])
  ++ (if dict_has marker_data (lit "beschreibung")
      then [lit "original_description"] else []).

(** Scenario A with a description and a category. *)
Definition scenario_a_described : dict :=
  scenario_a
  ++ [ (lit "beschreibung", VStr (lit "Locations such as a cafe"));
       (lit "kategorie", VStr (lit "LOCATION")) ].

(** A text with a character that is no white space. *)
Definition nonblank (s : str) : Prop := is_empty (strip s) = false.

(** A frame of four strings. *)
Definition four_strings (signal concept pragmatics narrative : str) : dict :=
  [ (lit "signal", VStr signal);
    (lit "concept", VStr concept);
    (lit "pragmatics", VStr pragmatics);
    (lit "narrative", VStr narrative) ].

(** The signal of a template, and what [generate_frame] puts after it. *)
Definition template_signal (c : category) : str :=
  match dict_get (frame_templates c) (lit "signal") with
  | Some (VStr s) => s
  | _ => []
  end.

Definition signal_suffix (marker_data : dict) : str :=
  match dict_get marker_data (lit "marker_name") with
  | Some (VStr (c :: name)) => lit " for " ++ c :: name
  | _ => []
  end.

(** *** Further definitions for the validator *)

(** The warnings of the loop over the examples when they are all
    strings: one for each example that was seen before it. *)
Fixpoint duplicate_warnings (unique_examples examples : list str)
  : list vwarning :=
  match examples with
  | [] => []
  | example :: rest =>
      (if existsb (str_eqb example) unique_examples
       then [WDuplicateExample (take 50 example)] else [])
      ++ duplicate_warnings (example :: unique_examples) rest
  end.

(** The first occurrences of the examples that are not in [seen]. *)
Fixpoint distinct_from (seen examples : list str) : list str :=
  match examples with
  | [] => []
  | example :: rest =>
      if existsb (str_eqb example) seen
      then distinct_from (example :: seen) rest
      else example :: distinct_from (example :: seen) rest
  end.

(** The verdicts of the methods, as functions of the value checked. *)
Definition frame_ok (frame : pyval) : bool :=
  match frame with
  | VDict f => frame_accepted f
  | _ => false
  end.

Definition examples_accepted (examples : pyval) : bool :=
  match examples with
  | VList l =>
      negb (List.length l <? LeanDeep31Validator.MIN_EXAMPLES)
      && forallb is_str l
  | _ => false
  end.

Definition xor_ok (marker : dict) : bool :=
  Nat.eqb (List.length (filter (dict_has marker) xor_fields)) 1.

Definition component_ok (component : pyval) : bool :=
  match component with
  | VDict c => dict_has c (lit "type") && dict_has c (lit "marker_ids")
  | _ => false
  end.

Definition composed_of_ok (composed_of : pyval) : bool :=
  match composed_of with
  | VList l => forallb component_ok l
  | _ => false
  end.

Definition metadata_ok (metadata : pyval) : bool :=
  match metadata with
  | VNone => true
  | VDict md =>
      match dict_get md (lit "tags") with
      | None | Some (VList _) => true
      | Some _ => false
      end
  | _ => false
  end.

(** The metadata has a list of tags one of which has no hash. *)
Definition tags_unhashable (metadata : pyval) : bool :=
  match metadata with
  | VDict md =>
      match dict_get md (lit "tags") with
      | Some (VList tags) => negb (forallb hashable tags)
      | _ => false
      end
  | _ => false
  end.

(** A test of an optional field: passed when the field is not there. *)
Definition present_ok (marker : dict) (key : str) (ok : pyval -> bool)
  : bool :=
  match dict_get marker key with
  | Some v => ok v
  | None => true
  end.

(** The marker gets past the three checks that end the validation. *)
Definition reaches_optional_checks (marker : dict) : bool :=
  Nat.eqb (List.length (missing_from required_fields marker)) 0
  && frame_ok (dict_get_default marker (lit "frame") VNone)
  && examples_accepted (dict_get_default marker (lit "examples") VNone)
  && xor_ok marker.

(** What [validate_marker] returns or raises, said without the state. *)
Definition specified_verdict (marker : dict) : result bool :=
  if negb (reaches_optional_checks marker) then Ok false
  else if negb (present_ok marker (lit "metadata")
                  (fun v => negb (tags_unhashable v)))
  then Raise TypeError
  else Ok (id_ok (dict_get_default marker (lit "_id") VNone)
           && present_ok marker (lit "pattern") is_str
           && present_ok marker (lit "composed_of") composed_of_ok
           && present_ok marker (lit "metadata") metadata_ok).

(** What a method returns, and the errors it adds, from the empty
    state. *)
Definition outcome_of {A} (c : V A) : result A := fst (c init_state).

Definition errors_of {A} (c : V A) : list verror :=
  errors (snd (c init_state)).

Definition no_errors {A} (c : V A) : bool :=
  Nat.eqb (List.length (errors_of c)) 0.

(** [validate_marker] after the XOR check. *)
Definition optional_checks (marker : dict) : V bool :=
  when_present marker (lit "pattern") CkPattern validate_pattern ;;;
  when_present marker (lit "composed_of") CkComposedOf
    validate_composed_of ;;;
  when_present marker (lit "metadata") CkMetadata validate_metadata ;;;
  let all_allowed_fields := required_fields ++ optional_fields ++ xor_fields in
  let unknown_fields :=
    filter (fun k => negb (existsb (str_eqb k) all_allowed_fields))
      (dict_keys marker) in
  (if negb (Nat.eqb (List.length unknown_fields) 0)
   then add_warning (WUnknownFields unknown_fields) else ret tt) ;;;
  ret true.

(** A method that has added an error whenever it returns [False]. *)
Definition blames (c : V bool) : Prop :=
  forall st, fst (c st) = Ok false -> errors (snd (c st)) <> [].

(** A marker whose tags cannot be put in a set. *)
Definition marker_with_list_tag : dict :=
  dict_set scenario_a_normalized (lit "metadata")
    (VDict [(lit "tags", VList [VList []])]).

(** *** Further definitions for normalized markers *)

(** No entry of the list is equal, in the sense of [==], to a later
    one. *)
Fixpoint distinct_atoms (l : list pyval) : Prop :=
  match l with
  | [] => True
  | x :: t =>
      forallb (fun y => negb (atom_eqb x y)) t = true /\ distinct_atoms t
  end.

(** The keys [validate_marker] knows. *)
Definition all_allowed_fields : list str :=
  required_fields ++ optional_fields ++ xor_fields.

(** The examples of the marker that [normalize_marker] builds. *)
Definition normalized_examples (marker_data : dict) : list str :=
  ensure_minimum_examples
    (dict_get_default marker_data (lit "beispiele") (VList [])).

(** *** Further definitions for the score *)

(** The three bonuses of [calculate_quality_score]: complete metadata,
    more examples than the minimum, long frame texts. *)
Definition quality_bonuses (marker : dict) : result (bool * bool * bool) :=
  complete <-
    match dict_get marker (lit "metadata") with
    | Some metadata => all_in recommended_metadata metadata
    | None => Ok false
    end ;;
  n_examples <- py_len (dict_get_default marker (lit "examples") (VList [])) ;;
  detailed <-
    match dict_get marker (lit "frame") with
    | Some frame =>
        total <- frame_length_sum frame ;;
        Ok (Qltb 50 (inject_Z (Z.of_nat total) / 4)%Q)
    | None => Ok false
    end ;;
  Ok (complete, LeanDeep31Validator.MIN_EXAMPLES <? n_examples, detailed).

(** The score before the limits, from the bonuses and the number of
    warnings. *)
Definition score_with (bonuses : bool * bool * bool) (n_warnings : nat) : Q :=
  let score := (100 - inject_Z (Z.of_nat (n_warnings * 5)))%Q in
  let score := if fst (fst bonuses) then (score + 10)%Q else score in
  let score := if snd (fst bonuses) then (score + 5)%Q else score in
  if snd bonuses then (score + 5)%Q else score.

(** *** The runs over the marker files *)

Definition is_success (row : ProcessMarkers.report_row) : bool :=
  match ProcessMarkers.r_status row with
  | ProcessMarkers.SUCCESS => true
  | ProcessMarkers.QUARANTINED => false
  end.

(** The counters of [process_markers] agree with each other, with the
    report, and with what was written. *)
Definition tally_consistent (r : ProcessMarkers.run) : Prop :=
  ProcessMarkers.successful r + ProcessMarkers.quarantined r
  = ProcessMarkers.total_files r
  /\ List.length (ProcessMarkers.report_data r) = ProcessMarkers.total_files r
  /\ List.length (filter is_success (ProcessMarkers.report_data r))
     = ProcessMarkers.successful r
  /\ List.length (ProcessMarkers.output_dir r) = ProcessMarkers.successful r
  /\ List.length (ProcessMarkers.quarantine r) = ProcessMarkers.quarantined r.

(** A writer of the output files that never fails. *)
Definition writes_all (file_name : str) (normalized : dict) : result unit :=
  Ok tt.

(** A quarantine whose writes never fail, and one where the copy of the
    file [y.yaml] cannot be made. *)
Definition copies_all (file_name : str) : result unit := Ok tt.

Definition copies_all_but_y (file_name : str) : result unit :=
  if str_eqb file_name (lit "y.yaml") then Raise OSError else Ok tt.

(** An exception leaves the body of the loop of [process_markers] at a
    file: it leaves the parser, or it leaves the writes to the
    quarantine, which are made unless the marker was normalized and
    written. *)
Definition leaves_loop (rt : runtime) (safe_load : str -> yaml_result)
  (write_marker : str -> dict -> result unit)
  (to_quarantine : str -> result unit)
  (yaml_file : str * file_read) (e : exn) : Prop :=
  let o := parse_with_recovery safe_load (snd yaml_file) in
  raised o = Some e
  \/ (raised o = None
      /\ to_quarantine (fst yaml_file) = Raise e
      /\ ~ exists d m,
             parsed o = Some (VDict d)
             /\ normalize_marker rt d (fst yaml_file) = Ok m
             /\ write_marker (fst yaml_file) m = Ok tt).


(** *** The category of a marker *)

(** The name starts with one of the three entity prefixes. *)
Definition entity_prefix (name : str) : bool :=
  startswith (lit "A_LOC") name || startswith (lit "A_PER") name
  || startswith (lit "A_ORG") name.

(** The description as [detect_category] reads it. *)
Definition description_of (rt : runtime) (marker_data : dict) : str :=
  py_str rt (dict_get_default marker_data (lit "beschreibung") (VStr [])).

(** A source structure whose description names a keyword in capitals. *)
Definition described_in_capitals : dict :=
  [ (lit "marker_name", VStr (lit "MM_STYLE"));
    (lit "beschreibung", VStr (lit "An ATTACHMENT style, with Emotion")) ].

(** *** The status of a qualification *)

(** A value that has a length. *)
Definition sized (v : pyval) : bool :=
  match v with
  | VStr _ | VList _ | VDict _ => true
  | _ => false
  end.

(** What makes [calculate_quality_score] raise on a marker that the
    validator accepts: a metadata field that is [None], or a value in the
    frame that has no length. *)
Definition scoring_fails (marker : dict) : bool :=
  match dict_get marker (lit "metadata") with
  | Some VNone => true
  | _ => false
  end
  ||
  match dict_get marker (lit "frame") with
  | Some (VDict f) =>
      negb (forallb (fun k => sized (dict_get_default f k (VStr [])))
              (dict_keys f))
  | _ => false
  end.

(** The status [qualify_marker] gives, said from the value alone. *)
Definition specified_status (marker : pyval) : status :=
  if negb (truthy marker) then FAILED
  else
    match marker with
    | VDict m =>
        match specified_verdict m with
        | Ok true => if scoring_fails m then ERROR else QUALIFIED
        | Ok false => FAILED
        | Raise _ => ERROR
        end
    | _ => ERROR
    end.

(** A valid marker whose frame has a fifth key with a number as its
    value. *)
Definition marker_with_numbered_frame : dict :=
  dict_set scenario_a_normalized (lit "frame")
    (VDict (frame_templates ENTITY ++ [(lit "priority", VInt 3)])).

(** *** Markers with a blank identifier *)

(** The marker of scenario A with a blank identifier and a text in the
    place of its frame; with a blank identifier and one example; with a
    blank identifier and a tag that is a list. *)
Definition blank_id_text_frame : dict :=
  dict_set blank_id_marker (lit "frame") (VStr (lit "none")).

Definition blank_id_one_example : dict :=
  dict_set blank_id_marker (lit "examples") (VList [VStr (lit "im Cafe")]).

Definition blank_id_list_tag : dict :=
  dict_set marker_with_list_tag (lit "_id") (VStr (lit "  ")).

(* ================================================================== *)
(** ** Facts about strings *)
(* ================================================================== *)

Section StringFacts.

Lemma isspace_NL : isspace NL = true.
Proof. reflexivity. Qed.

Lemma isspace_SPACE : isspace SPACE = true.
Proof. reflexivity. Qed.

Lemma space_neq (c d : ascii) :
  isspace d = false -> isspace c = true -> Ascii.eqb c d = false.
Proof.
  intros Hd Hc. destruct (Ascii.eqb_spec c d) as [->|]; congruence.
Qed.

Lemma str_eqb_refl (a : str) : str_eqb a a = true.
Proof.
  induction a as [|x a IH]; simpl; [reflexivity|].
  now rewrite Ascii.eqb_refl.
Qed.

Lemma str_eqb_eq (a b : str) : str_eqb a b = true <-> a = b.
Proof.
  split.
  - revert b. induction a as [|x a IH]; destruct b as [|y b]; simpl;
      try discriminate; auto.
    intros H. apply andb_true_iff in H as [Hx Hab].
    apply Ascii.eqb_eq in Hx. subst. f_equal. auto.
  - intros ->. apply str_eqb_refl.
Qed.

Lemma str_eqb_neq (a b : str) : str_eqb a b = false <-> a <> b.
Proof.
  split.
  - intros H E. apply str_eqb_eq in E. congruence.
  - intros H. destruct (str_eqb a b) eqn:E; [|reflexivity].
    apply str_eqb_eq in E. contradiction.
Qed.

Lemma lstrip_app_space (w s : str) :
  all_space w -> lstrip (w ++ s) = lstrip s.
Proof.
  unfold all_space. induction w as [|c w IH]; simpl; [reflexivity|].
  intros H. apply andb_true_iff in H as [Hc Hw]. now rewrite Hc, IH.
Qed.

Lemma lstrip_nonspace (c : ascii) (s : str) :
  isspace c = false -> lstrip (c :: s) = c :: s.
Proof. intros H. simpl. now rewrite H. Qed.

(** A string is white space only, or has a first character that is not. *)
Lemma lstrip_view (l : str) :
  (all_space l /\ lstrip l = []) \/
  (exists w c l', l = w ++ c :: l' /\ all_space w /\ isspace c = false
                  /\ lstrip l = c :: l').
Proof.
  unfold all_space. induction l as [|a l IH]; simpl.
  - left. split; reflexivity.
  - destruct (isspace a) eqn:Ha.
    + destruct IH as [[Hs Hl]|(w & c & l' & -> & Hw & Hc & Hl)].
      * left. split; assumption.
      * right. exists (a :: w), c, l'. simpl. rewrite Ha, Hw. auto.
    + right. exists [], a, l. simpl. auto.
Qed.

Lemma lstrip_suffix (l : str) : exists w, l = w ++ lstrip l /\ all_space w.
Proof.
  destruct (lstrip_view l) as [[Hs Hl]|(w & c & l' & -> & Hw & Hc & Hl)].
  - exists l. rewrite Hl, app_nil_r. auto.
  - exists w. rewrite Hl. auto.
Qed.

Lemma rstrip_prefix (l : str) : exists w, l = rstrip l ++ w.
Proof.
  unfold rstrip. destruct (lstrip_suffix (rev l)) as (w & E & _).
  exists (rev w). rewrite <- rev_app_distr, <- E. now rewrite rev_involutive.
Qed.

Lemma rstrip_snoc_nonspace (a : str) (c : ascii) :
  isspace c = false -> rstrip (a ++ [c]) = a ++ [c].
Proof.
  intros H. unfold rstrip. rewrite rev_app_distr. simpl. rewrite H.
  simpl. now rewrite rev_involutive.
Qed.

Lemma no_nl_app (a b : str) : no_nl (a ++ b) <-> no_nl a /\ no_nl b.
Proof. unfold no_nl. rewrite forallb_app. apply andb_true_iff. Qed.

Lemma no_nl_cons (c : ascii) (a : str) :
  no_nl (c :: a) <-> Ascii.eqb c NL = false /\ no_nl a.
Proof.
  unfold no_nl. simpl. rewrite andb_true_iff, negb_true_iff. tauto.
Qed.

(** [span_line] cuts at the first line break. *)
Lemma span_line_app (l t : str) :
  no_nl l -> span_line (l ++ NL :: t) = (l, NL :: t).
Proof.
  induction l as [|c l IH]; intros H.
  - reflexivity.
  - apply no_nl_cons in H as [Hc Hl]. simpl. rewrite Hc, (IH Hl). reflexivity.
Qed.

Lemma span_line_no_nl (l : str) : no_nl l -> span_line l = (l, []).
Proof.
  induction l as [|c l IH]; intros H.
  - reflexivity.
  - apply no_nl_cons in H as [Hc Hl]. simpl. rewrite Hc, (IH Hl). reflexivity.
Qed.

Lemma span_line_spec (s l r : str) :
  span_line s = (l, r) ->
  s = l ++ r /\ no_nl l /\ (r = [] \/ exists t, r = NL :: t).
Proof.
  revert l r. induction s as [|c s IH]; simpl; intros l r H.
  - inversion H; subst. repeat split. now left.
  - destruct (Ascii.eqb_spec c NL) as [->|Hc].
    + inversion H; subst. repeat split. right. now exists s.
    + destruct (span_line s) as [l0 r0]. inversion H; subst.
      destruct (IH l0 r eq_refl) as (E & Hl & Hr).
      split; [simpl; now f_equal|]. split; [|assumption].
      apply no_nl_cons. split; [|assumption].
      now apply Ascii.eqb_neq.
Qed.

Lemma span_line_line_end (l r : str) :
  no_nl l -> line_end r -> span_line (l ++ r) = (l, r).
Proof.
  intros Hl [->|[t ->]].
  - rewrite app_nil_r. now apply span_line_no_nl.
  - now apply span_line_app.
Qed.

Lemma split_nonempty (sep : ascii) (s : str) : split sep s <> [].
Proof.
  induction s as [|c s IH]; simpl; [discriminate|].
  destruct (Ascii.eqb c sep); [discriminate|].
  destruct (split sep s); [contradiction|discriminate].
Qed.

Lemma split_no_nl (l : str) : no_nl l -> split NL l = [l].
Proof.
  induction l as [|c l IH]; intros H; [reflexivity|].
  apply no_nl_cons in H as [Hc Hl]. simpl. now rewrite Hc, (IH Hl).
Qed.

Lemma split_app_nl (a b : str) :
  split NL (a ++ NL :: b) = split NL a ++ split NL b.
Proof.
  induction a as [|c a IH]; simpl.
  - reflexivity.
  - destruct (Ascii.eqb c NL).
    + simpl. now rewrite IH.
    + rewrite IH. pose proof (split_nonempty NL a) as Hne.
      destruct (split NL a); [contradiction|reflexivity].
Qed.

Lemma split_lines_no_nl (s : str) : Forall no_nl (split NL s).
Proof.
  induction s as [|c s IH]; simpl.
  - constructor; [reflexivity|constructor].
  - destruct (Ascii.eqb c NL) eqn:Hc.
    + constructor; [reflexivity|assumption].
    + pose proof (split_nonempty NL s) as Hne.
      destruct (split NL s) as [|l ls]; [contradiction|].
      inversion IH; subst. constructor; [|assumption].
      apply no_nl_cons. auto.
Qed.

Lemma join_cons (l : str) (ls : list str) :
  ls <> [] -> join [NL] (l :: ls) = l ++ NL :: join [NL] ls.
Proof. destruct ls; [contradiction|reflexivity]. Qed.

Lemma join_split (s : str) : join [NL] (split NL s) = s.
Proof.
  induction s as [|c s IH]; simpl; [reflexivity|].
  pose proof (split_nonempty NL s) as Hne.
  destruct (Ascii.eqb_spec c NL) as [->|Hc].
  - rewrite join_cons by assumption. simpl. now rewrite IH.
  - destruct (split NL s) as [|l ls]; [contradiction|].
    destruct ls as [|l' ls].
    + simpl in *. now subst.
    + rewrite join_cons by discriminate.
      rewrite join_cons in IH by discriminate. rewrite <- IH. reflexivity.
Qed.

Lemma split_join (ls : list str) :
  ls <> [] -> Forall no_nl ls -> split NL (join [NL] ls) = ls.
Proof.
  induction ls as [|l ls IH]; intros Hne H; [contradiction|].
  inversion H; subst. destruct ls as [|l' ls].
  - simpl. now apply split_no_nl.
  - rewrite join_cons by discriminate. rewrite split_app_nl.
    rewrite split_no_nl by assumption. simpl. f_equal.
    apply IH; [discriminate|assumption].
Qed.

End StringFacts.

(* ================================================================== *)
(** ** The substitution of quoted list items *)
(* ================================================================== *)

Section SubItems.

Lemma quoted_tail_Some (l x : str) :
  quoted_tail l = Some x <-> l = x ++ [DQUOTE] /\ x <> [].
Proof.
  unfold quoted_tail. split.
  - destruct (rev l) as [|q x'] eqn:E; [discriminate|].
    destruct (Ascii.eqb_spec q DQUOTE) as [->|]; [|discriminate].
    destruct x' as [|y x']; [discriminate|]. simpl.
    intros H. inversion H; subst. clear H.
    apply (f_equal (@rev ascii)) in E. rewrite rev_involutive in E.
    simpl in E. split; [assumption|].
    intros Hx. apply (f_equal (@List.length ascii)) in Hx.
    rewrite length_app in Hx. simpl in Hx. lia.
  - intros [-> Hx]. rewrite rev_app_distr. simpl.
    try rewrite Ascii.eqb_refl. rewrite rev_involutive.
    destruct (rev x) as [|y x'] eqn:E; [|reflexivity].
    apply (f_equal (@rev ascii)) in E. rewrite rev_involutive in E.
    contradiction.
Qed.

Lemma match_quote_space (w t : str) :
  all_space w -> match_quote (w ++ t) = match_quote t.
Proof. intros H. unfold match_quote. now rewrite lstrip_app_space. Qed.

Lemma match_item_space (w s : str) :
  all_space w -> match_item (w ++ s) = match_item s.
Proof. intros H. unfold match_item. now rewrite lstrip_app_space. Qed.

Lemma match_quote_intro (w x r : str) :
  all_space w -> x <> [] -> no_nl x -> line_end r ->
  match_quote (w ++ DQUOTE :: x ++ DQUOTE :: r) = Some (x, r).
Proof.
  intros Hw Hx Hnl Hr. rewrite match_quote_space by assumption.
  unfold match_quote. rewrite lstrip_nonspace by reflexivity.
  rewrite Ascii.eqb_refl.
  replace (x ++ DQUOTE :: r) with ((x ++ [DQUOTE]) ++ r)
    by (rewrite <- app_assoc; reflexivity).
  rewrite span_line_line_end; [|apply no_nl_app; split; [assumption|reflexivity]|assumption].
  assert (E : quoted_tail (x ++ [DQUOTE]) = Some x)
    by (apply quoted_tail_Some; auto).
  now rewrite E.
Qed.

Lemma match_item_intro (w1 w2 x r : str) :
  all_space w1 -> all_space w2 -> x <> [] -> no_nl x -> line_end r ->
  match_item (w1 ++ DASH :: w2 ++ DQUOTE :: x ++ DQUOTE :: r) = Some (x, r).
Proof.
  intros H1 H2 Hx Hnl Hr. rewrite match_item_space by assumption.
  unfold match_item. rewrite lstrip_nonspace by reflexivity.
  rewrite Ascii.eqb_refl. now apply match_quote_intro.
Qed.

Lemma match_quote_Some (t x r : str) :
  match_quote t = Some (x, r) ->
  exists w, t = w ++ DQUOTE :: x ++ DQUOTE :: r
            /\ all_space w /\ x <> [] /\ no_nl x /\ line_end r.
Proof.
  unfold match_quote. intros H.
  destruct (lstrip_suffix t) as (w & E & Hw).
  destruct (lstrip t) as [|q u]; [discriminate|].
  destruct (Ascii.eqb_spec q DQUOTE) as [->|]; [|discriminate].
  destruct (span_line u) as [l rest] eqn:Hs.
  destruct (quoted_tail l) as [x0|] eqn:Hq; [|discriminate].
  inversion H; subst x0 rest. clear H.
  apply span_line_spec in Hs as (Eu & Hl & Hr).
  apply quoted_tail_Some in Hq as [-> Hx].
  exists w. repeat split; try assumption.
  - rewrite E, Eu, <- app_assoc. reflexivity.
  - apply no_nl_app in Hl. tauto.
Qed.

Lemma match_item_Some (s x r : str) :
  match_item s = Some (x, r) ->
  exists w1 w2, s = w1 ++ DASH :: w2 ++ DQUOTE :: x ++ DQUOTE :: r
                /\ all_space w1 /\ all_space w2
                /\ x <> [] /\ no_nl x /\ line_end r.
Proof.
  unfold match_item. intros H.
  destruct (lstrip_suffix s) as (w1 & E & Hw1).
  destruct (lstrip s) as [|d t]; [discriminate|].
  destruct (Ascii.eqb_spec d DASH) as [->|]; [|discriminate].
  apply match_quote_Some in H as (w2 & -> & Hw2 & Hx & Hnl & Hr).
  exists w1, w2. repeat split; assumption.
Qed.

(** [match_item] finds the match of the pattern at a line start, and
    there is no other: which of several ways to match the engine would
    prefer does not matter. *)
Lemma match_item_iff (s x r : str) :
  match_item s = Some (x, r) <-> pattern_matches s x r.
Proof.
  split; [apply match_item_Some|].
  intros (w1 & w2 & -> & H1 & H2 & Hx & Hnl & Hr).
  now apply match_item_intro.
Qed.

Lemma match_item_rest_length (s x r : str) :
  match_item s = Some (x, r) -> List.length r < List.length s.
Proof.
  intros H. apply match_item_Some in H as (w1 & w2 & -> & _).
  repeat (rewrite length_app; simpl). lia.
Qed.

Lemma span_line_rest_length (s l r : str) :
  span_line s = (l, r) -> List.length r <= List.length s.
Proof.
  intros H. apply span_line_spec in H as (-> & _).
  rewrite length_app. lia.
Qed.

(** Fuel beyond the length of the text changes nothing. *)
Lemma sub_items_fuel (n m : nat) (s : str) :
  List.length s < n -> List.length s < m -> sub_items n s = sub_items m s.
Proof.
  revert m s. induction n as [|n IH]; intros m s Hn Hm; [lia|].
  destruct m as [|m]; [lia|]. cbn [sub_items].
  destruct (match_item s) as [[x rest]|] eqn:Hmi.
  - apply match_item_rest_length in Hmi.
    destruct rest as [|c t]; [reflexivity|]. simpl in Hmi.
    rewrite (IH m t) by lia. reflexivity.
  - destruct (span_line s) as [l rest] eqn:Hs.
    apply span_line_rest_length in Hs.
    destruct rest as [|c t]; [reflexivity|]. simpl in Hs.
    rewrite (IH m t) by lia. reflexivity.
Qed.

(** The substitution, one line start at a time. *)
Lemma re_sub_items_unfold (s : str) :
  re_sub_items s =
  match match_item s with
  | Some (x, rest) => item_template x ++ resume rest
  | None => let (l, rest) := span_line s in l ++ resume rest
  end.
Proof.
  unfold re_sub_items at 1. cbn [sub_items].
  destruct (match_item s) as [[x rest]|] eqn:Hmi.
  - apply match_item_rest_length in Hmi.
    destruct rest as [|c t]; [reflexivity|]. simpl in Hmi.
    unfold resume, re_sub_items.
    rewrite (sub_items_fuel (List.length s) (S (List.length t)) t) by lia.
    reflexivity.
  - destruct (span_line s) as [l rest] eqn:Hs.
    apply span_line_rest_length in Hs.
    destruct rest as [|c t]; [reflexivity|]. simpl in Hs.
    unfold resume, re_sub_items.
    rewrite (sub_items_fuel (List.length s) (S (List.length t)) t) by lia.
    reflexivity.
Qed.

Lemma resume_line_end (r : str) : line_end r -> line_end (resume r).
Proof.
  intros [->|[t ->]]; [now left|]. right. simpl. eauto.
Qed.

Lemma re_sub_items_match (s x r : str) :
  match_item s = Some (x, r) ->
  re_sub_items s = item_template x ++ resume r.
Proof. intros H. rewrite re_sub_items_unfold, H. reflexivity. Qed.

Lemma re_sub_items_no_match (s : str) :
  match_item s = None ->
  exists l r, s = l ++ r /\ no_nl l /\ line_end r
              /\ re_sub_items s = l ++ resume r.
Proof.
  intros H. rewrite re_sub_items_unfold, H.
  destruct (span_line s) as [l r] eqn:Hs.
  apply span_line_spec in Hs as (E & Hl & Hr).
  exists l, r. auto.
Qed.

(** Looking ahead from inside a line: what the pattern finds beyond the
    end of the line is all that the text after the line matters for. *)
Lemma lookahead_quote (l r r' : str) :
  no_nl l -> line_end r ->
  (r = [] -> r' = []) ->
  (forall t, r = NL :: t ->
     exists t', r' = NL :: t'
                /\ (match_quote t = None -> match_quote t' = None)) ->
  match_quote (l ++ r) = None -> match_quote (l ++ r') = None.
Proof.
  intros Hl Hr Hnil Hcons.
  assert (Hr' : line_end r').
  { destruct Hr as [->|[t ->]]; [left; auto|].
    destruct (Hcons t eq_refl) as (t' & -> & _). right. eauto. }
  destruct (lstrip_view l) as [[Hs _]|(w & c & l' & -> & Hw & Hc & _)].
  - rewrite (match_quote_space l r), (match_quote_space l r') by assumption.
    destruct Hr as [->|[t ->]].
    + now rewrite (Hnil eq_refl).
    + destruct (Hcons t eq_refl) as (t' & -> & Ht).
      change (match_quote (NL :: t')) with (match_quote t').
      exact Ht.
  - rewrite <- !app_assoc. simpl.
    rewrite (match_quote_space w (c :: l' ++ r)),
            (match_quote_space w (c :: l' ++ r')) by assumption.
    unfold match_quote.
    rewrite (lstrip_nonspace c (l' ++ r)), (lstrip_nonspace c (l' ++ r'))
      by assumption.
    destruct (Ascii.eqb c DQUOTE); [|reflexivity].
    apply no_nl_app in Hl as [_ Hl]. apply no_nl_cons in Hl as [_ Hl].
    rewrite (span_line_line_end l' r), (span_line_line_end l' r')
      by assumption.
    destruct (quoted_tail l'); [discriminate|reflexivity].
Qed.

Lemma lookahead_item (l r r' : str) :
  no_nl l -> line_end r ->
  (r = [] -> r' = []) ->
  (forall t, r = NL :: t ->
     exists t', r' = NL :: t'
                /\ (match_item t = None -> match_item t' = None)
                /\ (match_quote t = None -> match_quote t' = None)) ->
  match_item (l ++ r) = None -> match_item (l ++ r') = None.
Proof.
  intros Hl Hr Hnil Hcons.
  destruct (lstrip_view l) as [[Hs _]|(w & c & l' & -> & Hw & Hc & _)].
  - rewrite (match_item_space l r), (match_item_space l r') by assumption.
    destruct Hr as [->|[t ->]].
    + now rewrite (Hnil eq_refl).
    + destruct (Hcons t eq_refl) as (t' & -> & Ht & _).
      change (match_item (NL :: t')) with (match_item t').
      exact Ht.
  - rewrite <- !app_assoc. simpl.
    rewrite (match_item_space w (c :: l' ++ r)),
            (match_item_space w (c :: l' ++ r')) by assumption.
    unfold match_item.
    rewrite (lstrip_nonspace c (l' ++ r)), (lstrip_nonspace c (l' ++ r'))
      by assumption.
    destruct (Ascii.eqb c DASH); [|reflexivity].
    apply no_nl_app in Hl as [_ Hl]. apply no_nl_cons in Hl as [_ Hl].
    apply lookahead_quote; try assumption.
    intros t Ht. destruct (Hcons t Ht) as (t' & E & _ & Hq). eauto.
Qed.

Lemma item_template_shape (x r : str) :
  item_template x ++ r
  = [SPACE; SPACE] ++ DASH :: [SPACE] ++ DQUOTE :: x ++ DQUOTE :: r.
Proof.
  unfold item_template. simpl. rewrite <- app_assoc. reflexivity.
Qed.

Lemma match_quote_template (x r : str) :
  match_quote (item_template x ++ r) = None.
Proof. reflexivity. Qed.

(** Where the pattern finds no quote, it finds none after the
    substitution either. *)
Lemma match_quote_re_sub_items (t : str) :
  match_quote t = None -> match_quote (re_sub_items t) = None.
Proof.
  remember (List.length t) as n eqn:Hn. revert t Hn.
  induction n as [n IH] using lt_wf_ind. intros t Hn H.
  destruct (match_item t) as [[x r]|] eqn:Hm.
  - rewrite (re_sub_items_match _ _ _ Hm). apply match_quote_template.
  - destruct (re_sub_items_no_match _ Hm) as (l & r & E & Hl & Hr & ->).
    subst t. apply (lookahead_quote l r); try assumption.
    + now intros ->.
    + intros t ->. exists (re_sub_items t). split; [reflexivity|].
      apply (IH (List.length t)); [|reflexivity].
      subst n. rewrite length_app. simpl. lia.
Qed.

Lemma match_item_re_sub_items (s : str) :
  match_item s = None -> match_item (re_sub_items s) = None.
Proof.
  remember (List.length s) as n eqn:Hn. revert s Hn.
  induction n as [n IH] using lt_wf_ind. intros s Hn H.
  destruct (re_sub_items_no_match _ H) as (l & r & E & Hl & Hr & ->).
  subst s. apply (lookahead_item l r); try assumption.
  - now intros ->.
  - intros t ->. exists (re_sub_items t). split; [reflexivity|]. split.
    + apply (IH (List.length t)); [|reflexivity].
      subst n. rewrite length_app. simpl. lia.
    + apply match_quote_re_sub_items.
Qed.

Lemma resume_resume (r : str) :
  line_end r ->
  (forall t, r = NL :: t -> re_sub_items (re_sub_items t) = re_sub_items t) ->
  resume (resume r) = resume r.
Proof.
  intros [->|[t ->]] H; [reflexivity|]. simpl. now rewrite (H t eq_refl).
Qed.

(** The substitution leaves its own result alone. *)
Lemma re_sub_items_idempotent (s : str) :
  re_sub_items (re_sub_items s) = re_sub_items s.
Proof.
  remember (List.length s) as n eqn:Hn. revert s Hn.
  induction n as [n IH] using lt_wf_ind. intros s Hn.
  destruct (match_item s) as [[x r]|] eqn:Hm.
  - rewrite (re_sub_items_match _ _ _ Hm).
    destruct (match_item_Some _ _ _ Hm) as (w1 & w2 & E & _ & _ & Hx & Hnl & Hr).
    assert (Hm' : match_item (item_template x ++ resume r)
                  = Some (x, resume r)).
    { rewrite item_template_shape.
      apply match_item_intro; try assumption; try reflexivity.
      now apply resume_line_end. }
    rewrite (re_sub_items_match _ _ _ Hm'). f_equal.
    apply resume_resume; [assumption|].
    intros t ->. apply (IH (List.length t)); [|reflexivity].
    subst n s. repeat (rewrite length_app; simpl). lia.
  - pose proof (match_item_re_sub_items _ Hm) as Hm'.
    destruct (re_sub_items_no_match _ Hm) as (l & r & E & Hl & Hr & Eo).
    rewrite Eo in *. rewrite re_sub_items_unfold, Hm'.
    rewrite span_line_line_end by (auto using resume_line_end).
    f_equal. apply resume_resume; [assumption|].
    intros t ->. apply (IH (List.length t)); [|reflexivity].
    subst n s. rewrite length_app. simpl. lia.
Qed.

End SubItems.

(* ================================================================== *)
(** ** Properties of a text that hold line by line *)
(* ================================================================== *)

Section LineWise.

Variable P : str -> Prop.
Hypothesis P_nl : forall a b, P (a ++ NL :: b) <-> P a /\ P b.

Lemma linewise_join (ls : list str) :
  ls <> [] -> (P (join [NL] ls) <-> Forall P ls).
Proof.
  induction ls as [|l ls IH]; intros Hne; [contradiction|].
  destruct ls as [|l' ls].
  - simpl. split; intros H.
    + constructor; [assumption|constructor].
    + now inversion H.
  - rewrite join_cons by discriminate. rewrite P_nl.
    rewrite IH by discriminate. split.
    + intros [H1 H2]. now constructor.
    + intros H. inversion H; subst. auto.
Qed.

Lemma linewise_split (s : str) : P s <-> Forall P (split NL s).
Proof.
  rewrite <- (join_split s) at 1. apply linewise_join, split_nonempty.
Qed.

(** A change made line by line keeps what each line keeps. *)
Lemma linewise_map (f : str -> str) (s : str) :
  (forall l, P l -> P (f l)) ->
  P s -> P (join [NL] (map f (split NL s))).
Proof.
  intros Hf Hs. apply linewise_join.
  - pose proof (split_nonempty NL s). destruct (split NL s);
      [contradiction|discriminate].
  - apply linewise_split in Hs. apply Forall_map.
    eapply Forall_impl; [|exact Hs]. auto.
Qed.

Hypothesis P_item :
  forall w1 w2 x,
    all_space w1 -> all_space w2 -> x <> [] -> no_nl x ->
    P (w1 ++ DASH :: w2 ++ DQUOTE :: x ++ [DQUOTE]) -> P (item_template x).

Lemma resume_keeps (r : str) :
  line_end r ->
  (forall t, r = NL :: t -> P t -> P (re_sub_items t)) ->
  forall a a', (P a -> P a') -> P (a ++ r) -> P (a' ++ resume r).
Proof.
  intros [->|[t ->]] Ht a a' Ha.
  - simpl. now rewrite !app_nil_r.
  - simpl. rewrite !P_nl. intros [H1 H2]. split; [auto|].
    now apply Ht.
Qed.

(** The substitution keeps what the lines and the template keep. *)
Lemma re_sub_items_keeps (s : str) : P s -> P (re_sub_items s).
Proof.
  remember (List.length s) as n eqn:Hn. revert s Hn.
  induction n as [n IH] using lt_wf_ind. intros s Hn Hs.
  destruct (match_item s) as [[x r]|] eqn:Hm.
  - rewrite (re_sub_items_match _ _ _ Hm).
    destruct (match_item_Some _ _ _ Hm)
      as (w1 & w2 & E & H1 & H2 & Hx & Hnl & Hr).
    apply (resume_keeps r Hr) with
      (a := w1 ++ DASH :: w2 ++ DQUOTE :: x ++ [DQUOTE]).
    + intros t -> Ht. apply (IH (List.length t)); [|reflexivity|assumption].
      subst n s. repeat (rewrite length_app; simpl). lia.
    + now apply P_item.
    + rewrite E in Hs. repeat (rewrite <- app_assoc; simpl). exact Hs.
  - destruct (re_sub_items_no_match _ Hm) as (l & r & E & Hl & Hr & ->).
    apply (resume_keeps r Hr) with (a := l).
    + intros t -> Ht. apply (IH (List.length t)); [|reflexivity|assumption].
      subst n s. rewrite length_app. simpl. lia.
    + auto.
    + now rewrite <- E.
Qed.

End LineWise.

(* ================================================================== *)
(** ** The steps of [repair_yaml_content] *)
(* ================================================================== *)

Section RepairSteps.

Local Arguments Ascii.eqb : simpl never.

Lemma dashes_ok_app_sep (k : nat) (a : str) (c : ascii) (b : str) :
  Ascii.eqb c DASH = false ->
  dashes_ok k (a ++ c :: b) = dashes_ok k a && dashes_ok 0 b.
Proof.
  intros Hc. revert k. induction a as [|x a IH]; intros k; simpl.
  - now rewrite Hc.
  - destruct (Ascii.eqb x DASH); [|apply IH].
    rewrite IH. now rewrite andb_assoc.
Qed.

Lemma dashes_ok_mono (k k' : nat) (s : str) :
  k' <= k -> dashes_ok k s = true -> dashes_ok k' s = true.
Proof.
  revert k k'. induction s as [|c s IH]; intros k k' Hk; simpl; [auto|].
  destruct (Ascii.eqb c DASH); [|auto].
  rewrite !andb_true_iff, !Nat.ltb_lt. intros [H1 H2]. split; [lia|].
  apply (IH (S k)); [lia|assumption].
Qed.

Lemma dashes_ok_prefix (k : nat) (a b : str) :
  dashes_ok k (a ++ b) = true -> dashes_ok k a = true.
Proof.
  revert k. induction a as [|c a IH]; intros k; simpl; [auto|].
  destruct (Ascii.eqb c DASH); [|apply IH].
  rewrite !andb_true_iff. intros [H1 H2]. split; [assumption|].
  now apply IH.
Qed.

Lemma dashes_ok_lead (k : nat) (s : str) :
  dashes_ok 0 s = true -> k + leading_dashes s <= 2 ->
  dashes_ok k s = true.
Proof.
  revert k. induction s as [|c s IH]; intros k; simpl; [auto|].
  destruct (Ascii.eqb c DASH); [|auto].
  intros H Hk. simpl in H. apply andb_true_iff. split.
  - apply Nat.ltb_lt. lia.
  - apply IH; [|lia]. apply (dashes_ok_mono 1); [lia|assumption].
Qed.

Lemma no_separator_nl (a b : str) :
  no_separator (a ++ NL :: b) <-> no_separator a /\ no_separator b.
Proof.
  unfold no_separator. rewrite dashes_ok_app_sep by reflexivity.
  apply andb_true_iff.
Qed.

Lemma no_tab_app (a b : str) : no_tab (a ++ b) <-> no_tab a /\ no_tab b.
Proof. unfold no_tab. rewrite forallb_app. apply andb_true_iff. Qed.

Lemma no_tab_nl (a b : str) :
  no_tab (a ++ NL :: b) <-> no_tab a /\ no_tab b.
Proof.
  rewrite no_tab_app. unfold no_tab at 2. simpl. tauto.
Qed.

Lemma lines_repaired_nl (a b : str) :
  lines_repaired (a ++ NL :: b) <-> lines_repaired a /\ lines_repaired b.
Proof. unfold lines_repaired. rewrite split_app_nl. apply Forall_app. Qed.

(** *** Step 1: the document separators *)

Lemma remove_separators_triple (t : str) :
  remove_separators (DASH :: DASH :: DASH :: t) = remove_separators t.
Proof. reflexivity. Qed.

Lemma remove_separators_other (c : ascii) (t : str) :
  startswith (lit "---") (c :: t) = false ->
  remove_separators (c :: t) = c :: remove_separators t.
Proof.
  intros H. unfold remove_separators, replace.
  cbn [replace_from]. now rewrite H.
Qed.

Lemma triple_view (s : str) :
  (exists t, s = DASH :: DASH :: DASH :: t)
  \/ startswith (lit "---") s = false.
Proof.
  destruct s as [|a [|b [|c t]]]; simpl; auto.
  - right. now rewrite andb_false_r.
  - right. now rewrite !andb_false_r.
  - destruct (Ascii.eqb_spec "-" a) as [<-|]; [|now right].
    destruct (Ascii.eqb_spec "-" b) as [<-|]; [|now right].
    destruct (Ascii.eqb_spec "-" c) as [<-|]; [|now right].
    left. now exists t.
Qed.

Lemma startswith_triple_lead (s : str) :
  startswith (lit "---") s = false -> leading_dashes s <= 2.
Proof.
  destruct s as [|a [|b [|c t]]]; simpl.
  - lia.
  - destruct (Ascii.eqb a DASH); lia.
  - destruct (Ascii.eqb a DASH), (Ascii.eqb b DASH); lia.
  - rewrite (Ascii.eqb_sym "-" a), (Ascii.eqb_sym "-" b),
      (Ascii.eqb_sym "-" c).
    change "-"%char with DASH.
    destruct (Ascii.eqb a DASH), (Ascii.eqb b DASH), (Ascii.eqb c DASH);
      simpl; try discriminate; lia.
Qed.

Lemma remove_separators_spec (s : str) :
  no_separator (remove_separators s)
  /\ (leading_dashes s <= 2 ->
      leading_dashes (remove_separators s) = leading_dashes s).
Proof.
  remember (List.length s) as n eqn:Hn. revert s Hn.
  induction n as [n IH] using lt_wf_ind. intros s Hn.
  destruct (triple_view s) as [[t ->]|Hs].
  - rewrite remove_separators_triple. split.
    + apply (IH (List.length t)); [subst n; simpl; lia|reflexivity].
    + simpl. lia.
  - destruct s as [|c t]; [split; reflexivity|].
    rewrite (remove_separators_other _ _ Hs).
    destruct (IH (List.length t)) with (s := t) as [Hok Hlead];
      [subst n; simpl; lia|reflexivity|].
    apply startswith_triple_lead in Hs. unfold no_separator in *.
    simpl in *. destruct (Ascii.eqb c DASH).
    + split.
      * simpl. apply dashes_ok_lead; [assumption|].
        rewrite Hlead; lia.
      * intros _. rewrite Hlead; lia.
    + split; [assumption|reflexivity].
Qed.

Lemma remove_separators_ok (s : str) : no_separator (remove_separators s).
Proof. apply remove_separators_spec. Qed.

Lemma dashes_ok_no_triple (k : nat) (s : str) :
  dashes_ok k s = true -> startswith (lit "---") s = false.
Proof.
  destruct (triple_view s) as [[t ->]|Hs]; [|auto].
  simpl. destruct k as [|[|k]]; simpl; discriminate.
Qed.

Lemma remove_separators_fixed (k : nat) (s : str) :
  dashes_ok k s = true -> remove_separators s = s.
Proof.
  revert k. induction s as [|c s IH]; intros k H; [reflexivity|].
  rewrite remove_separators_other by (eapply dashes_ok_no_triple; eauto).
  f_equal. simpl in H. destruct (Ascii.eqb c DASH).
  - apply andb_true_iff in H as [_ H]. eauto.
  - eauto.
Qed.

(** *** Step 2: the tabs *)

Lemma expand_tabs_cons (c : ascii) (t : str) :
  expand_tabs (c :: t)
  = (if Ascii.eqb c TAB then [SPACE; SPACE] else [c]) ++ expand_tabs t.
Proof.
  unfold expand_tabs, replace. cbn [replace_from startswith].
  rewrite (Ascii.eqb_sym TAB c), andb_true_r.
  destruct (Ascii.eqb c TAB); reflexivity.
Qed.

Lemma expand_tabs_no_tab (s : str) : no_tab (expand_tabs s).
Proof.
  induction s as [|c s IH]; [reflexivity|].
  rewrite expand_tabs_cons. apply no_tab_app. split; [|assumption].
  destruct (Ascii.eqb c TAB) eqn:E; [reflexivity|].
  unfold no_tab. simpl. now rewrite E.
Qed.

Lemma expand_tabs_fixed (s : str) : no_tab s -> expand_tabs s = s.
Proof.
  unfold no_tab. induction s as [|c s IH]; [reflexivity|]. simpl.
  intros H. apply andb_true_iff in H as [Hc Hs].
  apply negb_true_iff in Hc.
  rewrite expand_tabs_cons, Hc, IH by assumption. reflexivity.
Qed.

Lemma expand_tabs_dashes (k : nat) (s : str) :
  dashes_ok k (expand_tabs s) = dashes_ok k s.
Proof.
  revert k. induction s as [|c s IH]; intros k; [reflexivity|].
  rewrite expand_tabs_cons.
  destruct (Ascii.eqb_spec c TAB) as [->|Hc]; simpl.
  - apply IH.
  - destruct (Ascii.eqb c DASH); now rewrite IH.
Qed.

(** *** Step 3: the colon after a bare identifier *)

Lemma repair_line_cases (l : str) :
  repair_line l = l \/ repair_line l = rstrip l ++ [COLON].
Proof.
  unfold repair_line.
  destruct (negb (is_empty (strip l)) && negb (startswith (lit "-") (strip l))
            && negb (has_char COLON l)); [|now left].
  destruct (is_identifier (strip l)); [now right|now left].
Qed.

Lemma has_char_snoc (c : ascii) (a : str) : has_char c (a ++ [c]) = true.
Proof.
  unfold has_char. rewrite existsb_app. simpl.
  now rewrite Ascii.eqb_refl, orb_true_r.
Qed.

Lemma repair_line_idempotent (l : str) :
  repair_line (repair_line l) = repair_line l.
Proof.
  destruct (repair_line_cases l) as [E|E]; rewrite E; [assumption|].
  unfold repair_line at 1. rewrite has_char_snoc. simpl.
  now rewrite !andb_false_r.
Qed.

Lemma repair_line_no_nl (l : str) : no_nl l -> no_nl (repair_line l).
Proof.
  intros H. destruct (repair_line_cases l) as [E|E]; rewrite E; [assumption|].
  apply no_nl_app. split; [|reflexivity].
  destruct (rstrip_prefix l) as [w Hw]. rewrite Hw in H.
  apply no_nl_app in H. tauto.
Qed.

Lemma repair_line_no_separator (l : str) :
  no_separator l -> no_separator (repair_line l).
Proof.
  intros H. destruct (repair_line_cases l) as [E|E]; rewrite E; [assumption|].
  unfold no_separator in *. rewrite dashes_ok_app_sep by reflexivity.
  rewrite andb_true_r. destruct (rstrip_prefix l) as [w Hw].
  rewrite Hw in H. now apply dashes_ok_prefix in H.
Qed.

Lemma repair_line_no_tab (l : str) : no_tab l -> no_tab (repair_line l).
Proof.
  intros H. destruct (repair_line_cases l) as [E|E]; rewrite E; [assumption|].
  apply no_tab_app. split; [|reflexivity].
  destruct (rstrip_prefix l) as [w Hw]. rewrite Hw in H.
  apply no_tab_app in H. tauto.
Qed.

Lemma repair_lines_repaired (s : str) : lines_repaired (repair_lines s).
Proof.
  unfold lines_repaired, repair_lines. rewrite split_join.
  - apply Forall_map, Forall_forall. intros l _.
    apply repair_line_idempotent.
  - pose proof (split_nonempty NL s). destruct (split NL s);
      [contradiction|discriminate].
  - apply Forall_map. eapply Forall_impl; [|apply split_lines_no_nl].
    apply repair_line_no_nl.
Qed.

Lemma repair_lines_fixed (s : str) : lines_repaired s -> repair_lines s = s.
Proof.
  unfold lines_repaired, repair_lines. intros H.
  rewrite <- (join_split s) at 2. f_equal.
  induction (split NL s) as [|l ls IH]; [reflexivity|].
  inversion H; subst. simpl. f_equal; auto.
Qed.

(** *** Step 4: the template of a list item *)

Lemma item_template_snoc (x : str) :
  item_template x = (SPACE :: SPACE :: DASH :: SPACE :: DQUOTE :: x) ++ [DQUOTE].
Proof. reflexivity. Qed.

Lemma item_template_repaired (x : str) :
  no_nl x -> lines_repaired (item_template x).
Proof.
  intros Hx. unfold lines_repaired. rewrite split_no_nl.
  - constructor; [|constructor]. unfold repair_line, strip.
    rewrite item_template_snoc, rstrip_snoc_nonspace by reflexivity.
    reflexivity.
  - rewrite item_template_snoc. apply no_nl_app. split; [|reflexivity].
    repeat (apply no_nl_cons; split; [reflexivity|]). assumption.
Qed.

Lemma item_group_no_separator (a x : str) :
  no_separator (a ++ DQUOTE :: x ++ [DQUOTE]) ->
  no_separator (item_template x).
Proof.
  unfold no_separator. rewrite dashes_ok_app_sep by reflexivity.
  intros H. apply andb_true_iff in H as [_ H]. exact H.
Qed.

Lemma item_group_no_tab (a x : str) :
  no_tab (a ++ DQUOTE :: x ++ [DQUOTE]) -> no_tab (item_template x).
Proof.
  intros H. apply no_tab_app in H as [_ H]. exact H.
Qed.

Lemma matched_item_shape (w1 w2 x : str) :
  w1 ++ DASH :: w2 ++ DQUOTE :: x ++ [DQUOTE]
  = (w1 ++ DASH :: w2) ++ DQUOTE :: x ++ [DQUOTE].
Proof. rewrite <- app_assoc. reflexivity. Qed.

Lemma re_sub_items_no_separator (s : str) :
  no_separator s -> no_separator (re_sub_items s).
Proof.
  apply re_sub_items_keeps; [apply no_separator_nl|].
  intros w1 w2 x _ _ _ _. rewrite matched_item_shape.
  apply item_group_no_separator.
Qed.

Lemma re_sub_items_no_tab (s : str) : no_tab s -> no_tab (re_sub_items s).
Proof.
  apply re_sub_items_keeps; [apply no_tab_nl|].
  intros w1 w2 x _ _ _ _. rewrite matched_item_shape.
  apply item_group_no_tab.
Qed.

Lemma re_sub_items_repaired (s : str) :
  lines_repaired s -> lines_repaired (re_sub_items s).
Proof.
  apply re_sub_items_keeps; [apply lines_repaired_nl|].
  intros w1 w2 x _ _ _ Hx _. now apply item_template_repaired.
Qed.

Lemma repair_yaml_content_steps (content : str) :
  repair_yaml_content content
  = re_sub_items (repair_lines (expand_tabs (remove_separators content))).
Proof. reflexivity. Qed.

(** What every repaired text satisfies. *)
Lemma repair_yaml_content_invariants (content : str) :
  let r := repair_yaml_content content in
  no_separator r /\ no_tab r /\ lines_repaired r.
Proof.
  rewrite repair_yaml_content_steps. cbv zeta.
  set (c1 := remove_separators content).
  set (c2 := expand_tabs c1).
  assert (H1 : no_separator c2).
  { unfold c2, no_separator. rewrite expand_tabs_dashes.
    apply remove_separators_ok. }
  assert (H2 : no_tab c2) by apply expand_tabs_no_tab.
  repeat split.
  - apply re_sub_items_no_separator. unfold repair_lines.
    apply linewise_map; auto using no_separator_nl, repair_line_no_separator.
  - apply re_sub_items_no_tab. unfold repair_lines.
    apply linewise_map; auto using no_tab_nl, repair_line_no_tab.
  - apply re_sub_items_repaired, repair_lines_repaired.
Qed.

End RepairSteps.

(* ================================================================== *)
(** ** The repair of a document *)
(* ================================================================== *)

(** A document with a separator, a tab, a bare identifier and two quoted
    list items, the second after an empty line (which the pattern takes
    into the match). *)
Example repair_yaml_content_sample :
  repair_yaml_content
    (lit "---" ++ [NL] ++ lit "name" ++ [NL; TAB] ++ lit "key: v" ++ [NL]
     ++ lit "-   " ++ [DQUOTE] ++ lit "ab c" ++ [DQUOTE; NL; NL]
     ++ lit "-" ++ [DQUOTE] ++ lit "x" ++ [DQUOTE; NL] ++ lit "- bare")
  = [NL] ++ lit "name:" ++ [NL] ++ lit "  key: v" ++ [NL]
    ++ lit "  - " ++ [DQUOTE] ++ lit "ab c" ++ [DQUOTE; NL]
    ++ lit "  - " ++ [DQUOTE] ++ lit "x" ++ [DQUOTE; NL] ++ lit "- bare".
Proof. vm_compute. reflexivity. Qed.

(** The pattern needs the closing quote at the very end of the line: a
    list item with a blank after the quote is left alone. *)
Example re_sub_items_trailing_blank :
  let s := lit "-  " ++ [DQUOTE] ++ lit "x" ++ [DQUOTE] ++ lit " " in
  re_sub_items s = s.
Proof. vm_compute. reflexivity. Qed.

(** White space in the pattern spans line breaks: a dash on one line and
    the quoted text on the next are one match, and so are the empty
    lines before a list item. *)
Example re_sub_items_across_lines :
  re_sub_items
    (lit "a:" ++ [NL; NL] ++ lit "-" ++ [NL] ++ lit "   "
     ++ [DQUOTE] ++ lit "x y" ++ [DQUOTE; NL] ++ lit "b:")
  = lit "a:" ++ [NL] ++ lit "  - " ++ [DQUOTE] ++ lit "x y" ++ [DQUOTE; NL]
    ++ lit "b:".
Proof. vm_compute. reflexivity. Qed.

(** C10.  The repair made before the second parse is idempotent: repairing
    a repaired text gives the same text, and each of the four steps
    (removing the document separators, turning tabs into spaces, putting
    a colon after a bare identifier, re-indenting the quoted list items)
    leaves a repaired text as it is. *)
Theorem repair_yaml_content_idempotent (content : str) :
  let repaired := repair_yaml_content content in
  repair_yaml_content repaired = repaired
  /\ replace (lit "---") [] repaired = repaired
  /\ replace [TAB] (lit "  ") repaired = repaired
  /\ join [NL] (map repair_line (split NL repaired)) = repaired
  /\ re_sub_items repaired = repaired.
Proof.
  cbv zeta.
  destruct (repair_yaml_content_invariants content) as (H1 & H2 & H3).
  assert (E1 := remove_separators_fixed 0 _ H1).
  assert (E2 := expand_tabs_fixed _ H2).
  assert (E3 := repair_lines_fixed _ H3).
  assert (E4 : re_sub_items (repair_yaml_content content)
               = repair_yaml_content content).
  { rewrite repair_yaml_content_steps at 2.
    rewrite repair_yaml_content_steps. apply re_sub_items_idempotent. }
  repeat split; try assumption.
  rewrite repair_yaml_content_steps at 1.
  now rewrite E1, E2, E3.
Qed.

(* ================================================================== *)
(** ** Line salvage (strategy 3) *)
(* ================================================================== *)

Section LineSalvage.

Lemma split1_length (c : ascii) (l : str) :
  has_char c l = true -> List.length (split1 c l) = 2.
Proof.
  unfold has_char. induction l as [|a l IH]; simpl; [discriminate|].
  rewrite (Ascii.eqb_sym c a). destruct (Ascii.eqb a c); [reflexivity|].
  simpl. intros H. specialize (IH H).
  destruct (split1 c l) as [|x xs]; [discriminate|exact IH].
Qed.

Lemma salvage_step_line_step (st : salvage_state) (raw : str) :
  salvage_step st raw
  = if skipped (strip raw) then st else line_step st (strip raw).
Proof.
  unfold salvage_step, line_step, skipped, is_key_line, key_of, rhs_of.
  destruct (is_empty (strip raw) || startswith (lit "#") (strip raw));
    [reflexivity|].
  destruct (has_char COLON (strip raw)) eqn:Hc; [|reflexivity].
  rewrite (split1_length _ _ Hc). reflexivity.
Qed.

Lemma salvage_fold_surviving (lines : list str) (st : salvage_state) :
  fold_left salvage_step lines st
  = fold_left line_step
      (filter (fun line => negb (skipped line)) (map strip lines)) st.
Proof.
  revert st. induction lines as [|raw lines IH]; intros st; [reflexivity|].
  simpl. rewrite salvage_step_line_step.
  destruct (skipped (strip raw)); simpl; apply IH.
Qed.

Lemma line_salvage_surviving (content : str) :
  line_salvage content
  = flush (fold_left line_step (surviving_lines content) salvage_init).
Proof. unfold line_salvage. now rewrite salvage_fold_surviving. Qed.

Lemma dict_set_nonempty (d : dict) (k : str) (v : pyval) :
  dict_set d k v <> [].
Proof.
  destruct d as [|[k' v'] d]; simpl; [discriminate|].
  destruct (str_eqb k k'); discriminate.
Qed.

Lemma flush_pending (st : salvage_state) : pending st -> flush st <> [].
Proof.
  intros [Hk Hv]. unfold flush.
  destruct (current_key st) as [key|]; [|discriminate].
  rewrite Hk. destruct (current_value st); [contradiction|].
  simpl. apply dict_set_nonempty.
Qed.

Lemma flush_keeps (st : salvage_state) : data st <> [] -> flush st <> [].
Proof.
  intros H. unfold flush. destruct (current_key st) as [key|]; [|assumption].
  destruct (key_truthy (Some key)
            && negb (Nat.eqb (List.length (current_value st)) 0));
    [apply dict_set_nonempty|assumption].
Qed.

Lemma flush_nonempty (st : salvage_state) :
  will_be_nonempty st -> flush st <> [].
Proof. intros [H|H]; [now apply flush_keeps|now apply flush_pending]. Qed.

Lemma line_step_keeps (st : salvage_state) (line : str) :
  will_be_nonempty st -> will_be_nonempty (line_step st line).
Proof.
  intros H. unfold line_step. destruct (is_key_line line).
  - left. simpl. now apply flush_nonempty.
  - destruct (key_truthy (current_key st)) eqn:Hk; [|assumption].
    destruct H as [H|[_ H]]; [now left|]. right. split; [assumption|].
    simpl. destruct (current_value st); [contradiction|discriminate].
Qed.

Lemma fold_line_step_keeps (lines : list str) (st : salvage_state) :
  will_be_nonempty st -> will_be_nonempty (fold_left line_step lines st).
Proof.
  revert st. induction lines as [|l lines IH]; intros st H; [assumption|].
  simpl. apply IH. now apply line_step_keeps.
Qed.

Lemma key_with_value_pending (st : salvage_state) (line : str)
  (after : list str) :
  key_with_value line after ->
  will_be_nonempty (fold_left line_step (line :: after) st).
Proof.
  intros (Hk & Hkey & Hv). simpl.
  assert (Ht : key_truthy (Some (key_of line)) = true).
  { simpl. destruct (key_of line); [contradiction|reflexivity]. }
  destruct Hv as [Hr|(next & rest & -> & Hn)].
  - apply fold_line_step_keeps. right. unfold line_step. rewrite Hk.
    split; [exact Ht|]. simpl.
    destruct (rhs_of line); [contradiction|discriminate].
  - simpl. apply fold_line_step_keeps. right.
    unfold line_step at 1. rewrite Hn.
    unfold line_step. rewrite Hk. cbn [current_key]. rewrite Ht.
    split; [exact Ht|]. cbn [current_value].
    destruct (if negb (is_empty (rhs_of line)) then [rhs_of line] else []);
      discriminate.
Qed.

Lemma has_key_with_value_nonempty (lines : list str) :
  has_key_with_value lines ->
  flush (fold_left line_step lines salvage_init) <> [].
Proof.
  intros (before & line & after & -> & H).
  rewrite fold_left_app. apply flush_nonempty.
  now apply key_with_value_pending.
Qed.

Lemma has_key_with_value_snoc (lines : list str) (l : str) :
  has_key_with_value lines -> has_key_with_value (lines ++ [l]).
Proof.
  intros (before & line & after & -> & Hk & Hkey & Hv).
  exists before, line, (after ++ [l]). split.
  - rewrite <- app_assoc. reflexivity.
  - split; [assumption|]. split; [assumption|].
    destruct Hv as [Hr|(next & rest & -> & Hn)]; [now left|].
    right. exists next, (rest ++ [l]). auto.
Qed.

Lemma flush_nonempty_inv (st : salvage_state) :
  flush st <> [] -> will_be_nonempty st.
Proof.
  unfold flush, will_be_nonempty, pending.
  destruct (current_key st) as [key|]; [|now left].
  destruct (key_truthy (Some key)) eqn:Hk; [|now left].
  destruct (current_value st) as [|v vs]; [now left|].
  intros _. right. split; [reflexivity|discriminate].
Qed.

Lemma line_step_invariant (lines : list str) (st : salvage_state) (l : str) :
  salvage_invariant lines st ->
  salvage_invariant (lines ++ [l]) (line_step st l).
Proof.
  intros [H1 H2]. unfold line_step.
  destruct (is_key_line l) eqn:Hl.
  - split.
    + intros [Hd|[Hk Hv]]; simpl in *.
      * apply has_key_with_value_snoc, H1. now apply flush_nonempty_inv.
      * exists lines, l, []. split; [reflexivity|].
        split; [assumption|]. split.
        -- intros E. now rewrite E in Hk.
        -- left. intros E. rewrite E in Hv. now apply Hv.
    + simpl. intros Hk _. exists lines, l. repeat split; try assumption.
      intros E. now rewrite E in Hk.
  - destruct (key_truthy (current_key st)) eqn:Hk.
    + split.
      * intros _. destruct (current_value st) as [|v vs] eqn:Hv.
        -- destruct (H2 eq_refl eq_refl) as (before & k & -> & Hkl & Hkey).
           exists before, k, [l]. split.
           ++ rewrite <- app_assoc. reflexivity.
           ++ split; [assumption|]. split; [assumption|]. right. eauto.
        -- apply has_key_with_value_snoc, H1. right.
           split; [assumption|]. now rewrite Hv.
      * simpl. intros _ E. destruct (current_value st); discriminate.
    + split.
      * intros H. now apply has_key_with_value_snoc, H1.
      * intros E. congruence.
Qed.

Lemma fold_line_step_invariant (lines : list str) :
  salvage_invariant lines (fold_left line_step lines salvage_init).
Proof.
  induction lines as [|l lines IH] using rev_ind.
  - split.
    + intros [H|[H _]]; [now contradiction H|discriminate].
    + discriminate.
  - rewrite fold_left_app. simpl. now apply line_step_invariant.
Qed.

Lemma line_salvage_entry_iff (content : str) :
  line_salvage content <> []
  <-> has_key_with_value (surviving_lines content).
Proof.
  rewrite line_salvage_surviving. split.
  - intros H. apply (fold_line_step_invariant (surviving_lines content)).
    now apply flush_nonempty_inv.
  - apply has_key_with_value_nonempty.
Qed.

(** X3.  The mapping of strategy 3 has an entry exactly when some key
    line has a value: a non-empty key, and text after the colon or a next
    line that starts no key. *)
Theorem line_salvage_nonempty_iff (content : str) :
  line_salvage content <> []
  <-> has_key_with_value (surviving_lines content).
Proof.
  split; intros H.
  - now apply line_salvage_entry_iff.
  - now apply line_salvage_entry_iff.
Qed.

End LineSalvage.

(* ================================================================== *)
(** ** The recovering parser *)
(* ================================================================== *)




(** C5, as stated, fails: a document that is one key-only line behind an
    unclosed quote is no YAML (nor is its repair, which is the same
    text), the line has a colon and starts with no list marker, and
    strategy 3 collects nothing, because the flush is guarded by a
    non-empty value. *)
Lemma key_only_line_yields_nothing :
  let content := DQUOTE :: lit "key:" in
  repair_yaml_content content = content
  /\ surviving_lines content = [content]
  /\ is_key_line content = true
  /\ line_salvage content = []
  /\ parse_with_recovery rejects_all (ReadOk content)
     = {| parsed := None;
          error := Some (lit "All parsing strategies failed");
          invoked := [Direct; Repaired; Salvage]; raised := None |}.
Proof. cbv zeta. repeat split; reflexivity. Qed.

(** C5, amended.  When the direct and the repaired parse both fail,
    strategy 3 returns a non-empty mapping if some line that is not
    skipped, has a colon and starts with no list marker has a non-empty
    key before its first colon and either text after it or a next line
    (not skipped) that starts no key; if there is no such line, the
    result is the error that all strategies failed. *)
Theorem line_salvage_returns (safe_load : str -> yaml_result)
  (content : str) :
  usable (safe_load content) = Ok None ->
  usable (safe_load (repair_yaml_content content)) = Ok None ->
  (has_key_with_value (surviving_lines content) ->
   line_salvage content <> []
   /\ parse_with_recovery safe_load (ReadOk content)
      = {| parsed := Some (VDict (line_salvage content)); error := None;
           invoked := [Direct; Repaired; Salvage]; raised := None |})
  /\ (~ has_key_with_value (surviving_lines content) ->
      parse_with_recovery safe_load (ReadOk content)
      = {| parsed := None;
           error := Some (lit "All parsing strategies failed");
           invoked := [Direct; Repaired; Salvage]; raised := None |}).
Proof.
  intros H1 H2. unfold parse_with_recovery. rewrite H1, H2.
  rewrite <- line_salvage_entry_iff. split; intros H.
  - split; [assumption|].
    destruct (line_salvage content); [contradiction|reflexivity].
  - destruct (line_salvage content) as [|e d]; [reflexivity|].
    exfalso. apply H. discriminate.
Qed.

Lemma line_salvage_returns_witness :
  let content := lit "[key: v" in
  line_salvage content = [(lit "[key", VStr (lit "v"))]
  /\ parse_with_recovery rejects_all (ReadOk content)
     = {| parsed := Some (VDict (line_salvage content)); error := None;
          invoked := [Direct; Repaired; Salvage]; raised := None |}.
Proof.
  cbv zeta. split; [reflexivity|].
  apply (proj1 (line_salvage_returns rejects_all (lit "[key: v")
                  eq_refl eq_refl)).
  exists [], (lit "[key: v"), []. split; [reflexivity|].
  split; [reflexivity|]. split; [discriminate|]. left. discriminate.
Defined.

(* ================================================================== *)
(** ** Facts about dictionaries *)
(* ================================================================== *)

Section DictFacts.

Lemma dict_get_set (d : dict) (k k' : str) (v : pyval) :
  dict_get (dict_set d k v) k'
  = if str_eqb k' k then Some v else dict_get d k'.
Proof.
  induction d as [|[k0 v0] d IH]; simpl.
  - reflexivity.
  - destruct (str_eqb k k0) eqn:E; simpl.
    + apply str_eqb_eq in E. subst k0.
      destruct (str_eqb k' k); reflexivity.
    + destruct (str_eqb k' k0) eqn:E'.
      * apply str_eqb_eq in E'. subst k0.
        destruct (str_eqb k' k) eqn:E''; [|reflexivity].
        apply str_eqb_eq in E''. subst k'.
        rewrite str_eqb_refl in E. discriminate.
      * exact IH.
Qed.

Lemma dict_get_set_same (d : dict) (k : str) (v : pyval) :
  dict_get (dict_set d k v) k = Some v.
Proof. now rewrite dict_get_set, str_eqb_refl. Qed.

Lemma dict_get_set_other (d : dict) (k k' : str) (v : pyval) :
  str_eqb k' k = false -> dict_get (dict_set d k v) k' = dict_get d k'.
Proof. intros H. now rewrite dict_get_set, H. Qed.

(** Writing to a key that is there changes no key. *)
Lemma dict_keys_set_present (d : dict) (k : str) (v : pyval) :
  dict_has d k = true -> dict_keys (dict_set d k v) = dict_keys d.
Proof.
  unfold dict_has, dict_keys. induction d as [|[k0 v0] d IH]; simpl.
  - discriminate.
  - destruct (str_eqb k k0) eqn:E; simpl; [reflexivity|].
    intros H. f_equal. now apply IH.
Qed.

Lemma dict_has_set (d : dict) (k k' : str) (v : pyval) :
  dict_has (dict_set d k v) k' = str_eqb k' k || dict_has d k'.
Proof.
  unfold dict_has. rewrite dict_get_set. destruct (str_eqb k' k); reflexivity.
Qed.

Lemma set_if_present_get (src : dict) (k : str) (f : pyval -> pyval)
  (dst : str) (d : dict) (k' : str) :
  str_eqb k' dst = false ->
  dict_get (set_if_present src k f dst d) k' = dict_get d k'.
Proof.
  intros H. unfold set_if_present. destruct (dict_get src k); [|reflexivity].
  now apply dict_get_set_other.
Qed.

End DictFacts.

(* ================================================================== *)
(** ** The normalizer *)
(* ================================================================== *)

Section Normalizer.

Lemma normalize_marker_Ok (rt : runtime) (marker_data : dict)
  (file_name : str) (m : dict) :
  normalize_marker rt marker_data file_name = Ok m ->
  exists frame created author version tags_src tags,
    generate_frame rt marker_data = Ok frame
    /\ metadata_get marker_data (lit "tags")
         (VList [VStr (lit "normalized"); VStr (lit "ld3.11")]) = Ok tags_src
    /\ py_set tags_src = Ok tags
    /\ m = with_optional_fields rt marker_data
             (normalized_literal rt (marker_id_of marker_data file_name) frame
                (ensure_minimum_examples
                   (dict_get_default marker_data (lit "beispiele") (VList [])))
                created author version tags).
Proof.
  unfold normalize_marker. intros H.
  destruct (generate_frame rt marker_data) as [frame|] eqn:Hf;
    [|discriminate].
  cbn [bind] in H.
  destruct (metadata_get marker_data (lit "created_at") _) as [created|];
    [|discriminate].
  cbn [bind] in H.
  destruct (metadata_get marker_data (lit "created_by") _) as [author|];
    [|discriminate].
  cbn [bind] in H.
  destruct (metadata_get marker_data (lit "version") _) as [version|];
    [|discriminate].
  cbn [bind] in H.
  destruct (metadata_get marker_data (lit "tags") _) as [tags_src|] eqn:Ht;
    [|discriminate].
  cbn [bind] in H.
  destruct (py_set tags_src) as [tags|] eqn:Hs; [|discriminate].
  cbn [bind] in H. inversion H; subst m.
  exists frame, created, author, version, tags_src, tags.
  repeat split; reflexivity || assumption.
Qed.

(** A key that is none of the three optional ones is looked up in the
    literal. *)
Lemma with_optional_fields_get (rt : runtime) (marker_data d : dict)
  (k : str) :
  str_eqb k (lit "category") = false ->
  str_eqb k (lit "semantic_id") = false ->
  str_eqb k (lit "original_description") = false ->
  dict_get (with_optional_fields rt marker_data d) k = dict_get d k.
Proof.
  intros H1 H2 H3. unfold with_optional_fields.
  now rewrite !set_if_present_get.
Qed.

Lemma normalize_marker_get (rt : runtime) (marker_data : dict)
  (file_name : str) (m : dict) (k : str) :
  normalize_marker rt marker_data file_name = Ok m ->
  str_eqb k (lit "category") = false ->
  str_eqb k (lit "semantic_id") = false ->
  str_eqb k (lit "original_description") = false ->
  exists frame created author version tags,
    forallb hashable tags = true
    /\ generate_frame rt marker_data = Ok frame
    /\ dict_get m k
       = dict_get
           (normalized_literal rt (marker_id_of marker_data file_name) frame
              (ensure_minimum_examples
                 (dict_get_default marker_data (lit "beispiele") (VList [])))
              created author version tags) k.
Proof.
  intros H H1 H2 H3.
  apply normalize_marker_Ok in H
    as (frame & created & author & version & tags_src & tags
        & Hf & _ & Hs & ->).
  exists frame, created, author, version, tags. split; [|split].
  - unfold py_set in Hs. destruct (py_iter tags_src) as [l|]; [|discriminate].
    cbn [bind] in Hs. destruct (forallb hashable l) eqn:Hl; [|discriminate].
    inversion Hs; subst tags. clear Hs.
    induction l as [|x l IH]; [reflexivity|].
    simpl in *. apply andb_true_iff in Hl as [Hx Hl]. rewrite Hx. simpl.
    specialize (IH Hl). clear Hl.
    induction (dedup l) as [|y d IHd]; [reflexivity|].
    simpl in *. apply andb_true_iff in IH as [Hy Hd].
    destruct (negb (atom_eqb x y)); simpl; [rewrite Hy|]; auto.
  - assumption.
  - now apply with_optional_fields_get.
Qed.

End Normalizer.

(** A well typed source structure is normalized. *)
Lemma normalize_marker_well_typed (rt : runtime) (marker_data : dict)
  (file_name : str) :
  well_typed_source marker_data = true ->
  exists m, normalize_marker rt marker_data file_name = Ok m.
Proof.
  unfold well_typed_source. intros H. apply andb_true_iff in H as [Hn Hm].
  assert (Hf : exists frame, generate_frame rt marker_data = Ok frame).
  { unfold generate_frame, detect_category, dict_get_default.
    destruct (dict_get marker_data (lit "marker_name")) as [[]|];
      try discriminate; cbn [bind]; eauto. }
  destruct Hf as [frame Hf].
  assert (Hg : forall k d, exists v, metadata_get marker_data k d = Ok v).
  { intros k d. unfold metadata_get, dict_get_default.
    destruct (dict_get marker_data (lit "metadata")) as [[]|];
      try discriminate; eauto. }
  assert (Ht : exists src tags,
             metadata_get marker_data (lit "tags")
               (VList [VStr (lit "normalized"); VStr (lit "ld3.11")]) = Ok src
             /\ py_set src = Ok tags).
  { unfold metadata_get, dict_get_default.
    destruct (dict_get marker_data (lit "metadata")) as [[]|];
      try discriminate.
    - destruct (dict_get d (lit "tags")) as [t|].
      + destruct (py_set t) as [tags|] eqn:E; [|discriminate]. eauto.
      + eexists. eexists. split; reflexivity.
    - eexists. eexists. split; reflexivity. }
  destruct Ht as (src & tags & Ht & Hs).
  unfold normalize_marker. rewrite Hf. cbn [bind].
  destruct (Hg (lit "created_at") (VStr (now_isoformat rt))) as [v1 ->].
  destruct (Hg (lit "created_by") (VStr (lit "complete_markers.py")))
    as [v2 ->].
  destruct (Hg (lit "version") (VStr (lit "1.0"))) as [v3 ->].
  rewrite Ht. cbn [bind]. rewrite Hs. cbn [bind]. eauto.
Qed.

(** X4.  [normalize_marker] returns a marker, and raises nothing, on
    every source structure whose name is a string if it is there, whose
    metadata is a dictionary if it is there, and whose tags can be put in
    a set. *)
Lemma normalize_marker_returns (rt : runtime) (marker_data : dict)
  (file_name : str) :
  well_typed_source marker_data = true ->
  exists m, normalize_marker rt marker_data file_name = Ok m.
Proof. apply normalize_marker_well_typed. Qed.

Lemma normalize_marker_returns_witness :
  exists m, normalize_marker sample_runtime scenario_a (lit "cafe.yaml") = Ok m.
Proof.
  apply (normalize_marker_returns sample_runtime scenario_a (lit "cafe.yaml")).
  reflexivity.
Defined.

(** C1.  A marker that [normalize_marker] returns has the descriptor field
    [pattern] and has neither [composed_of] nor [detect_class]: of the
    three exclusive fields exactly [pattern] is present, and the XOR check
    of the validator passes on it without an error. *)
Theorem normalizer_picks_pattern (rt : runtime) (marker_data : dict)
  (file_name : str) (m : dict) :
  normalize_marker rt marker_data file_name = Ok m ->
  dict_has m (lit "pattern") = true
  /\ dict_has m (lit "composed_of") = false
  /\ dict_has m (lit "detect_class") = false
  /\ filter (dict_has m) xor_fields = [lit "pattern"]
  /\ forall st, validate_xor_constraint m st = (Ok true, st).
Proof.
  intros H.
  assert (H1 : dict_has m (lit "pattern") = true).
  { destruct (normalize_marker_get rt _ _ _ (lit "pattern") H)
      as (? & ? & ? & ? & ? & _ & _ & E); try reflexivity.
    unfold dict_has. now rewrite E. }
  assert (H2 : dict_has m (lit "composed_of") = false).
  { destruct (normalize_marker_get rt _ _ _ (lit "composed_of") H)
      as (? & ? & ? & ? & ? & _ & _ & E); try reflexivity.
    unfold dict_has. now rewrite E. }
  assert (H3 : dict_has m (lit "detect_class") = false).
  { destruct (normalize_marker_get rt _ _ _ (lit "detect_class") H)
      as (? & ? & ? & ? & ? & _ & _ & E); try reflexivity.
    unfold dict_has. now rewrite E. }
  assert (H4 : filter (dict_has m) xor_fields = [lit "pattern"]).
  { unfold xor_fields. cbn [filter]. now rewrite H1, H2, H3. }
  repeat split; try assumption.
  intros st. unfold validate_xor_constraint. now rewrite H4.
Qed.

Lemma normalizer_picks_pattern_witness :
  dict_has scenario_a_normalized (lit "pattern") = true
  /\ dict_has scenario_a_normalized (lit "composed_of") = false
  /\ dict_has scenario_a_normalized (lit "detect_class") = false
  /\ filter (dict_has scenario_a_normalized) xor_fields = [lit "pattern"]
  /\ forall st, validate_xor_constraint scenario_a_normalized st = (Ok true, st).
Proof.
  apply (normalizer_picks_pattern sample_runtime scenario_a (lit "cafe.yaml")).
  reflexivity.
Defined.

Lemma pad_examples_length (fuel : nat) (clean : list str) :
  MarkerNormalizer.MIN_EXAMPLES - List.length clean <= fuel ->
  MarkerNormalizer.MIN_EXAMPLES <= List.length (pad_examples fuel clean).
Proof.
  revert clean. induction fuel as [|fuel IH]; intros clean H;
    cbn [pad_examples].
  - lia.
  - destruct (Nat.ltb_spec (List.length clean) MarkerNormalizer.MIN_EXAMPLES)
      as [Hlt|Hge].
    + apply IH. rewrite length_app. cbn [List.length]. lia.
    + assumption.
Qed.

Lemma pad_examples_prefix (fuel : nat) (clean : list str) :
  exists added, pad_examples fuel clean = clean ++ added.
Proof.
  revert clean. induction fuel as [|fuel IH]; intros clean; simpl.
  - exists []. now rewrite app_nil_r.
  - destruct (List.length clean <? MarkerNormalizer.MIN_EXAMPLES).
    + destruct (IH (clean ++ [synthetic_example (List.length clean + 1)]))
        as [added ->].
      rewrite <- app_assoc. eauto.
    + exists []. now rewrite app_nil_r.
Qed.

(** On strings only, the loop of [validate_examples] returns [True] and
    adds no error. *)
Lemma examples_loop_strings (l : list str) (i : nat) (unique : list str)
  (st : vstate) :
  exists ws,
    examples_loop i unique (map VStr l) st
    = (Ok true, {| errors := errors st; warnings := warnings st ++ ws;
                   ran := ran st |}).
Proof.
  revert i unique st. induction l as [|ex l IH]; intros i unique st.
  - exists []. rewrite app_nil_r. destruct st. reflexivity.
  - cbn [examples_loop map]. unfold vbind.
    destruct (existsb (str_eqb ex) unique).
    + unfold add_warning.
      destruct (IH (S i) (ex :: unique)
                  {| errors := errors st;
                     warnings := warnings st ++ [WDuplicateExample (take 50 ex)];
                     ran := ran st |}) as [ws E].
      exists (WDuplicateExample (take 50 ex) :: ws).
      etransitivity; [exact E|].
      cbn [errors warnings ran]. rewrite <- app_assoc. reflexivity.
    + unfold ret. destruct (IH (S i) (ex :: unique) st) as [ws E].
      exists ws. exact E.
Qed.

(** C2.  Whatever value it is given, a list or not,
    [ensure_minimum_examples] returns a list of strings that is at least
    as long as the configured minimum, 5 in both programs (the [while]
    loop has run to its end), and [validate_examples] accepts that list
    from any state: it returns [True], and adds no error. *)
Theorem ensure_minimum_examples_passes (examples : pyval) (st : vstate) :
  let result := ensure_minimum_examples examples in
  MarkerNormalizer.MIN_EXAMPLES = 5
  /\ LeanDeep31Validator.MIN_EXAMPLES = 5
  /\ 5 <= List.length result
  /\ (List.length result <? MarkerNormalizer.MIN_EXAMPLES) = false
  /\ exists ws,
       validate_examples (VList (map VStr result)) st
       = (Ok true, {| errors := errors st; warnings := warnings st ++ ws;
                      ran := ran st |}).
Proof.
  cbv zeta.
  assert (H : MarkerNormalizer.MIN_EXAMPLES
              <= List.length (ensure_minimum_examples examples)).
  { unfold ensure_minimum_examples. apply pad_examples_length. lia. }
  split; [reflexivity|]. split; [reflexivity|]. split; [exact H|]. split.
  - apply Nat.ltb_ge. assumption.
  - unfold validate_examples. rewrite length_map.
    change LeanDeep31Validator.MIN_EXAMPLES
      with MarkerNormalizer.MIN_EXAMPLES.
    apply Nat.ltb_ge in H. rewrite H. apply examples_loop_strings.
Qed.

(** The examples of scenario A: the list marker is cut off the first, and
    two synthetic examples fill the list up. *)
Example ensure_minimum_examples_scenario_a :
  ensure_minimum_examples
    (VList [VStr (lit "- im Cafe"); VStr (lit "at the cafe");
            VStr (lit "coffee shop")])
  = [lit "im Cafe"; lit "at the cafe"; lit "coffee shop";
     lit "Example usage pattern 4 for this marker";
     lit "Example usage pattern 5 for this marker"].
Proof. reflexivity. Qed.


(** C9, the failing input: a structure whose name field is there and is
    the empty string.  The identifier of the marker is the empty string,
    not the file name without its extension, and the validator rejects
    the marker for its identifier. *)
Lemma empty_marker_name_gives_empty_id (rt : runtime) :
  exists m,
    normalize_marker rt [(lit "marker_name", VStr [])] (lit "cafe.yaml") = Ok m
    /\ dict_get m (lit "_id") = Some (VStr [])
    /\ replace (lit ".yaml") [] (lit "cafe.yaml") = lit "cafe"
    /\ fst (validate_marker m) = Ok false
    /\ errors (snd (validate_marker m)) = [EIdNotNonEmptyString].
Proof. eexists. repeat split; reflexivity. Qed.





(* ================================================================== *)
(** ** The validator *)
(* ================================================================== *)

Create HintDb appends.

Lemma extend_init_l (d : vstate) : extend init_state d = d.
Proof. destruct d. reflexivity. Qed.

Lemma extend_init_r (st : vstate) : extend st init_state = st.
Proof. destruct st. unfold extend. simpl. now rewrite !app_nil_r. Qed.

Lemma extend_assoc (a b c : vstate) :
  extend (extend a b) c = extend a (extend b c).
Proof. unfold extend. simpl. now rewrite !app_assoc. Qed.

Lemma appends_ret {A} (a : A) : appends (ret a).
Proof. intros st. unfold ret. simpl. now rewrite extend_init_r. Qed.

Lemma appends_throw {A} (e : exn) : appends (@throw A e).
Proof. intros st. unfold throw. simpl. now rewrite extend_init_r. Qed.

Lemma appends_add_error (e : verror) : appends (add_error e).
Proof.
  intros st. unfold add_error, extend. simpl. now rewrite !app_nil_r.
Qed.

Lemma appends_add_warning (w : vwarning) : appends (add_warning w).
Proof.
  intros st. unfold add_warning, extend. simpl. now rewrite !app_nil_r.
Qed.

Lemma appends_enter (c : check) : appends (enter c).
Proof. intros st. unfold enter, extend. simpl. now rewrite !app_nil_r. Qed.

Lemma appends_vbind {A B} (c : V A) (k : A -> V B) :
  appends c -> (forall a, appends (k a)) -> appends (vbind c k).
Proof.
  intros Hc Hk st. unfold vbind. rewrite (Hc st).
  destruct (c init_state) as [[a|e] d]; simpl.
  - rewrite (Hk a (extend st d)), (Hk a d). simpl.
    now rewrite extend_assoc.
  - reflexivity.
Qed.

Lemma appends_if {A} (b : bool) (c1 c2 : V A) :
  appends c1 -> appends c2 -> appends (if b then c1 else c2).
Proof. destruct b; auto. Qed.

#[local] Hint Resolve appends_ret appends_throw appends_add_error
  appends_add_warning appends_enter appends_vbind appends_if : appends.

Lemma appends_validate_xor_constraint (marker : dict) :
  appends (validate_xor_constraint marker).
Proof. unfold validate_xor_constraint. auto with appends. Qed.

Lemma appends_frame_fields_loop (frame : dict) (fields : list str) :
  appends (frame_fields_loop frame fields).
Proof.
  induction fields as [|field rest IH]; simpl; [auto with appends|].
  destruct (dict_get frame field) as [[]|]; auto with appends.
Qed.

#[local] Hint Resolve appends_frame_fields_loop : appends.

Lemma appends_validate_frame_structure (frame : pyval) :
  appends (validate_frame_structure frame).
Proof.
  destruct frame; unfold validate_frame_structure; auto with appends.
Qed.

Lemma appends_examples_loop (l : list pyval) (i : nat) (unique : list str) :
  appends (examples_loop i unique l).
Proof.
  revert i unique. induction l as [|x l IH]; intros i unique; simpl;
    [auto with appends|].
  destruct x; auto with appends.
Qed.

#[local] Hint Resolve appends_examples_loop : appends.

Lemma appends_validate_examples (examples : pyval) :
  appends (validate_examples examples).
Proof.
  destruct examples; unfold validate_examples; auto with appends.
Qed.

Lemma appends_validate_metadata (metadata : pyval) :
  appends (validate_metadata metadata).
Proof.
  destruct metadata; unfold validate_metadata; auto with appends.
  apply appends_vbind; [auto with appends|]. intros _.
  destruct (dict_get d (lit "tags")) as [[]|]; auto with appends.
  destruct (py_set (VList l)); auto with appends.
Qed.

Lemma appends_validate_pattern (pattern : pyval) :
  appends (validate_pattern pattern).
Proof.
  destruct pattern; unfold validate_pattern; auto with appends.
Qed.

Lemma appends_components_loop (l : list pyval) (i : nat) :
  appends (components_loop i l).
Proof.
  revert i. induction l as [|x l IH]; intros i; simpl; [auto with appends|].
  destruct x; auto with appends.
Qed.

#[local] Hint Resolve appends_components_loop : appends.

Lemma appends_validate_composed_of (composed_of : pyval) :
  appends (validate_composed_of composed_of).
Proof.
  destruct composed_of; unfold validate_composed_of; auto with appends.
Qed.

Lemma appends_when_present (marker : dict) (key : str) (c : check)
  (method : pyval -> V bool) :
  (forall v, appends (method v)) -> appends (when_present marker key c method).
Proof.
  intros H. unfold when_present.
  destruct (dict_get marker key); auto 6 with appends.
Qed.

#[local] Hint Resolve appends_validate_xor_constraint
  appends_validate_frame_structure appends_validate_examples
  appends_validate_metadata appends_validate_pattern
  appends_validate_composed_of appends_when_present : appends.

Lemma appends_checks_from_xor (marker : dict) :
  appends (checks_from_xor marker).
Proof.
  unfold checks_from_xor.
  repeat first
    [ apply appends_vbind; [auto with appends|intros ?]
    | apply appends_if; [auto with appends|] ];
  auto with appends.
Qed.

Lemma appends_checks_after_id (marker : dict) :
  appends (checks_after_id marker).
Proof.
  pose proof (appends_checks_from_xor marker).
  unfold checks_after_id.
  repeat first
    [ apply appends_vbind; [auto with appends|intros ?]
    | apply appends_if; [auto with appends|] ];
  auto with appends.
Qed.

Lemma finishing_vbind {A} (m : V A) (k k' : A -> V bool) :
  (forall a, finishing (k a) (k' a)) -> finishing (vbind m k) (vbind m k').
Proof.
  intros H st. unfold vbind. destruct (m st) as [[a|e] st'];
    [apply H|reflexivity].
Qed.

Lemma finishing_if (b : bool) (c1 c2 c1' c2' : V bool) :
  finishing c1 c1' -> finishing c2 c2' ->
  finishing (if b then c1 else c2) (if b then c1' else c2').
Proof. destruct b; auto. Qed.

Lemma finishing_ret_false : finishing (ret false) (ret false).
Proof. intros st. reflexivity. Qed.

Lemma finishing_is_valid :
  finishing (fun st => (Ok (Nat.eqb (List.length (errors st)) 0), st))
            (ret true).
Proof. intros st. reflexivity. Qed.

Lemma validate_marker_from_checks (marker : dict) (st : vstate) :
  missing_from required_fields marker = [] ->
  validate_marker_from marker st
  = finish ((id_step marker ;;; checks_after_id marker) st).
Proof.
  intros H. unfold validate_marker_from, checks_after_id, checks_from_xor,
    id_step.
  rewrite H. cbn [List.length Nat.eqb negb]. revert st.
  repeat first
    [ apply finishing_is_valid
    | apply finishing_ret_false
    | apply finishing_vbind; intros ?
    | apply finishing_if ].
Qed.

Lemma keeps_ran_ret {A} (a : A) : keeps_ran (ret a).
Proof. intros st. reflexivity. Qed.

Lemma keeps_ran_throw {A} (e : exn) : keeps_ran (@throw A e).
Proof. intros st. reflexivity. Qed.

Lemma keeps_ran_add_error (e : verror) : keeps_ran (add_error e).
Proof. intros st. reflexivity. Qed.

Lemma keeps_ran_add_warning (w : vwarning) : keeps_ran (add_warning w).
Proof. intros st. reflexivity. Qed.

Lemma keeps_ran_vbind {A B} (c : V A) (k : A -> V B) :
  keeps_ran c -> (forall a, keeps_ran (k a)) -> keeps_ran (vbind c k).
Proof.
  intros Hc Hk st. unfold vbind. specialize (Hc st).
  destruct (c st) as [[a|e] st']; simpl in *; [|assumption].
  now rewrite (Hk a st').
Qed.

Lemma keeps_ran_if {A} (b : bool) (c1 c2 : V A) :
  keeps_ran c1 -> keeps_ran c2 -> keeps_ran (if b then c1 else c2).
Proof. destruct b; auto. Qed.

Create HintDb keeps_ran.

#[local] Hint Resolve keeps_ran_ret keeps_ran_throw keeps_ran_add_error
  keeps_ran_add_warning keeps_ran_vbind keeps_ran_if : keeps_ran.

Lemma keeps_ran_frame_fields_loop (frame : dict) (fields : list str) :
  keeps_ran (frame_fields_loop frame fields).
Proof.
  induction fields as [|field rest IH]; simpl; [auto with keeps_ran|].
  destruct (dict_get frame field) as [[]|]; auto with keeps_ran.
Qed.

#[local] Hint Resolve keeps_ran_frame_fields_loop : keeps_ran.

Lemma keeps_ran_validate_frame_structure (frame : pyval) :
  keeps_ran (validate_frame_structure frame).
Proof.
  destruct frame; unfold validate_frame_structure; auto with keeps_ran.
Qed.

Lemma keeps_ran_examples_loop (l : list pyval) (i : nat) (unique : list str) :
  keeps_ran (examples_loop i unique l).
Proof.
  revert i unique. induction l as [|x l IH]; intros i unique; simpl;
    [auto with keeps_ran|].
  destruct x; auto with keeps_ran.
Qed.

#[local] Hint Resolve keeps_ran_examples_loop : keeps_ran.

Lemma keeps_ran_validate_examples (examples : pyval) :
  keeps_ran (validate_examples examples).
Proof.
  destruct examples; unfold validate_examples; auto with keeps_ran.
Qed.

Lemma keeps_ran_validate_xor_constraint (marker : dict) :
  keeps_ran (validate_xor_constraint marker).
Proof. unfold validate_xor_constraint. auto with keeps_ran. Qed.

(** The same checks for a marker that differs in its identifier only. *)
Lemma checks_after_id_set_id (marker : dict) (v : pyval) :
  dict_has marker (lit "_id") = true ->
  checks_after_id (dict_set marker (lit "_id") v) = checks_after_id marker.
Proof.
  intros H. unfold checks_after_id, checks_from_xor,
    validate_xor_constraint, when_present, dict_get_default, xor_fields.
  cbn [filter]. rewrite !dict_has_set.
  rewrite !dict_get_set_other by reflexivity.
  rewrite (dict_keys_set_present _ _ _ H). reflexivity.
Qed.

Lemma ran_appends {A} (c : V A) (st : vstate) :
  appends c -> ran (snd (c st)) = ran st ++ ran (snd (c init_state)).
Proof. intros H. rewrite (H st). reflexivity. Qed.

Lemma checks_after_id_ran (marker : dict) :
  ran (snd (checks_after_id marker init_state)) = checks_reached marker.
Proof.
  unfold checks_after_id, checks_reached.
  set (F := dict_get_default marker (lit "frame") VNone).
  set (E := dict_get_default marker (lit "examples") VNone).
  unfold vbind at 1. cbn [enter init_state errors warnings ran app].
  unfold vbind at 1.
  pose proof (appends_validate_frame_structure F
                {| errors := []; warnings := []; ran := [CkFrame] |}) as HF.
  pose proof (keeps_ran_validate_frame_structure F init_state) as HFr.
  destruct (validate_frame_structure F init_state) as [rf df].
  cbn [fst snd] in *. rewrite HF. clear HF.
  cbn [init_state ran] in HFr.
  assert (Es1 : ran (extend {| errors := []; warnings := []; ran := [CkFrame] |} df)
                = [CkFrame]).
  { unfold extend. cbn [ran]. now rewrite HFr. }
  set (s1 := extend {| errors := []; warnings := []; ran := [CkFrame] |} df)
    in *.
  destruct rf as [[|]|e]; cbn [negb]; try exact Es1.
  unfold vbind at 1. cbn [enter].
  set (s2 := {| errors := errors s1; warnings := warnings s1;
                ran := ran s1 ++ [CkExamples] |}).
  unfold vbind at 1.
  pose proof (appends_validate_examples E s2) as HE.
  pose proof (keeps_ran_validate_examples E init_state) as HEr.
  destruct (validate_examples E init_state) as [re de].
  cbn [fst snd] in *. rewrite HE. clear HE. cbn [init_state ran] in HEr.
  assert (Es3 : ran (extend s2 de) = [CkFrame; CkExamples]).
  { unfold extend, s2. cbn [ran]. now rewrite HEr, Es1, app_nil_r. }
  set (s3 := extend s2 de) in *.
  destruct re as [[|]|e]; cbn [negb]; try exact Es3.
  unfold vbind at 1. cbn [enter].
  rewrite (ran_appends _ _ (appends_checks_from_xor marker)).
  cbn [ran]. now rewrite Es3.
Qed.

Lemma checks_after_id_result (marker : dict) :
  fst (checks_after_id marker init_state) = Ok true ->
  fst (validate_frame_structure
         (dict_get_default marker (lit "frame") VNone) init_state) = Ok true
  /\ fst (validate_examples
            (dict_get_default marker (lit "examples") VNone) init_state)
     = Ok true.
Proof.
  unfold checks_after_id.
  set (F := dict_get_default marker (lit "frame") VNone).
  set (E := dict_get_default marker (lit "examples") VNone).
  unfold vbind at 1. cbn [enter init_state errors warnings ran app].
  unfold vbind at 1.
  rewrite (appends_validate_frame_structure F).
  destruct (validate_frame_structure F init_state) as [rf df].
  cbn [fst snd].
  destruct rf as [[|]|e]; cbn [negb]; try (cbn [ret fst]; discriminate).
  unfold vbind at 1. cbn [enter]. unfold vbind at 1.
  rewrite (appends_validate_examples E).
  destruct (validate_examples E init_state) as [re de].
  cbn [fst snd].
  destruct re as [[|]|e]; cbn [negb]; try (cbn [ret fst]; discriminate).
  auto.
Qed.

Lemma missing_from_set_id (marker : dict) (v : pyval) :
  missing_from required_fields marker = [] ->
  missing_from required_fields (dict_set marker (lit "_id") v) = []
  /\ dict_has marker (lit "_id") = true.
Proof.
  unfold missing_from, required_fields. cbn [filter].
  rewrite !dict_has_set.
  change (str_eqb (lit "_id") (lit "_id")) with true.
  change (str_eqb (lit "frame") (lit "_id")) with false.
  change (str_eqb (lit "examples") (lit "_id")) with false.
  cbn [orb].
  destruct (dict_has marker (lit "_id")); cbn [negb]; [|discriminate].
  auto.
Qed.

(** [validate_marker] on a marker that has the required fields. *)
Lemma validate_marker_with_required (marker : dict) :
  missing_from required_fields marker = [] ->
  let bad_id := negb (id_ok (dict_get_default marker (lit "_id") VNone)) in
  let r := fst (checks_after_id marker init_state) in
  let d := snd (checks_after_id marker init_state) in
  let st := {| errors := (if bad_id then [EIdNotNonEmptyString] else [])
                         ++ errors d;
               warnings := warnings d; ran := ran d |} in
  validate_marker marker
  = (match r with
     | Ok true => Ok (Nat.eqb (List.length (errors st)) 0)
     | other => other
     end, st).
Proof.
  intros H. cbv zeta. unfold validate_marker.
  rewrite (validate_marker_from_checks _ _ H).
  unfold vbind, id_step.
  destruct (negb (id_ok (dict_get_default marker (lit "_id") VNone))).
  - cbn [add_error init_state errors warnings ran app].
    rewrite (appends_checks_after_id marker).
    destruct (checks_after_id marker init_state) as [[[|]|e] d];
      reflexivity.
  - cbn [ret].
    destruct (checks_after_id marker init_state) as [[[|]|e] d];
      destruct d; reflexivity.
Qed.

Lemma frame_fields_loop_verdict (frame : dict) (fields : list str)
  (st : vstate) :
  forallb (dict_has frame) fields = true ->
  exists ws e,
    frame_fields_loop frame fields st
    = (Ok (forallb (field_is_str frame) fields),
       {| errors := errors st
                    ++ (if forallb (field_is_str frame) fields
                        then [] else [e]);
          warnings := warnings st ++ ws; ran := ran st |}).
Proof.
  revert st. induction fields as [|field rest IH]; intros st H.
  - exists [], EFrameNotDict. simpl. rewrite !app_nil_r. destruct st.
    reflexivity.
  - cbn [forallb] in *. apply andb_true_iff in H as [Hf Hr].
    cbn [frame_fields_loop]. unfold dict_has in Hf.
    unfold field_is_str at 1 3.
    destruct (dict_get frame field) as [v|]; [|discriminate].
    destruct v as [ |b|z|s|l|d]; cbn [is_str andb];
      try (exists [], (EFrameFieldNotString field);
           unfold vbind, add_error, ret; cbn [errors warnings ran];
           rewrite app_nil_r; reflexivity).
    unfold vbind at 1.
    destruct (is_empty (strip s)).
    + cbn [add_warning].
      destruct (IH {| errors := errors st;
                      warnings := warnings st ++ [WFrameFieldEmpty field];
                      ran := ran st |} Hr) as (ws & e & E).
      exists (WFrameFieldEmpty field :: ws), e.
      etransitivity; [exact E|]. cbn [errors warnings ran].
      rewrite <- app_assoc. reflexivity.
    + cbn [ret]. destruct (IH st Hr) as (ws & e & E).
      exists ws, e. exact E.
Qed.

Lemma frame_accepted_has (frame : dict) :
  frame_accepted frame = true -> forallb (dict_has frame) frame_fields = true.
Proof.
  unfold frame_accepted. rewrite !forallb_forall. intros H k Hk.
  specialize (H k Hk). unfold field_is_str, dict_has in *.
  destruct (dict_get frame k); [reflexivity|discriminate].
Qed.

Lemma validate_frame_structure_verdict (frame : dict) (st : vstate) :
  exists ws e,
    validate_frame_structure (VDict frame) st
    = (Ok (frame_accepted frame),
       {| errors := errors st ++ (if frame_accepted frame then [] else [e]);
          warnings := warnings st ++ ws; ran := ran st |}).
Proof.
  unfold validate_frame_structure, missing_from.
  destruct (forallb (dict_has frame) frame_fields) eqn:Hall.
  - assert (E : filter (fun f => negb (dict_has frame f)) frame_fields = []).
    { clear -Hall. induction frame_fields as [|k l IH]; [reflexivity|].
      simpl in *. apply andb_true_iff in Hall as [Hk Hl].
      rewrite Hk. simpl. auto. }
    rewrite E. cbn [List.length Nat.eqb negb].
    now apply frame_fields_loop_verdict.
  - assert (Hacc : frame_accepted frame = false).
    { destruct (frame_accepted frame) eqn:E; [|reflexivity].
      apply frame_accepted_has in E. congruence. }
    rewrite Hacc.
    destruct (filter (fun f => negb (dict_has frame f)) frame_fields)
      as [|k l] eqn:E.
    + exfalso. clear Hacc. revert Hall E.
      induction frame_fields as [|k l IH]; [discriminate|].
      simpl. destruct (dict_has frame k); simpl; [auto|discriminate].
    + exists [], (EFrameMissingFields (k :: l)).
      cbn [List.length Nat.eqb negb]. unfold vbind, add_error, ret.
      now rewrite app_nil_r.
Qed.

Lemma checks_after_id_fst (marker : dict) :
  fst (checks_after_id marker init_state)
  = match fst (validate_frame_structure
                 (dict_get_default marker (lit "frame") VNone) init_state) with
    | Ok true =>
        match fst (validate_examples
                     (dict_get_default marker (lit "examples") VNone)
                     init_state) with
        | Ok true => fst (checks_from_xor marker init_state)
        | other => other
        end
    | other => other
    end.
Proof.
  unfold checks_after_id.
  set (F := dict_get_default marker (lit "frame") VNone).
  set (E := dict_get_default marker (lit "examples") VNone).
  unfold vbind at 1. cbn [enter init_state errors warnings ran app].
  unfold vbind at 1.
  rewrite (appends_validate_frame_structure F).
  destruct (validate_frame_structure F init_state) as [rf df].
  cbn [fst snd].
  destruct rf as [[|]|e]; cbn [negb]; try reflexivity.
  unfold vbind at 1. cbn [enter]. unfold vbind at 1.
  rewrite (appends_validate_examples E).
  destruct (validate_examples E init_state) as [re de].
  cbn [fst snd].
  destruct re as [[|]|e]; cbn [negb]; try reflexivity.
  unfold vbind at 1. cbn [enter].
  now rewrite (appends_checks_from_xor marker).
Qed.

(** C8, as stated, fails: a frame that has the four required keys and one
    more is accepted without an error, and a marker with such a frame is
    valid. *)
Lemma extra_frame_key_is_accepted :
  dict_keys frame_with_note
  = [lit "signal"; lit "concept"; lit "pragmatics"; lit "narrative";
     lit "note"]
  /\ validate_frame_structure (VDict frame_with_note) init_state
     = (Ok true, init_state)
  /\ fst (validate_marker marker_with_note) = Ok true
  /\ errors (snd (validate_marker marker_with_note)) = [].
Proof. repeat split; reflexivity. Qed.

(** C8, amended.  On a frame that is a mapping, [validate_frame_structure]
    raises nothing and adds exactly one error when it rejects and none
    when it accepts; it rejects if and only if one of the four required
    keys is missing or one of the four values is no string.  A key beyond
    the four changes nothing: a frame that is accepted stays accepted
    with any extra key.  A rejected frame stops [validate_marker] right
    after the frame check. *)
Theorem validate_frame_structure_rejects_iff (frame : dict) (st : vstate) :
  (exists ws e,
     validate_frame_structure (VDict frame) st
     = (Ok (frame_accepted frame),
        {| errors := errors st ++ (if frame_accepted frame then [] else [e]);
           warnings := warnings st ++ ws; ran := ran st |}))
  /\ (frame_accepted frame = false <->
      (exists k, In k frame_fields /\ dict_get frame k = None)
      \/ (exists k v, In k frame_fields /\ dict_get frame k = Some v
                      /\ is_str v = false))
  /\ (forall k v, ~ In k frame_fields -> frame_accepted frame = true ->
      frame_accepted (dict_set frame k v) = true)
  /\ (forall m,
        missing_from required_fields m = [] ->
        dict_get m (lit "frame") = Some (VDict frame) ->
        frame_accepted frame = false ->
        fst (validate_marker m) = Ok false
        /\ ran (snd (validate_marker m)) = [CkFrame]).
Proof.
  split; [apply validate_frame_structure_verdict|]. split; [|split].
  - unfold frame_accepted. split.
    + intros H.
      assert (Hex : exists k, In k frame_fields
                              /\ field_is_str frame k = false).
      { induction frame_fields as [|k l IH]; [discriminate|].
        simpl in H. destruct (field_is_str frame k) eqn:E.
        - destruct (IH H) as (k' & Hin & Hk'). exists k'. simpl. auto.
        - exists k. simpl. auto. }
      destruct Hex as (k & Hin & Hk). unfold field_is_str in Hk.
      destruct (dict_get frame k) as [v|] eqn:E; [right|left]; eauto.
    + intros H.
      assert (Hex : exists k, In k frame_fields
                              /\ field_is_str frame k = false).
      { destruct H as [(k & Hin & E)|(k & v & Hin & E & Hv)];
          exists k; unfold field_is_str; rewrite E; auto. }
      destruct Hex as (k & Hin & Hk).
      destruct (forallb (field_is_str frame) frame_fields) eqn:E;
        [|reflexivity].
      rewrite forallb_forall in E. rewrite (E k Hin) in Hk. discriminate.
  - intros k v Hk. unfold frame_accepted. rewrite !forallb_forall.
    intros H k' Hin. specialize (H k' Hin). unfold field_is_str in *.
    rewrite dict_get_set_other; [assumption|].
    apply str_eqb_neq. intros ->. contradiction.
  - intros m Hm Hf Hacc.
    pose proof (validate_marker_with_required m Hm) as E. cbv zeta in E.
    rewrite E. cbn [fst snd ran].
    rewrite checks_after_id_fst, checks_after_id_ran. unfold checks_reached.
    unfold dict_get_default. rewrite Hf.
    destruct (validate_frame_structure_verdict frame init_state)
      as (ws & e & Ev).
    rewrite Ev, Hacc. cbn [fst]. split; reflexivity.
Qed.

Lemma validate_frame_structure_rejects_iff_witness :
  frame_accepted (dict_set (frame_templates ENTITY) (lit "note") VNone) = true
  /\ fst (validate_marker
            (dict_set scenario_a_normalized (lit "frame")
               (VDict [(lit "signal", VStr (lit "s"))]))) = Ok false
  /\ ran (snd (validate_marker
                 (dict_set scenario_a_normalized (lit "frame")
                    (VDict [(lit "signal", VStr (lit "s"))])))) = [CkFrame].
Proof.
  pose proof (validate_frame_structure_rejects_iff (frame_templates ENTITY)
                init_state) as (_ & _ & Hextra & _).
  pose proof (validate_frame_structure_rejects_iff
                [(lit "signal", VStr (lit "s"))] init_state)
    as (_ & _ & _ & Hstop).
  split.
  - apply Hextra; [|reflexivity].
    intros [H|[H|[H|[H|[]]]]]; discriminate H.
  - apply Hstop; reflexivity.
Defined.

(* ================================================================== *)
(** ** The quality score *)
(* ================================================================== *)

(** C3, the failing inputs: two markers that the validator accepts.
    The first has a metadata field that is [None]: [validate_metadata]
    returns [True] for it, [field in metadata] raises a [TypeError] in
    the scorer, and the marker ends with status [ERROR] and no score,
    where the specified score is 100, rated Excellent.  The second has a
    frame with a fifth key: the validator accepts it with three warnings
    (the repeated example), the four frame values have 165 characters
    (41.25 on average), and the score of the code is 90, rated Excellent,
    where the specified score is 85, rated Good: the code sums the
    lengths of all five values and divides by four. *)
Lemma score_diverges_on_valid_markers :
  (fst (validate_marker marker_with_null_metadata) = Ok true
   /\ warnings (snd (validate_marker marker_with_null_metadata)) = []
   /\ calculate_quality_score marker_with_null_metadata [] = Raise TypeError
   /\ q_status (qualify_marker (VDict marker_with_null_metadata)) = ERROR
   /\ specified_score marker_with_null_metadata 0 = (100%Q, Excellent))
  /\
  (fst (validate_marker marker_with_note) = Ok true
   /\ List.length (warnings (snd (validate_marker marker_with_note))) = 3
   /\ four_fields_length marker_with_note = 165
   /\ frame_length_sum (VDict frame_with_note) = Ok 207
   /\ calculate_quality_score marker_with_note
        (warnings (snd (validate_marker marker_with_note)))
      = Ok (90%Q, Excellent)
   /\ q_status (qualify_marker (VDict marker_with_note)) = QUALIFIED
   /\ specified_score marker_with_note 3 = (85%Q, Good)).
Proof. repeat split; reflexivity. Qed.

Lemma rating_of_limits (score : Q) :
  rating_of (py_max 0 (py_min 100 score)) = rating_of score.
Proof.
  unfold py_max, py_min, Qltb, rating_of.
  destruct (Qle_bool 100 score) eqn:H100; cbn [negb].
  - destruct (Qle_bool 100 0) eqn:H0; cbn [negb].
    + apply Qle_bool_iff in H0. lra.
    + apply Qle_bool_iff in H100.
      assert (H90 : Qle_bool 90 score = true) by (apply Qle_bool_iff; lra).
      rewrite H90. reflexivity.
  - destruct (Qle_bool score 0) eqn:H0; cbn [negb]; [|reflexivity].
    apply Qle_bool_iff in H0.
    assert (H : forall t, (0 < t)%Q -> Qle_bool t score = false).
    { intros t Ht. destruct (Qle_bool t score) eqn:E; [|reflexivity].
      apply Qle_bool_iff in E. lra. }
    rewrite !H by lra. reflexivity.
Qed.

(** X2.  The rating of the score before the limits (the one the code
    takes) is the rating of the score after them: the limits 0 and 100
    lie outside the thresholds. *)
Theorem rating_of_clamped (score : Q) :
  rating_of (py_max 0 (py_min 100 score)) = rating_of score.
Proof. exact (rating_of_limits score). Qed.

Lemma list_sum_map_perm (g : str -> nat) (l l' : list str) :
  Permutation l l' -> list_sum (map g l) = list_sum (map g l').
Proof.
  induction 1; simpl; lia.
Qed.

Lemma sum_lengths_strings (frame : dict) (keys : list str) :
  forallb (field_is_str frame) keys = true ->
  sum_lengths frame keys = Ok (list_sum (map (field_length frame) keys)).
Proof.
  induction keys as [|k keys IH]; [reflexivity|].
  cbn [forallb]. intros H. apply andb_true_iff in H as [Hk Hr].
  cbn [sum_lengths map list_sum]. rewrite (IH Hr).
  unfold field_is_str, field_length, dict_get_default in *.
  destruct (dict_get frame k) as [[ |b|z|s|l|d]|]; try discriminate.
  reflexivity.
Qed.

Lemma all_in_dict (fields : list str) (metadata : dict) :
  all_in fields (VDict metadata) = Ok (forallb (dict_has metadata) fields).
Proof.
  induction fields as [|f fields IH]; [reflexivity|].
  cbn [all_in py_in bind forallb]. destruct (dict_has metadata f); auto.
Qed.

(** The score of the code and the score as specified. *)
Lemma calculate_quality_score_specified (m : dict)
  (ws : list vwarning) (frame : dict) (examples : list pyval) :
  dict_get m (lit "frame") = Some (VDict frame) ->
  Permutation (dict_keys frame) frame_fields ->
  frame_accepted frame = true ->
  dict_get m (lit "examples") = Some (VList examples) ->
  (dict_get m (lit "metadata") = None
   \/ exists metadata, dict_get m (lit "metadata") = Some (VDict metadata)) ->
  calculate_quality_score m ws = Ok (specified_score m (List.length ws)).
Proof.
  intros Hf Hperm Hacc Hex Hmeta.
  assert (Hsum : frame_length_sum (VDict frame)
                 = Ok (four_fields_length m)).
  { unfold frame_length_sum, four_fields_length. rewrite Hf.
    rewrite sum_lengths_strings.
    - f_equal. now apply list_sum_map_perm.
    - unfold frame_accepted in Hacc. rewrite forallb_forall in *.
      intros k Hk. apply Hacc. eapply Permutation_in; eassumption. }
  unfold calculate_quality_score, specified_score, specified_raw_score,
    metadata_complete, example_count, dict_get_default.
  rewrite Hf, Hex, Hsum. cbn [py_len bind].
  destruct Hmeta as [Hm|[metadata Hm]]; rewrite Hm.
  - cbn [bind]. now rewrite rating_of_limits.
  - rewrite all_in_dict. cbn [bind]. now rewrite rating_of_limits.
Qed.

(** X1.  The score and the rating of the code are the specified ones on
    a marker whose frame has the four frame fields, as strings, and no
    other key (and whose examples are a list and whose metadata, if any,
    is a mapping). *)
Lemma calculate_quality_score_four_fields (m : dict)
  (ws : list vwarning) (frame : dict) (examples : list pyval) :
  dict_get m (lit "frame") = Some (VDict frame) ->
  Permutation (dict_keys frame) frame_fields ->
  frame_accepted frame = true ->
  dict_get m (lit "examples") = Some (VList examples) ->
  (dict_get m (lit "metadata") = None
   \/ exists metadata, dict_get m (lit "metadata") = Some (VDict metadata)) ->
  calculate_quality_score m ws = Ok (specified_score m (List.length ws)).
Proof. apply calculate_quality_score_specified. Qed.

(** Scenario A of the specification, through both passes. *)
Example scenario_a_qualifies :
  fst (validate_marker scenario_a_normalized) = Ok true
  /\ warnings (snd (validate_marker scenario_a_normalized)) = []
  /\ calculate_quality_score scenario_a_normalized [] = Ok (100%Q, Excellent).
Proof. repeat split; reflexivity. Qed.

Lemma calculate_quality_score_four_fields_witness :
  calculate_quality_score scenario_a_normalized []
  = Ok (specified_score scenario_a_normalized 0).
Proof.
  apply (calculate_quality_score_four_fields scenario_a_normalized []
           (dict_set (frame_templates ENTITY) (lit "signal")
              (VStr (lit "Named entity detection patterns for A_LOC_CAFE")))
           (map VStr (ensure_minimum_examples
                        (dict_get_default scenario_a (lit "beispiele")
                           (VList []))))).
  - reflexivity.
  - apply Permutation_refl.
  - reflexivity.
  - reflexivity.
  - right. eexists. reflexivity.
Defined.

(* ================================================================== *)
(** ** More about stripping and searching *)
(* ================================================================== *)

Section StripFacts.

Lemma lstrip_head (s : str) (c : ascii) (t : str) :
  lstrip s = c :: t -> isspace c = false.
Proof.
  induction s as [|a s IH]; cbn [lstrip]; [discriminate|].
  destruct (isspace a) eqn:E; [exact IH|].
  intros H. injection H as Ha _. now subst c.
Qed.

Lemma lstrip_idempotent (s : str) : lstrip (lstrip s) = lstrip s.
Proof.
  destruct (lstrip s) as [|c t] eqn:E; [reflexivity|].
  apply lstrip_nonspace. eapply lstrip_head; eassumption.
Qed.

Lemma rstrip_idempotent (s : str) : rstrip (rstrip s) = rstrip s.
Proof. unfold rstrip. now rewrite rev_involutive, lstrip_idempotent. Qed.

Lemma all_space_rev (w : str) : all_space w -> all_space (rev w).
Proof.
  unfold all_space. rewrite !forallb_forall. intros H c Hc.
  apply H. now apply in_rev.
Qed.

Lemma rstrip_space_suffix (l : str) :
  exists w, l = rstrip l ++ w /\ all_space w.
Proof.
  destruct (lstrip_suffix (rev l)) as [w [E Hw]].
  exists (rev w). split; [|now apply all_space_rev].
  unfold rstrip. rewrite <- rev_app_distr, <- E. now rewrite rev_involutive.
Qed.

Lemma rstrip_snoc_space (a : str) (c : ascii) :
  isspace c = true -> rstrip (a ++ [c]) = rstrip a.
Proof.
  intros H. unfold rstrip. rewrite rev_app_distr.
  change (rev [c] ++ rev a) with (c :: rev a).
  cbn [lstrip]. now rewrite H.
Qed.

Lemma rstrip_length (l : str) : List.length (rstrip l) <= List.length l.
Proof.
  destruct (rstrip_prefix l) as [w E].
  rewrite E at 2. rewrite length_app. lia.
Qed.

Lemma rstrip_of_suffix (w z : str) : rstrip (w ++ z) = w ++ z -> rstrip z = z.
Proof.
  destruct z as [|c a _] using rev_ind; [reflexivity|].
  rewrite app_assoc. intros H.
  destruct (isspace c) eqn:E.
  - rewrite rstrip_snoc_space in H by exact E.
    apply (f_equal (@List.length _)) in H.
    pose proof (rstrip_length (w ++ a)) as L.
    rewrite (length_app (w ++ a) [c]) in H. cbn [List.length] in H. lia.
  - now apply rstrip_snoc_nonspace.
Qed.

(** Stripping a stripped text changes nothing. *)
Lemma strip_idempotent (s : str) : strip (strip s) = strip s.
Proof.
  unfold strip.
  assert (H : rstrip (lstrip (rstrip s)) = lstrip (rstrip s)).
  { destruct (lstrip_suffix (rstrip s)) as [w [E _]].
    apply (rstrip_of_suffix w). rewrite <- E. apply rstrip_idempotent. }
  rewrite H. apply lstrip_idempotent.
Qed.

(** A text that starts with a character that is no white space keeps
    that start when it is stripped. *)
Lemma strip_nonblank (c : ascii) (t : str) :
  isspace c = false -> exists t', strip (c :: t) = c :: t'.
Proof.
  intros Hc. destruct (rstrip_space_suffix (c :: t)) as [w [E Hw]].
  unfold strip. destruct (rstrip (c :: t)) as [|c' t'].
  - cbn [app] in E. subst w. unfold all_space in Hw.
    cbn [forallb] in Hw. rewrite Hc in Hw. discriminate.
  - cbn [app] in E. injection E as Ec _. subst c'.
    exists t'. now apply lstrip_nonspace.
Qed.

Lemma strip_head (s : str) (c : ascii) (t : str) :
  strip s = c :: t -> isspace c = false.
Proof. unfold strip. apply lstrip_head. Qed.

Lemma strip_parts (s : str) :
  exists w w', s = w ++ strip s ++ w' /\ all_space w /\ all_space w'.
Proof.
  destruct (rstrip_space_suffix s) as [w' [E' Hw']].
  destruct (lstrip_suffix (rstrip s)) as [w [E Hw]].
  exists w, w'. unfold strip. rewrite app_assoc, <- E. now repeat split.
Qed.

Lemma strip_no_char (ch : ascii) (s : str) :
  has_char ch s = false -> has_char ch (strip s) = false.
Proof.
  destruct (strip_parts s) as [w [w' [E _]]]. unfold has_char.
  rewrite E at 1. rewrite !existsb_app.
  intros H. apply orb_false_iff in H. destruct H as [_ H].
  apply orb_false_iff in H. tauto.
Qed.

Lemma split1_head_no_sep (c : ascii) (l : str) :
  has_char c (nth 0 (split1 c l) []) = false.
Proof.
  induction l as [|a l IH]; [reflexivity|].
  cbn [split1]. destruct (Ascii.eqb a c) eqn:E; [reflexivity|].
  rewrite Ascii.eqb_sym in E.
  destruct (split1 c l) as [|l0 ls]; cbn [nth has_char existsb] in *;
    rewrite E; [reflexivity|exact IH].
Qed.

(** [replace] leaves a text without an occurrence as it is. *)
Lemma replace_absent (old new s : str) :
  contains old s = false -> replace old new s = s.
Proof.
  unfold replace. induction s as [|c t IH]; [reflexivity|].
  cbn [contains replace_from]. intros H.
  apply orb_false_iff in H. destruct H as [H1 H2].
  rewrite H1. f_equal. now apply IH.
Qed.

Lemma dashes_ok_contains (k : nat) (s : str) :
  dashes_ok k s = true -> contains (lit "---") s = false.
Proof.
  revert k. induction s as [|c t IH]; intros k H; [reflexivity|].
  cbn [contains]. rewrite (dashes_ok_no_triple k _ H). cbn [orb].
  cbn [dashes_ok] in H. destruct (Ascii.eqb c DASH).
  - apply andb_true_iff in H. destruct H as [_ H]. eapply IH; eassumption.
  - eapply IH; eassumption.
Qed.

Lemma no_tab_has_char (s : str) : no_tab s <-> has_char TAB s = false.
Proof.
  unfold no_tab, has_char. induction s as [|c t IH]; [easy|].
  cbn [forallb existsb]. rewrite (Ascii.eqb_sym TAB c).
  destruct (Ascii.eqb c TAB); cbn [negb andb orb]; [easy|exact IH].
Qed.

Lemma is_identifier_start (s : str) :
  is_identifier s = true ->
  is_empty s = false /\ startswith (lit "-") s = false.
Proof.
  destruct s as [|c t]; [discriminate|]. cbn [is_identifier is_empty].
  intros H. apply andb_true_iff in H. destruct H as [H _]. split; [easy|].
  change (startswith (lit "-") (c :: t)) with (Ascii.eqb DASH c && true).
  destruct (Ascii.eqb DASH c) eqn:E; [|reflexivity].
  apply Ascii.eqb_eq in E. subst c. discriminate.
Qed.

Lemma all_space_no_colon (w : str) : all_space w -> has_char COLON w = false.
Proof.
  unfold all_space, has_char. induction w as [|c w IH]; [reflexivity|].
  cbn [forallb existsb]. intros H. apply andb_true_iff in H.
  destruct H as [Hc Hw]. rewrite (IH Hw), orb_false_r.
  rewrite Ascii.eqb_sym. now apply space_neq.
Qed.

Lemma alnum_no_colon (t : str) :
  forallb is_alnum_ t = true -> has_char COLON t = false.
Proof.
  unfold has_char. induction t as [|c t IH]; [reflexivity|].
  cbn [forallb existsb]. intros H. apply andb_true_iff in H.
  destruct H as [Hc Ht]. rewrite (IH Ht), orb_false_r.
  destruct (Ascii.eqb COLON c) eqn:E; [|reflexivity].
  apply Ascii.eqb_eq in E. subst c. discriminate.
Qed.

(** A line that is a bare identifier has no colon. *)
Lemma identifier_no_colon (l : str) :
  is_identifier (strip l) = true -> has_char COLON l = false.
Proof.
  intros H. destruct (strip_parts l) as [w [w' [E [Hw Hw']]]].
  rewrite E. unfold has_char. rewrite !existsb_app.
  fold (has_char COLON w). fold (has_char COLON (strip l)).
  fold (has_char COLON w').
  rewrite (all_space_no_colon w Hw), (all_space_no_colon w' Hw').
  rewrite orb_false_r. cbn [orb].
  destruct (strip l) as [|c t]; [discriminate|].
  cbn [is_identifier] in H. apply andb_true_iff in H. destruct H as [Hc Ht].
  apply alnum_no_colon. cbn [forallb]. rewrite Ht, andb_true_r.
  unfold is_alnum_. now rewrite Hc.
Qed.

Lemma repair_line_fixed_iff (l : str) :
  repair_line l = l <-> no_bare_identifier l.
Proof.
  unfold repair_line, no_bare_identifier. split.
  - intros H. destruct (is_identifier (strip l)) eqn:Hid; [|reflexivity].
    destruct (is_identifier_start _ Hid) as [H1 H2].
    pose proof (identifier_no_colon l Hid) as E.
    rewrite H1, H2, E in H. cbn [negb andb] in H.
    rewrite <- H in E.
    change (lit ":") with [COLON] in E. now rewrite has_char_snoc in E.
  - intros ->. now destruct (_ && _).
Qed.

End StripFacts.

(* ================================================================== *)
(** ** The repaired text *)
(* ================================================================== *)

(** X5.  What [repair_yaml_content] returns has no three dashes in a row
    and no tab, and none of its lines is a bare identifier; and the
    texts that the repair leaves as they are are exactly those with
    these three properties that the substitution of the list items
    leaves as they are. *)
Theorem repair_yaml_content_clean (content : str) :
  (contains (lit "---") (repair_yaml_content content) = false
   /\ has_char TAB (repair_yaml_content content) = false
   /\ Forall no_bare_identifier (split NL (repair_yaml_content content)))
  /\ (repair_yaml_content content = content
      <-> contains (lit "---") content = false
          /\ has_char TAB content = false
          /\ Forall no_bare_identifier (split NL content)
          /\ re_sub_items content = content).
Proof.
  assert (Hpost : forall c,
            contains (lit "---") (repair_yaml_content c) = false
            /\ has_char TAB (repair_yaml_content c) = false
            /\ Forall no_bare_identifier (split NL (repair_yaml_content c))).
  { intros c. destruct (repair_yaml_content_invariants c) as [H1 [H2 H3]].
    repeat split.
    - eapply dashes_ok_contains; exact H1.
    - now apply no_tab_has_char.
    - eapply Forall_impl; [|exact H3]. intros l. apply repair_line_fixed_iff. }
  split; [apply Hpost|]. split.
  - intros E. destruct (Hpost content) as [H1 [H2 H3]].
    rewrite E in H1, H2, H3. repeat split; try assumption.
    rewrite <- E at 1. rewrite repair_yaml_content_steps.
    rewrite re_sub_items_idempotent. rewrite <- repair_yaml_content_steps.
    exact E.
  - intros [H1 [H2 [H3 H4]]]. rewrite repair_yaml_content_steps.
    unfold remove_separators. rewrite (replace_absent _ _ _ H1).
    rewrite expand_tabs_fixed by now apply no_tab_has_char.
    rewrite repair_lines_fixed; [exact H4|].
    eapply Forall_impl; [|exact H3]. intros l. apply repair_line_fixed_iff.
Qed.

(** X6.  The substitution of [repair_yaml_content] puts a quoted list
    item in the form of two spaces, a dash, a space and the quoted text,
    whatever white space stood before the dash and between the dash and
    the quote: line breaks count as white space there, so blank lines
    before the item and a break after the dash go away. *)
Theorem quoted_item_reindented (w1 w2 x rest : str) :
  all_space w1 -> all_space w2 -> x <> [] -> no_nl x ->
  re_sub_items (w1 ++ DASH :: w2 ++ DQUOTE :: x ++ [DQUOTE])
  = item_template x
  /\ re_sub_items (w1 ++ DASH :: w2 ++ DQUOTE :: x ++ DQUOTE :: NL :: rest)
     = item_template x ++ NL :: re_sub_items rest.
Proof.
  intros H1 H2 Hx Hnl. split.
  - rewrite (re_sub_items_match _ x []).
    + cbn [resume]. apply app_nil_r.
    + apply match_item_intro; try assumption. now left.
  - rewrite (re_sub_items_match _ x (NL :: rest)); [reflexivity|].
    apply match_item_intro; try assumption. right. now exists rest.
Qed.

Lemma quoted_item_reindented_witness :
  re_sub_items ([NL; SPACE] ++ DASH :: [NL] ++ DQUOTE :: lit "x" ++ [DQUOTE])
  = item_template (lit "x")
  /\ re_sub_items
       ([NL; SPACE] ++ DASH :: [NL] ++ DQUOTE :: lit "x"
        ++ DQUOTE :: NL :: lit "b:")
     = item_template (lit "x") ++ NL :: re_sub_items (lit "b:").
Proof.
  apply (quoted_item_reindented [NL; SPACE] [NL] (lit "x") (lit "b:")).
  - reflexivity.
  - reflexivity.
  - discriminate.
  - reflexivity.
Defined.

(* ================================================================== *)
(** ** The outcome of the recovering parser *)
(* ================================================================== *)

(** X7.  A call of [parse_with_recovery] ends in one of three ways: it
    returns a value and no error text, or it returns no value and an
    error text, or an exception that is no [yaml.YAMLError] leaves it
    and no pair is returned.  A returned value is true in the sense of
    [if], an error text is not empty.  An exception leaves it exactly
    when the file was read and the direct parse raised it, or the direct
    parse gave nothing usable and the parse of the repaired text raised
    it; the strategies tried are then the direct one, or the direct and
    the repaired one.  The strategies are tried in the order direct,
    repaired, salvage, and none is tried exactly when the file could not
    be read. *)
Theorem parse_with_recovery_outcome (safe_load : str -> yaml_result)
  (file : file_read) :
  let o := parse_with_recovery safe_load file in
  ((raised o = None
    /\ exists v, parsed o = Some v /\ truthy v = true /\ error o = None)
   \/ (raised o = None /\ parsed o = None
       /\ exists msg, error o = Some msg /\ msg <> [])
   \/ (parsed o = None /\ error o = None
       /\ exists e, raised o = Some e))
  /\ (forall e,
        raised o = Some e
        <-> exists content,
              file = ReadOk content
              /\ ((safe_load content = YamlRaises e
                   /\ invoked o = [Direct])
                  \/ (usable (safe_load content) = Ok None
                      /\ safe_load (repair_yaml_content content)
                         = YamlRaises e
                      /\ invoked o = [Direct; Repaired])))
  /\ (exists rest, [Direct; Repaired; Salvage] = invoked o ++ rest)
  /\ (invoked o = [] <-> exists message, file = ReadFailed message).
Proof.
  assert (U : forall r v, usable r = Ok (Some v) -> truthy v = true).
  { intros [v'| |e] v; cbn [usable]; [|discriminate|discriminate].
    destruct (truthy v') eqn:E; [|discriminate].
    intros H. injection H as <-. exact E. }
  assert (R : forall r e, usable r = Raise e <-> r = YamlRaises e).
  { intros [v'| |e'] e; cbn [usable]; split; intros H;
      try discriminate; congruence. }
  cbv zeta.
  destruct file as [content|message]; cbn [parse_with_recovery].
  - destruct (usable (safe_load content)) as [[v|]|e1] eqn:E1.
    + cbn [parsed error invoked raised escapes].
      split; [|split; [|split]].
      * left. split; [reflexivity|]. exists v.
        split; [reflexivity|]. split; [eapply U; eassumption|reflexivity].
      * intros e. split; [discriminate|].
        intros [c [Hc [[H _]|[H _]]]]; injection Hc as <-.
        -- apply R in H. congruence.
        -- congruence.
      * now exists [Repaired; Salvage].
      * split; [discriminate|]. intros [m H]. discriminate.
    + destruct (usable (safe_load (repair_yaml_content content)))
        as [[v|]|e2] eqn:E2.
      * cbn [parsed error invoked raised escapes].
        split; [|split; [|split]].
        -- left. split; [reflexivity|]. exists v.
           split; [reflexivity|].
           split; [eapply U; eassumption|reflexivity].
        -- intros e. split; [discriminate|].
           intros [c [Hc [[H _]|[_ [H _]]]]]; injection Hc as <-.
           ++ apply R in H. congruence.
           ++ apply R in H. congruence.
        -- now exists [Salvage].
        -- split; [discriminate|]. intros [m H]. discriminate.
      * assert (N : forall e : exn,
                   (exists c,
                      ReadOk content = ReadOk c
                      /\ ((safe_load c = YamlRaises e
                           /\ [Direct; Repaired; Salvage] = [Direct])
                          \/ (usable (safe_load c) = Ok None
                              /\ safe_load (repair_yaml_content c)
                                 = YamlRaises e
                              /\ [Direct; Repaired; Salvage]
                                 = [Direct; Repaired]))) -> False).
        { intros e [c [Hc [[_ H]|[_ [_ H]]]]]; discriminate. }
        destruct (truthy (VDict (line_salvage content))) eqn:E3;
          cbn [parsed error invoked raised escapes];
          (split; [|split; [|split]]).
        -- left. split; [reflexivity|].
           exists (VDict (line_salvage content)). now repeat split.
        -- intros e. split; [discriminate|]. intros H.
           exfalso. exact (N e H).
        -- now exists [].
        -- split; [discriminate|]. intros [m H]. discriminate.
        -- right. left. split; [reflexivity|]. split; [reflexivity|].
           eexists. split; [reflexivity|]. discriminate.
        -- intros e. split; [discriminate|]. intros H.
           exfalso. exact (N e H).
        -- now exists [].
        -- split; [discriminate|]. intros [m H]. discriminate.
      * cbn [parsed error invoked raised escapes].
        split; [|split; [|split]].
        -- right. right. split; [reflexivity|]. split; [reflexivity|].
           now exists e2.
        -- intros e. split.
           ++ intros H. injection H as <-. exists content.
              split; [reflexivity|]. right.
              split; [exact E1|]. split; [now apply R|reflexivity].
           ++ intros [c [Hc [[_ H]|[_ [H _]]]]]; [discriminate|].
              injection Hc as <-. apply R in H. congruence.
        -- now exists [Salvage].
        -- split; [discriminate|]. intros [m H]. discriminate.
    + cbn [parsed error invoked raised escapes].
      split; [|split; [|split]].
      * right. right. split; [reflexivity|]. split; [reflexivity|].
        now exists e1.
      * intros e. split.
        -- intros H. injection H as <-. exists content.
           split; [reflexivity|]. left. split; [now apply R|reflexivity].
        -- intros [c [Hc [[H _]|[H _]]]]; injection Hc as <-.
           ++ apply R in H. congruence.
           ++ congruence.
      * now exists [Repaired; Salvage].
      * split; [discriminate|]. intros [m H]. discriminate.
  - cbn [parsed error invoked raised].
    split; [|split; [|split]].
    + right. left. split; [reflexivity|]. split; [reflexivity|].
      eexists. split; [reflexivity|]. discriminate.
    + intros e. split; [discriminate|].
      intros [c [Hc _]]. discriminate.
    + now exists [Direct; Repaired; Salvage].
    + split; [|reflexivity]. intros _. now exists message.
Qed.

(* ================================================================== *)
(** ** The entries of the salvaged dictionary *)
(* ================================================================== *)

Section SalvagedEntries.

Lemma dict_keys_set_in (d : dict) (k : str) (v : pyval) (x : str) :
  In x (dict_keys (dict_set d k v)) -> x = k \/ In x (dict_keys d).
Proof.
  induction d as [|[k' v'] d IH]; cbn [dict_set dict_keys map fst In].
  - intros [H|[]]. now left.
  - destruct (str_eqb k k'); cbn [map fst In].
    + intros H. now right.
    + intros [H|H]; [right; now left|].
      destruct (IH H); [now left|right; now right].
Qed.

Lemma dict_set_NoDup (d : dict) (k : str) (v : pyval) :
  NoDup (dict_keys d) -> NoDup (dict_keys (dict_set d k v)).
Proof.
  induction d as [|[k' v'] d IH]; cbn [dict_set dict_keys map fst].
  - intros _. constructor; [easy|constructor].
  - intros H. inversion H as [|? ? Hin Hnd]; subst.
    destruct (str_eqb k k') eqn:E; cbn [map fst]; [exact H|].
    constructor; [|now apply IH].
    intros Hk. apply dict_keys_set_in in Hk. destruct Hk as [Hk|Hk].
    + subst k'. now rewrite str_eqb_refl in E.
    + now apply Hin.
Qed.

Lemma dict_set_Forall (P : str * pyval -> Prop) (d : dict) (k : str)
  (v : pyval) :
  Forall P d -> P (k, v) -> Forall P (dict_set d k v).
Proof.
  intros Hd Hkv. induction d as [|[k' v'] d IH]; cbn [dict_set].
  - now constructor.
  - inversion Hd; subst. destruct (str_eqb k k') eqn:E.
    + apply str_eqb_eq in E. subst k'. now constructor.
    + constructor; [assumption|now apply IH].
Qed.

Lemma joined_value_clean (values : list str) :
  values <> [] -> Forall clean_line values ->
  clean_line (strip (join [NL] values)).
Proof.
  intros Hne Hv. split; [|apply strip_idempotent].
  destruct values as [|v vs]; [easy|].
  inversion Hv as [|? ? [Hv1 Hv2] _]; subst.
  destruct v as [|c t]; [easy|].
  assert (Hc : isspace c = false) by (eapply strip_head; exact Hv2).
  assert (N : forall t', strip (c :: t') <> []).
  { intros t'. destruct (strip_nonblank c t' Hc) as [t'' E']. now rewrite E'. }
  destruct vs; cbn [join app]; apply N.
Qed.

Lemma flush_wellformed (st : salvage_state) :
  salvage_wellformed st ->
  Forall salvaged_entry (flush st) /\ NoDup (dict_keys (flush st)).
Proof.
  intros [Hd [Hn [Hk Hv]]]. unfold flush.
  destruct (current_key st) as [key|] eqn:Ek; [|now split].
  destruct (key_truthy (Some key) && _) eqn:E; [|now split].
  apply andb_true_iff in E. destruct E as [E1 E2].
  destruct (Hk key eq_refl) as [Hs Hc]. split.
  - apply dict_set_Forall; [exact Hd|].
    assert (Hne : current_value st <> []).
    { destruct (current_value st); [discriminate|easy]. }
    destruct (joined_value_clean _ Hne Hv) as [J1 J2].
    repeat split; cbn [fst snd]; try assumption.
    + destruct key; [discriminate|easy].
    + eexists. repeat split; assumption.
  - now apply dict_set_NoDup.
Qed.

Lemma line_step_wellformed (st : salvage_state) (l : str) :
  salvage_wellformed st -> clean_line l ->
  salvage_wellformed (line_step st l).
Proof.
  intros Hst Hl. pose proof (flush_wellformed st Hst) as [F1 F2].
  destruct Hst as [Hd [Hn [Hk Hv]]]. unfold line_step.
  destruct (is_key_line l).
  - split; [exact F1|]. split; [exact F2|]. split.
    + cbn [current_key]. intros k H. injection H as <-. split.
      * apply strip_idempotent.
      * apply strip_no_char, split1_head_no_sep.
    + cbn [current_value].
      destruct (is_empty (rhs_of l)) eqn:E; cbn [negb]; constructor;
        [|constructor].
      split; [|apply strip_idempotent].
      destruct (rhs_of l); [discriminate|easy].
  - destruct (key_truthy (current_key st)).
    + split; [exact Hd|]. split; [exact Hn|]. split; [exact Hk|].
      cbn [current_value]. apply Forall_app.
      split; [assumption|now constructor].
    + split; [exact Hd|]. split; [exact Hn|]. split; [exact Hk|exact Hv].
Qed.

Lemma fold_line_step_wellformed (lines : list str) (st : salvage_state) :
  salvage_wellformed st -> Forall clean_line lines ->
  salvage_wellformed (fold_left line_step lines st).
Proof.
  revert st. induction lines as [|l lines IH]; intros st Hst Hl;
    [exact Hst|].
  inversion Hl; subst. cbn [fold_left]. apply IH; [|assumption].
  now apply line_step_wellformed.
Qed.

Lemma surviving_lines_clean (content : str) :
  Forall clean_line (surviving_lines content).
Proof.
  unfold surviving_lines. apply Forall_forall. intros l Hl.
  apply filter_In in Hl. destruct Hl as [Hin Hs].
  apply in_map_iff in Hin. destruct Hin as [raw [<- _]].
  split; [|apply strip_idempotent].
  unfold skipped in Hs. destruct (strip raw); [discriminate|easy].
Qed.

End SalvagedEntries.

(** X8.  Every entry of the dictionary that the line-by-line recovery
    collects has a key that is not empty, has no white space at its ends
    and has no colon, and a value that is a string, not empty and without
    white space at its ends; and no key is there twice. *)
Theorem line_salvage_entries (content : str) :
  Forall salvaged_entry (line_salvage content)
  /\ NoDup (dict_keys (line_salvage content)).
Proof.
  rewrite line_salvage_surviving. apply flush_wellformed.
  apply fold_line_step_wellformed; [|apply surviving_lines_clean].
  split; [constructor|]. split; [constructor|].
  split; [intros k H; discriminate|constructor].
Qed.

(** X9.  A blank line or a comment line, wherever it stands among the
    lines of a text, does not change what the line-by-line recovery
    collects. *)
Theorem line_salvage_skips_comments (before after : list str) (l : str) :
  Forall no_nl before -> Forall no_nl after -> no_nl l ->
  before ++ after <> [] ->
  skipped (strip l) = true ->
  line_salvage (join [NL] (before ++ l :: after))
  = line_salvage (join [NL] (before ++ after)).
Proof.
  intros Hb Ha Hl Hne Hs. rewrite !line_salvage_surviving. f_equal.
  unfold surviving_lines. rewrite !split_join.
  - rewrite !map_app, !filter_app. cbn [map filter]. now rewrite Hs.
  - exact Hne.
  - apply Forall_app. now split.
  - now destruct before.
  - apply Forall_app. split; [assumption|now constructor].
Qed.

Lemma line_salvage_skips_comments_witness :
  line_salvage (join [NL] ([lit "a: 1"] ++ lit "  # note" :: [lit "b: 2"]))
  = line_salvage (join [NL] ([lit "a: 1"] ++ [lit "b: 2"])).
Proof.
  apply (line_salvage_skips_comments [lit "a: 1"] [lit "b: 2"]
           (lit "  # note")).
  - repeat constructor.
  - repeat constructor.
  - reflexivity.
  - discriminate.
  - reflexivity.
Defined.

(* ================================================================== *)
(** ** The examples, the fields and the frame of a normalized marker *)
(* ================================================================== *)

Section NormalizedParts.

Lemma pad_examples_seq (fuel : nat) (clean : list str) :
  MarkerNormalizer.MIN_EXAMPLES - List.length clean <= fuel ->
  pad_examples fuel clean
  = clean ++ map synthetic_example
               (seq (List.length clean + 1)
                  (MarkerNormalizer.MIN_EXAMPLES - List.length clean)).
Proof.
  revert clean. induction fuel as [|fuel IH]; intros clean H;
    cbn [pad_examples].
  - replace (MarkerNormalizer.MIN_EXAMPLES - List.length clean) with 0 by lia.
    cbn [seq map]. now rewrite app_nil_r.
  - destruct (List.length clean <? MarkerNormalizer.MIN_EXAMPLES) eqn:E.
    + apply Nat.ltb_lt in E.
      rewrite IH by (rewrite length_app; cbn [List.length]; lia).
      rewrite length_app. cbn [List.length]. rewrite <- app_assoc.
      f_equal.
      replace (MarkerNormalizer.MIN_EXAMPLES - List.length clean)
        with (S (MarkerNormalizer.MIN_EXAMPLES - (List.length clean + 1)))
        by lia.
      cbn [seq map app]. do 3 f_equal. lia.
    + apply Nat.ltb_ge in E.
      replace (MarkerNormalizer.MIN_EXAMPLES - List.length clean) with 0
        by lia.
      cbn [seq map]. now rewrite app_nil_r.
Qed.

Lemma clean_examples_nonempty (l : list pyval) :
  Forall (fun ex => ex <> []) (clean_examples l).
Proof.
  induction l as [|v l IH]; [constructor|].
  destruct v; cbn [clean_examples]; try exact IH.
  destruct (keep_example (clean_example s)) eqn:E; [|exact IH].
  constructor; [|exact IH].
  unfold keep_example in E. destruct (clean_example s); [discriminate|easy].
Qed.

Lemma synthetic_example_nonempty (n : nat) : synthetic_example n <> [].
Proof. unfold synthetic_example. cbn [lit list_ascii_of_string app]. easy. Qed.

Lemma py_set_raises (v : pyval) (e : exn) :
  py_set v = Raise e -> e = TypeError.
Proof.
  unfold py_set, py_iter.
  destruct v; cbn [bind]; try (intros H; now injection H as <-);
    match goal with |- context [forallb hashable ?l] =>
      destruct (forallb hashable l) end;
    try discriminate; intros H; now injection H as <-.
Qed.

Lemma dict_keys_set_absent (d : dict) (k : str) (v : pyval) :
  dict_has d k = false -> dict_keys (dict_set d k v) = dict_keys d ++ [k].
Proof.
  unfold dict_has. induction d as [|[k' v'] d IH]; [reflexivity|].
  cbn [dict_get dict_set dict_keys map fst app].
  destruct (str_eqb k k'); [discriminate|].
  intros H. cbn [map fst]. f_equal. now apply IH.
Qed.

Lemma nonblank_cons (c : ascii) (t : str) :
  isspace c = false -> nonblank (c :: t).
Proof.
  intros H. unfold nonblank. destruct (strip_nonblank c t H) as [t' E].
  now rewrite E.
Qed.

(** [validate_frame_structure] has nothing to say about a frame of four
    strings that are not blank. *)
Lemma four_strings_quiet (s1 s2 s3 s4 : str) (st : vstate) :
  nonblank s1 -> nonblank s2 -> nonblank s3 -> nonblank s4 ->
  validate_frame_structure (VDict (four_strings s1 s2 s3 s4)) st
  = (Ok true, st).
Proof.
  unfold nonblank. intros H1 H2 H3 H4. unfold validate_frame_structure.
  change (missing_from frame_fields (four_strings s1 s2 s3 s4)) with (@nil str).
  cbn [List.length Nat.eqb negb frame_fields frame_fields_loop].
  change (dict_get (four_strings s1 s2 s3 s4) (lit "signal"))
    with (Some (VStr s1)).
  change (dict_get (four_strings s1 s2 s3 s4) (lit "concept"))
    with (Some (VStr s2)).
  change (dict_get (four_strings s1 s2 s3 s4) (lit "pragmatics"))
    with (Some (VStr s3)).
  change (dict_get (four_strings s1 s2 s3 s4) (lit "narrative"))
    with (Some (VStr s4)).
  cbn iota. rewrite H1, H2, H3, H4. reflexivity.
Qed.

(** The frame [generate_frame] returns: the template of the category,
    with the signal followed by the name if there is one. *)
Lemma generate_frame_shape (rt : runtime) (marker_data frame : dict) :
  generate_frame rt marker_data = Ok frame ->
  exists c,
    detect_category rt marker_data = Ok c
    /\ frame = dict_set (frame_templates c) (lit "signal")
                 (VStr (template_signal c ++ signal_suffix marker_data)).
Proof.
  unfold generate_frame, signal_suffix.
  destruct (detect_category rt marker_data) as [c|] eqn:Hc; [|discriminate].
  cbn [bind]. intros H. exists c. split; [reflexivity|].
  unfold detect_category in Hc. unfold dict_get_default in *.
  destruct (dict_get marker_data (lit "marker_name")) as [[| | |name| |]|];
    try discriminate; injection H as <-.
  - destruct name as [|a name]; cbn [truthy].
    + rewrite app_nil_r. now destruct c.
    + now destruct c.
  - cbn [truthy]. rewrite app_nil_r. now destruct c.
Qed.

Lemma generated_frame_strings (c : category) (suffix : str) :
  exists s1 s2 s3 s4,
    dict_set (frame_templates c) (lit "signal")
      (VStr (template_signal c ++ suffix))
    = four_strings s1 s2 s3 s4
    /\ s1 = template_signal c ++ suffix
    /\ nonblank s1 /\ nonblank s2 /\ nonblank s3 /\ nonblank s4.
Proof.
  destruct c; do 4 eexists;
    (split; [reflexivity|]); (split; [reflexivity|]);
    (split; [now apply nonblank_cons|]); repeat split; reflexivity.
Qed.

End NormalizedParts.

(** X10.  [ensure_minimum_examples] returns the examples it keeps, in
    their order, followed by the synthetic examples numbered from one
    more than their count up to the minimum: as many entries as the
    larger of the minimum and the number of kept examples, none of them
    empty. *)
Theorem ensure_minimum_examples_shape (examples : pyval) :
  ensure_minimum_examples examples
  = kept_examples examples
    ++ map synthetic_example
         (seq (List.length (kept_examples examples) + 1)
            (MarkerNormalizer.MIN_EXAMPLES
             - List.length (kept_examples examples)))
  /\ List.length (ensure_minimum_examples examples)
     = Nat.max MarkerNormalizer.MIN_EXAMPLES
         (List.length (kept_examples examples))
  /\ Forall (fun ex => ex <> []) (ensure_minimum_examples examples).
Proof.
  assert (E : ensure_minimum_examples examples
              = kept_examples examples
                ++ map synthetic_example
                     (seq (List.length (kept_examples examples) + 1)
                        (MarkerNormalizer.MIN_EXAMPLES
                         - List.length (kept_examples examples)))).
  { unfold ensure_minimum_examples. fold (kept_examples examples).
    apply pad_examples_seq. lia. }
  split; [exact E|]. rewrite E. split.
  - rewrite length_app, length_map, length_seq. lia.
  - apply Forall_app. split.
    + unfold kept_examples. destruct examples; try constructor.
      apply clean_examples_nonempty.
    + apply Forall_forall. intros ex Hex. apply in_map_iff in Hex.
      destruct Hex as [n [<- _]]. apply synthetic_example_nonempty.
Qed.

(** [normalize_marker] raises exactly on the source structures that are
    not well typed. *)
Lemma normalize_marker_raises (rt : runtime) (marker_data : dict)
  (file_name : str) :
  (exists e, normalize_marker rt marker_data file_name = Raise e)
  <-> well_typed_source marker_data = false.
Proof.
  unfold normalize_marker, generate_frame, detect_category, metadata_get,
    well_typed_source, dict_get_default.
  destruct (dict_get marker_data (lit "marker_name")) as [[| | |name| |]|];
    cbn [bind andb];
    try (split; [reflexivity|intros _; eexists; reflexivity]).
  all: destruct (dict_get marker_data (lit "metadata"))
         as [[| | | | |meta]|];
    cbn [bind andb dict_get];
    try (split; [reflexivity|intros _; eexists; reflexivity]);
    try (split; [intros [e H]; discriminate H|intros H; discriminate H]).
  all: destruct (dict_get meta (lit "tags")) as [t|];
    try (split; [intros [e H]; discriminate H|intros H; discriminate H]).
  all: destruct (py_set t) as [tags|e'] eqn:Hs; cbn [bind];
    try (split; [intros [e H]; discriminate H|intros H; discriminate H]).
  all: split; [reflexivity|intros _; eexists; reflexivity].
Qed.

(** The exceptions of [normalize_marker] on a source structure whose
    name is absent or a string. *)
Lemma normalize_marker_raise_cases (rt : runtime) (marker_data : dict)
  (file_name : str) (e : exn) :
  name_is_text marker_data = true ->
  normalize_marker rt marker_data file_name = Raise e
  <-> well_typed_source marker_data = false
      /\ e = if metadata_is_mapping marker_data then TypeError
             else AttributeError.
Proof.
  unfold normalize_marker, generate_frame, detect_category, metadata_get,
    well_typed_source, name_is_text, metadata_is_mapping, dict_get_default.
  destruct (dict_get marker_data (lit "marker_name")) as [[| | |name| |]|];
    cbn [bind andb]; try discriminate; intros _.
  all: destruct (dict_get marker_data (lit "metadata"))
         as [[| | | | |meta]|];
    cbn [bind andb dict_get];
    try (split; [intros H; injection H as <-; now split
                |intros [_ ->]; reflexivity]);
    try (split; [intros H; discriminate H|intros [H _]; discriminate H]).
  all: destruct (dict_get meta (lit "tags")) as [t|];
    try (split; [intros H; discriminate H|intros [H _]; discriminate H]).
  all: destruct (py_set t) as [tags|e'] eqn:Hs; cbn [bind];
    try (split; [intros H; discriminate H|intros [H _]; discriminate H]).
  all: apply py_set_raises in Hs; subst e';
    (split; [intros H; injection H as <-; now split
            |intros [_ ->]; reflexivity]).
Qed.

(** X11.  [normalize_marker] raises exactly on the source structures
    that are not well typed: the name is there and is no string, or the
    metadata is there and is no dictionary, or the tags cannot be put in
    a set.  When the name is absent or a string, the exception is
    [AttributeError] if the metadata is no dictionary, and [TypeError]
    if the metadata is a dictionary and the tags cannot be put in a set.
    (For a name that is no string it is the call of [startswith] that
    fails; the class of that exception depends on the kind of the value
    and is not stated.) *)
Theorem normalize_marker_raises_iff (rt : runtime) (marker_data : dict)
  (file_name : str) :
  ((exists e, normalize_marker rt marker_data file_name = Raise e)
   <-> well_typed_source marker_data = false)
  /\ (name_is_text marker_data = true ->
      forall e,
        normalize_marker rt marker_data file_name = Raise e
        <-> well_typed_source marker_data = false
            /\ e = if metadata_is_mapping marker_data then TypeError
                   else AttributeError).
Proof.
  split.
  - apply normalize_marker_raises.
  - intros H e. now apply normalize_marker_raise_cases.
Qed.

(** X12.  The keys of a normalized marker are [_id], [frame],
    [examples], [pattern], [metadata] and then, for each of the source
    fields [kategorie], [semantische_grabber_id] and [beschreibung] that
    is there, [category], [semantic_id] and [original_description], in
    this order; the first two hold the source values as they are, the
    third the text of the description; the metadata has the four
    recommended keys. *)
Theorem normalize_marker_fields (rt : runtime) (marker_data : dict)
  (file_name : str) (m : dict) :
  normalize_marker rt marker_data file_name = Ok m ->
  dict_keys m
  = [lit "_id"; lit "frame"; lit "examples"; lit "pattern"; lit "metadata"]
    ++ optional_keys marker_data
  /\ dict_get m (lit "category") = dict_get marker_data (lit "kategorie")
  /\ dict_get m (lit "semantic_id")
     = dict_get marker_data (lit "semantische_grabber_id")
  /\ dict_get m (lit "original_description")
     = option_map (fun v => VStr (py_str rt v))
         (dict_get marker_data (lit "beschreibung"))
  /\ exists metadata,
       dict_get m (lit "metadata") = Some (VDict metadata)
       /\ dict_keys metadata = recommended_metadata.
Proof.
  intros H.
  apply normalize_marker_Ok in H
    as (frame & created & author & version & tags_src & tags
        & _ & _ & _ & ->).
  unfold with_optional_fields, set_if_present, optional_keys, dict_has.
  destruct (dict_get marker_data (lit "kategorie"));
    destruct (dict_get marker_data (lit "semantische_grabber_id"));
    destruct (dict_get marker_data (lit "beschreibung"));
    (split; [reflexivity|]); (split; [reflexivity|]);
    (split; [reflexivity|]); (split; [reflexivity|]);
    eexists; split; reflexivity.
Qed.

Lemma normalize_marker_fields_witness :
  dict_keys (normalized_or_empty
               (normalize_marker sample_runtime scenario_a_described
                  (lit "cafe.yaml")))
  = [lit "_id"; lit "frame"; lit "examples"; lit "pattern"; lit "metadata"]
    ++ optional_keys scenario_a_described
  /\ dict_get (normalized_or_empty
                 (normalize_marker sample_runtime scenario_a_described
                    (lit "cafe.yaml"))) (lit "category")
     = dict_get scenario_a_described (lit "kategorie")
  /\ dict_get (normalized_or_empty
                 (normalize_marker sample_runtime scenario_a_described
                    (lit "cafe.yaml"))) (lit "semantic_id")
     = dict_get scenario_a_described (lit "semantische_grabber_id")
  /\ dict_get (normalized_or_empty
                 (normalize_marker sample_runtime scenario_a_described
                    (lit "cafe.yaml"))) (lit "original_description")
     = option_map (fun v => VStr (py_str sample_runtime v))
         (dict_get scenario_a_described (lit "beschreibung"))
  /\ exists metadata,
       dict_get (normalized_or_empty
                   (normalize_marker sample_runtime scenario_a_described
                      (lit "cafe.yaml"))) (lit "metadata")
       = Some (VDict metadata)
       /\ dict_keys metadata = recommended_metadata.
Proof.
  apply (normalize_marker_fields sample_runtime scenario_a_described
           (lit "cafe.yaml")).
  reflexivity.
Defined.

(** X13.  The frame [generate_frame] returns has the four frame fields
    and no other key, in the order of the template; the validator's frame
    check accepts it and adds no error and no warning; its concept,
    pragmatics and narrative are those of the template of the detected
    category, and its signal is the template's signal, followed by
    [for] and the name when the name is not empty. *)
Theorem generate_frame_validates (rt : runtime) (marker_data frame : dict)
  (st : vstate) :
  generate_frame rt marker_data = Ok frame ->
  dict_keys frame = frame_fields
  /\ validate_frame_structure (VDict frame) st = (Ok true, st)
  /\ exists c,
       detect_category rt marker_data = Ok c
       /\ dict_get frame (lit "signal")
          = Some (VStr (template_signal c ++ signal_suffix marker_data))
       /\ dict_get frame (lit "concept")
          = dict_get (frame_templates c) (lit "concept")
       /\ dict_get frame (lit "pragmatics")
          = dict_get (frame_templates c) (lit "pragmatics")
       /\ dict_get frame (lit "narrative")
          = dict_get (frame_templates c) (lit "narrative").
Proof.
  intros H. apply generate_frame_shape in H as [c [Hc ->]].
  destruct (generated_frame_strings c (signal_suffix marker_data))
    as (s1 & s2 & s3 & s4 & E & E1 & N1 & N2 & N3 & N4).
  split; [|split].
  - now rewrite E.
  - rewrite E. now apply four_strings_quiet.
  - exists c. split; [exact Hc|]. rewrite dict_get_set_same.
    split; [reflexivity|].
    rewrite !dict_get_set_other by reflexivity. now repeat split.
Qed.

Lemma generate_frame_validates_witness :
  dict_keys (dict_set (frame_templates ENTITY) (lit "signal")
               (VStr (lit "Named entity detection patterns for A_LOC_CAFE")))
  = frame_fields
  /\ validate_frame_structure
       (VDict (dict_set (frame_templates ENTITY) (lit "signal")
                 (VStr (lit "Named entity detection patterns for A_LOC_CAFE"))))
       init_state
     = (Ok true, init_state)
  /\ exists c,
       detect_category sample_runtime scenario_a = Ok c
       /\ dict_get (dict_set (frame_templates ENTITY) (lit "signal")
                      (VStr (lit "Named entity detection patterns for A_LOC_CAFE")))
            (lit "signal")
          = Some (VStr (template_signal c ++ signal_suffix scenario_a))
       /\ dict_get (dict_set (frame_templates ENTITY) (lit "signal")
                      (VStr (lit "Named entity detection patterns for A_LOC_CAFE")))
            (lit "concept")
          = dict_get (frame_templates c) (lit "concept")
       /\ dict_get (dict_set (frame_templates ENTITY) (lit "signal")
                      (VStr (lit "Named entity detection patterns for A_LOC_CAFE")))
            (lit "pragmatics")
          = dict_get (frame_templates c) (lit "pragmatics")
       /\ dict_get (dict_set (frame_templates ENTITY) (lit "signal")
                      (VStr (lit "Named entity detection patterns for A_LOC_CAFE")))
            (lit "narrative")
          = dict_get (frame_templates c) (lit "narrative").
Proof.
  apply (generate_frame_validates sample_runtime scenario_a).
  reflexivity.
Defined.

(* ================================================================== *)
(** ** The verdicts of the validator *)
(* ================================================================== *)

Section Verdicts.

Lemma outcome_vbind {A B} (m : V A) (k : A -> V B) :
  (forall a, appends (k a)) ->
  outcome_of (vbind m k)
  = match outcome_of m with
    | Ok a => outcome_of (k a)
    | Raise e => Raise e
    end.
Proof.
  intros Hk. unfold outcome_of, vbind.
  destruct (m init_state) as [[a|e] st']; cbn [fst]; [|reflexivity].
  now rewrite (Hk a st').
Qed.

Lemma errors_vbind {A B} (m : V A) (k : A -> V B) :
  (forall a, appends (k a)) ->
  errors_of (vbind m k)
  = errors_of m ++ match outcome_of m with
                   | Ok a => errors_of (k a)
                   | Raise e => []
                   end.
Proof.
  intros Hk. unfold errors_of, outcome_of, vbind.
  destruct (m init_state) as [[a|e] st']; cbn [fst snd].
  - now rewrite (Hk a st').
  - now rewrite app_nil_r.
Qed.

Lemma no_errors_app {A B C} (c : V A) (c1 : V B) (c2 : V C) :
  errors_of c = errors_of c1 ++ errors_of c2 ->
  no_errors c = no_errors c1 && no_errors c2.
Proof.
  unfold no_errors. intros ->. rewrite length_app.
  destruct (errors_of c1); reflexivity.
Qed.

Lemma examples_loop_verdict (l : list pyval) (i : nat) (unique : list str)
  (st : vstate) :
  exists ws e,
    examples_loop i unique l st
    = (Ok (forallb is_str l),
       {| errors := errors st ++ (if forallb is_str l then [] else [e]);
          warnings := warnings st ++ ws; ran := ran st |}).
Proof.
  revert i unique st. induction l as [|v l IH]; intros i unique st.
  - exists [], EExamplesNotList. cbn. rewrite !app_nil_r. now destruct st.
  - destruct v; cbn [examples_loop forallb is_str andb];
      try (exists [], (EExampleNotString i); cbn; now rewrite app_nil_r).
    unfold vbind. destruct (existsb (str_eqb s) unique).
    + unfold add_warning.
      destruct (IH (S i) (s :: unique)
                  {| errors := errors st;
                     warnings := warnings st ++ [WDuplicateExample (take 50 s)];
                     ran := ran st |}) as [ws [e E]].
      exists (WDuplicateExample (take 50 s) :: ws), e.
      etransitivity; [exact E|].
      cbn [errors warnings ran]. now rewrite <- app_assoc.
    + unfold ret. destruct (IH (S i) (s :: unique) st) as [ws [e E]].
      exists ws, e. exact E.
Qed.

Lemma examples_loop_strings_exact (l : list str) (i : nat)
  (unique : list str) (st : vstate) :
  examples_loop i unique (map VStr l) st
  = (Ok true, {| errors := errors st;
                 warnings := warnings st ++ duplicate_warnings unique l;
                 ran := ran st |}).
Proof.
  revert i unique st. induction l as [|ex l IH]; intros i unique st.
  - cbn. rewrite app_nil_r. now destruct st.
  - cbn [examples_loop map duplicate_warnings]. unfold vbind.
    destruct (existsb (str_eqb ex) unique).
    + unfold add_warning. rewrite IH. cbn [errors warnings ran].
      now rewrite <- app_assoc.
    + unfold ret. now rewrite IH.
Qed.

Lemma examples_verdict_at (examples : pyval) (st : vstate) :
  exists ws e,
    validate_examples examples st
    = (Ok (examples_accepted examples),
       {| errors := errors st
                    ++ (if examples_accepted examples then [] else [e]);
          warnings := warnings st ++ ws; ran := ran st |}).
Proof.
  destruct examples as [| | | |l|];
    try (exists [], EExamplesNotList; cbn; now rewrite app_nil_r).
  cbn [validate_examples examples_accepted].
  destruct (List.length l <? MIN_EXAMPLES).
  - exists [], (EInsufficientExamples (List.length l)). cbn.
    now rewrite app_nil_r.
  - cbn [negb andb]. apply examples_loop_verdict.
Qed.

Lemma existsb_str_In (x : str) (l : list str) :
  existsb (str_eqb x) l = true <-> In x l.
Proof.
  rewrite existsb_exists. split.
  - intros [y [Hy E]]. apply str_eqb_eq in E. now subst y.
  - intros H. exists x. split; [exact H|apply str_eqb_refl].
Qed.

Lemma duplicate_count (seen l : list str) :
  List.length (duplicate_warnings seen l) + List.length (distinct_from seen l)
  = List.length l.
Proof.
  revert seen. induction l as [|x l IH]; intros seen; [reflexivity|].
  cbn [duplicate_warnings distinct_from].
  destruct (existsb (str_eqb x) seen); rewrite length_app;
    cbn [List.length app]; rewrite <- (IH (x :: seen)); lia.
Qed.

Lemma distinct_from_In (seen l : list str) (y : str) :
  In y (distinct_from seen l) <-> In y l /\ ~ In y seen.
Proof.
  revert seen. induction l as [|x l IH]; intros seen; [cbn; tauto|].
  cbn [distinct_from].
  destruct (existsb (str_eqb x) seen) eqn:E.
  - apply existsb_str_In in E. rewrite IH. cbn [In]. split.
    + intros [H1 H2]. split; [now right|tauto].
    + intros [[H1|H1] H2]; [now subst y|]. split; [exact H1|].
      intros [H|H]; [now subst y|tauto].
  - assert (Hx : ~ In x seen).
    { intros H. apply existsb_str_In in H. congruence. }
    cbn [In]. rewrite IH. cbn [In]. split.
    + intros [H|[H1 H2]]; [subst y; tauto|tauto].
    + intros [[H1|H1] H2]; [now left|].
      destruct (str_eqb x y) eqn:Exy.
      * apply str_eqb_eq in Exy. now left.
      * apply str_eqb_neq in Exy. right. tauto.
Qed.

Lemma distinct_from_NoDup (seen l : list str) : NoDup (distinct_from seen l).
Proof.
  revert seen. induction l as [|x l IH]; intros seen; [constructor|].
  cbn [distinct_from]. destruct (existsb (str_eqb x) seen); [apply IH|].
  constructor; [|apply IH].
  rewrite distinct_from_In. cbn [In]. tauto.
Qed.

Lemma duplicate_warnings_NoDup (seen l : list str) :
  NoDup l -> (forall x, In x l -> ~ In x seen) ->
  duplicate_warnings seen l = [].
Proof.
  revert seen. induction l as [|x l IH]; intros seen Hnd Hs; [reflexivity|].
  inversion Hnd; subst. cbn [duplicate_warnings].
  destruct (existsb (str_eqb x) seen) eqn:E.
  - apply existsb_str_In in E. exfalso. apply (Hs x); [now left|exact E].
  - cbn [app]. apply IH; [assumption|].
    intros y Hy [H|H]; [now subst y|]. apply (Hs y); [now right|exact H].
Qed.

(** The methods judged: what they return, and whether they add an
    error. *)
Lemma validate_frame_structure_judged (frame : pyval) :
  outcome_of (validate_frame_structure frame) = Ok (frame_ok frame)
  /\ no_errors (validate_frame_structure frame) = frame_ok frame.
Proof.
  unfold outcome_of, no_errors, errors_of.
  destruct frame as [| | | | |f]; try (split; reflexivity).
  destruct (validate_frame_structure_verdict f init_state) as [ws [e E]].
  rewrite E. cbn [fst snd errors init_state app frame_ok].
  now destruct (frame_accepted f).
Qed.

Lemma validate_examples_judged (examples : pyval) :
  outcome_of (validate_examples examples) = Ok (examples_accepted examples)
  /\ no_errors (validate_examples examples) = examples_accepted examples.
Proof.
  unfold outcome_of, no_errors, errors_of.
  destruct (examples_verdict_at examples init_state) as [ws [e E]].
  rewrite E. cbn [fst snd errors init_state app].
  now destruct (examples_accepted examples).
Qed.

Lemma validate_xor_constraint_judged (marker : dict) :
  outcome_of (validate_xor_constraint marker) = Ok (xor_ok marker)
  /\ no_errors (validate_xor_constraint marker) = xor_ok marker.
Proof.
  unfold outcome_of, no_errors, errors_of, validate_xor_constraint, xor_ok.
  now destruct (Nat.eqb _ 1).
Qed.

Lemma validate_pattern_judged (pattern : pyval) :
  outcome_of (validate_pattern pattern) = Ok (is_str pattern)
  /\ no_errors (validate_pattern pattern) = is_str pattern.
Proof.
  unfold outcome_of, no_errors, errors_of.
  destruct pattern; try (split; reflexivity).
  cbn [validate_pattern is_str]. unfold vbind.
  now destruct (is_empty (strip s)).
Qed.

Lemma components_loop_verdict (l : list pyval) (i : nat) (st : vstate) :
  exists e,
    components_loop i l st
    = (Ok (forallb component_ok l),
       {| errors := errors st ++ (if forallb component_ok l then [] else [e]);
          warnings := warnings st; ran := ran st |}).
Proof.
  revert i. induction l as [|v l IH]; intros i.
  - exists EComposedOfNotList. cbn. rewrite app_nil_r. now destruct st.
  - destruct v as [| | | | |c]; cbn [components_loop forallb component_ok andb];
      try (exists (EComponentNotDict i); reflexivity).
    destruct (dict_has c (lit "type") && dict_has c (lit "marker_ids")) eqn:E.
    + apply andb_true_iff in E. destruct E as [-> ->]. cbn [negb orb andb].
      apply IH.
    + exists (EComponentFields i).
      replace (negb (dict_has c (lit "type"))
               || negb (dict_has c (lit "marker_ids"))) with true.
      * reflexivity.
      * destruct (dict_has c (lit "type")), (dict_has c (lit "marker_ids"));
          (reflexivity || discriminate).
Qed.

Lemma validate_composed_of_judged (composed_of : pyval) :
  outcome_of (validate_composed_of composed_of)
  = Ok (composed_of_ok composed_of)
  /\ no_errors (validate_composed_of composed_of)
     = composed_of_ok composed_of.
Proof.
  unfold outcome_of, no_errors, errors_of.
  destruct composed_of as [| | | |l|]; try (split; reflexivity).
  cbn [validate_composed_of composed_of_ok].
  destruct (components_loop_verdict l 0 init_state) as [e E]. rewrite E.
  cbn [fst snd errors init_state app].
  now destruct (forallb component_ok l).
Qed.

Lemma validate_metadata_judged (metadata : pyval) :
  outcome_of (validate_metadata metadata)
  = (if tags_unhashable metadata then Raise TypeError
     else Ok (metadata_ok metadata))
  /\ (tags_unhashable metadata = false ->
      no_errors (validate_metadata metadata) = metadata_ok metadata).
Proof.
  unfold outcome_of, no_errors, errors_of.
  destruct metadata as [| | | | |md]; try (split; reflexivity).
  cbn [validate_metadata tags_unhashable metadata_ok]. unfold vbind.
  destruct (negb (Nat.eqb (List.length (missing_from recommended_metadata md)) 0));
    destruct (dict_get md (lit "tags")) as [[| | | |tags|]|];
    try (split; reflexivity);
    unfold py_set; cbn [py_iter bind];
    destruct (forallb hashable tags); cbn [negb];
    try (split; [reflexivity|discriminate]);
    match goal with |- context [if ?b then add_warning _ else _] =>
      destruct b end; split; reflexivity.
Qed.

Ltac appends_solve :=
  intros;
  repeat first
    [ apply appends_vbind; [|intros ?]
    | apply appends_if
    | apply appends_when_present; intros ? ];
  auto with appends.

Lemma when_present_judged (marker : dict) (key : str) (c : check)
  (method : pyval -> V bool) :
  (forall v, appends (method v)) ->
  outcome_of (when_present marker key c method)
  = match dict_get marker key with
    | Some v => match outcome_of (method v) with
                | Ok _ => Ok tt
                | Raise e => Raise e
                end
    | None => Ok tt
    end
  /\ errors_of (when_present marker key c method)
     = match dict_get marker key with
       | Some v => errors_of (method v)
       | None => []
       end.
Proof.
  intros Hm. unfold when_present.
  destruct (dict_get marker key) as [v|]; [|split; reflexivity]. split.
  - rewrite outcome_vbind by appends_solve.
    change (outcome_of (enter c)) with (Ok tt). cbv beta iota.
    rewrite outcome_vbind by appends_solve.
    now destruct (outcome_of (method v)).
  - rewrite errors_vbind by appends_solve.
    change (outcome_of (enter c)) with (Ok tt).
    change (errors_of (enter c)) with (@nil verror). cbv beta iota.
    rewrite errors_vbind by appends_solve. cbn [app].
    destruct (outcome_of (method v)); now rewrite app_nil_r.
Qed.

Lemma appends_optional_checks (marker : dict) :
  appends (optional_checks marker).
Proof. unfold optional_checks. appends_solve. Qed.

(** The checks after the XOR check raise when the tags cannot be put in
    a set, and else add an error for each of the three optional fields
    that is there and is not as it should be. *)
Lemma optional_checks_judged (marker : dict) :
  outcome_of (optional_checks marker)
  = (if present_ok marker (lit "metadata") (fun v => negb (tags_unhashable v))
     then Ok true else Raise TypeError)
  /\ (present_ok marker (lit "metadata") (fun v => negb (tags_unhashable v))
      = true ->
      no_errors (optional_checks marker)
      = present_ok marker (lit "pattern") is_str
        && present_ok marker (lit "composed_of") composed_of_ok
        && present_ok marker (lit "metadata") metadata_ok).
Proof.
  destruct (when_present_judged marker (lit "pattern") CkPattern
              validate_pattern) as [OP EP]; [auto with appends|].
  destruct (when_present_judged marker (lit "composed_of") CkComposedOf
              validate_composed_of) as [OC EC]; [auto with appends|].
  destruct (when_present_judged marker (lit "metadata") CkMetadata
              validate_metadata) as [OM EM]; [auto with appends|].
  assert (OP2 : outcome_of (when_present marker (lit "pattern") CkPattern
                              validate_pattern) = Ok tt).
  { rewrite OP. destruct (dict_get marker (lit "pattern")) as [v|];
      [|reflexivity].
    now rewrite (proj1 (validate_pattern_judged v)). }
  assert (OC2 : outcome_of (when_present marker (lit "composed_of")
                              CkComposedOf validate_composed_of) = Ok tt).
  { rewrite OC. destruct (dict_get marker (lit "composed_of")) as [v|];
      [|reflexivity].
    now rewrite (proj1 (validate_composed_of_judged v)). }
  assert (OM2 : outcome_of (when_present marker (lit "metadata") CkMetadata
                              validate_metadata)
                = if present_ok marker (lit "metadata")
                       (fun v => negb (tags_unhashable v))
                  then Ok tt else Raise TypeError).
  { rewrite OM. unfold present_ok.
    destruct (dict_get marker (lit "metadata")) as [v|]; [|reflexivity].
    rewrite (proj1 (validate_metadata_judged v)).
    now destruct (tags_unhashable v). }
  assert (EP2 : no_errors (when_present marker (lit "pattern") CkPattern
                             validate_pattern)
                = present_ok marker (lit "pattern") is_str).
  { unfold no_errors, present_ok. rewrite EP.
    destruct (dict_get marker (lit "pattern")) as [v|]; [|reflexivity].
    apply validate_pattern_judged. }
  assert (EC2 : no_errors (when_present marker (lit "composed_of")
                             CkComposedOf validate_composed_of)
                = present_ok marker (lit "composed_of") composed_of_ok).
  { unfold no_errors, present_ok. rewrite EC.
    destruct (dict_get marker (lit "composed_of")) as [v|]; [|reflexivity].
    apply validate_composed_of_judged. }
  assert (EM2 : present_ok marker (lit "metadata")
                  (fun v => negb (tags_unhashable v)) = true ->
                no_errors (when_present marker (lit "metadata") CkMetadata
                             validate_metadata)
                = present_ok marker (lit "metadata") metadata_ok).
  { unfold no_errors, present_ok. rewrite EM.
    destruct (dict_get marker (lit "metadata")) as [v|]; [|reflexivity].
    intros H. apply validate_metadata_judged.
    now destruct (tags_unhashable v). }
  clear OP OC OM EP EC EM. unfold optional_checks. split.
  - rewrite outcome_vbind by appends_solve. rewrite OP2. cbv beta iota.
    rewrite outcome_vbind by appends_solve. rewrite OC2. cbv beta iota.
    rewrite outcome_vbind by appends_solve. rewrite OM2.
    destruct (present_ok marker (lit "metadata") _); [|reflexivity].
    cbv beta iota zeta. rewrite outcome_vbind by appends_solve.
    match goal with |- context [if ?b then add_warning _ else _] =>
      destruct b end; reflexivity.
  - intros Hm. specialize (EM2 Hm). rewrite Hm in OM2.
    unfold no_errors in *. rewrite errors_vbind by appends_solve.
    rewrite OP2. cbv beta iota.
    rewrite errors_vbind by appends_solve. rewrite OC2. cbv beta iota.
    rewrite errors_vbind by appends_solve. rewrite OM2.
    cbv beta iota zeta. rewrite errors_vbind by appends_solve.
    assert (U : forall (b : bool) (w : vwarning),
              errors_of (if b then add_warning w else ret tt) = []
              /\ outcome_of (if b then add_warning w else ret tt) = Ok tt).
    { intros [] w; split; reflexivity. }
    match goal with |- context [if ?b then add_warning ?w else _] =>
      destruct (U b w) as [U1 U2]; rewrite U1, U2 end.
    change (errors_of (ret true)) with (@nil verror).
    rewrite !app_nil_r, !length_app.
    rewrite <- EP2, <- EC2, <- EM2.
    destruct (errors_of (when_present marker (lit "pattern") _ _));
      [|reflexivity].
    destruct (errors_of (when_present marker (lit "composed_of") _ _));
      reflexivity.
Qed.

Lemma checks_from_xor_optional (marker : dict) :
  checks_from_xor marker
  = (xor_ok <~ validate_xor_constraint marker ;;
     if negb xor_ok then ret false else optional_checks marker).
Proof. reflexivity. Qed.

Lemma checks_after_id_judged (marker : dict) :
  let passes :=
    frame_ok (dict_get_default marker (lit "frame") VNone)
    && examples_accepted (dict_get_default marker (lit "examples") VNone)
    && xor_ok marker in
  outcome_of (checks_after_id marker)
  = (if passes then outcome_of (optional_checks marker) else Ok false)
  /\ (passes = true ->
      no_errors (checks_after_id marker) = no_errors (optional_checks marker)).
Proof.
  pose proof (appends_optional_checks marker) as AO.
  destruct (validate_frame_structure_judged
              (dict_get_default marker (lit "frame") VNone)) as [OF EF].
  destruct (validate_examples_judged
              (dict_get_default marker (lit "examples") VNone)) as [OE EE].
  destruct (validate_xor_constraint_judged marker) as [OX EX].
  unfold checks_after_id. rewrite checks_from_xor_optional.
  cbv zeta. split.
  - rewrite outcome_vbind by appends_solve.
    change (outcome_of (enter CkFrame)) with (Ok tt). cbv beta iota.
    rewrite outcome_vbind by appends_solve. rewrite OF. cbv beta iota.
    destruct (frame_ok _); [|reflexivity]. cbn [negb andb].
    rewrite outcome_vbind by appends_solve.
    change (outcome_of (enter CkExamples)) with (Ok tt). cbv beta iota.
    rewrite outcome_vbind by appends_solve. rewrite OE. cbv beta iota.
    destruct (examples_accepted _); [|reflexivity]. cbn [negb andb].
    rewrite outcome_vbind by appends_solve.
    change (outcome_of (enter CkXor)) with (Ok tt). cbv beta iota.
    rewrite outcome_vbind by appends_solve. rewrite OX. cbv beta iota.
    now destruct (xor_ok marker).
  - unfold no_errors in *. intros H.
    apply andb_true_iff in H. destruct H as [H HX].
    apply andb_true_iff in H. destruct H as [HF HE].
    rewrite HF in *. rewrite HE in *. rewrite HX in *.
    apply Nat.eqb_eq, length_zero_iff_nil in EF, EE, EX.
    rewrite errors_vbind by appends_solve.
    change (outcome_of (enter CkFrame)) with (Ok tt).
    change (errors_of (enter CkFrame)) with (@nil verror). cbv beta iota.
    rewrite errors_vbind by appends_solve. rewrite OF, EF. cbv beta iota.
    cbn [negb app].
    rewrite errors_vbind by appends_solve.
    change (outcome_of (enter CkExamples)) with (Ok tt).
    change (errors_of (enter CkExamples)) with (@nil verror). cbv beta iota.
    rewrite errors_vbind by appends_solve. rewrite OE, EE. cbv beta iota.
    cbn [negb app].
    rewrite errors_vbind by appends_solve.
    change (outcome_of (enter CkXor)) with (Ok tt).
    change (errors_of (enter CkXor)) with (@nil verror). cbv beta iota.
    rewrite errors_vbind by appends_solve. rewrite OX, EX. cbv beta iota.
    reflexivity.
Qed.

Lemma finish_judged (c : V bool) :
  fst (finish (c init_state))
  = match outcome_of c with
    | Ok true => Ok (no_errors c)
    | other => other
    end.
Proof.
  unfold finish, outcome_of, no_errors, errors_of.
  now destruct (c init_state) as [[[|]|e] st].
Qed.

Lemma validate_marker_specified (marker : dict) :
  fst (validate_marker marker) = specified_verdict marker.
Proof.
  unfold validate_marker, specified_verdict, reaches_optional_checks.
  destruct (missing_from required_fields marker) as [|f fs] eqn:Hm.
  2: { unfold validate_marker_from. rewrite Hm. reflexivity. }
  rewrite validate_marker_from_checks by exact Hm.
  pose proof (appends_checks_after_id marker) as AC.
  destruct (checks_after_id_judged marker) as [OC EC].
  destruct (optional_checks_judged marker) as [OO EO].
  cbv zeta in OC, EC.
  rewrite finish_judged. unfold no_errors in *.
  rewrite outcome_vbind by appends_solve.
  rewrite errors_vbind by appends_solve.
  assert (I : outcome_of (id_step marker) = Ok tt
              /\ Nat.eqb (List.length (errors_of (id_step marker))) 0
                 = id_ok (dict_get_default marker (lit "_id") VNone)).
  { unfold id_step. now destruct (id_ok _). }
  destruct I as [OI EI]. rewrite OI. cbv beta iota. rewrite OC.
  cbn [List.length Nat.eqb andb].
  destruct (frame_ok _ && examples_accepted _ && xor_ok marker);
    [|reflexivity].
  cbn [negb]. rewrite OO.
  destruct (present_ok marker (lit "metadata") _); [|reflexivity].
  cbn [negb]. rewrite length_app.
  specialize (EC eq_refl). specialize (EO eq_refl).
  rewrite <- !andb_assoc in EO. rewrite <- !andb_assoc.
  rewrite <- EO, <- EC, <- EI.
  now destruct (errors_of (id_step marker)).
Qed.

(** *** Errors where the verdict is [False] *)

Lemma blames_fail (e : verror) : blames (add_error e ;;; ret false).
Proof. intros st _. cbn. now destruct (errors st). Qed.

Lemma blames_vbind {A} (m : V A) (k : A -> V bool) :
  (forall a, blames (k a)) -> blames (vbind m k).
Proof.
  intros Hk st. unfold vbind. destruct (m st) as [[a|e] st'].
  - apply Hk.
  - discriminate.
Qed.

Lemma blames_guard (c k : V bool) :
  blames c -> blames k ->
  blames (b <~ c ;; if negb b then ret false else k).
Proof.
  intros Hc Hk st. unfold vbind. specialize (Hc st).
  destruct (c st) as [[[|]|e] st']; cbn [negb fst snd] in *.
  - apply Hk.
  - intros _. now apply Hc.
  - discriminate.
Qed.

Lemma blames_frame_fields_loop (frame : dict) (fields : list str) :
  blames (frame_fields_loop frame fields).
Proof.
  induction fields as [|f fields IH]; [intros st; discriminate|].
  cbn [frame_fields_loop].
  destruct (dict_get frame f) as [[]|];
    try apply blames_fail; [|intros st; discriminate].
  apply blames_vbind. intros _. exact IH.
Qed.

Lemma blames_validate_frame_structure (frame : pyval) :
  blames (validate_frame_structure frame).
Proof.
  destruct frame; try apply blames_fail. cbn [validate_frame_structure].
  destruct (negb _); [apply blames_fail|apply blames_frame_fields_loop].
Qed.

Lemma blames_examples_loop (l : list pyval) (i : nat) (unique : list str) :
  blames (examples_loop i unique l).
Proof.
  revert i unique. induction l as [|v l IH]; intros i unique;
    [intros st; discriminate|].
  destruct v; cbn [examples_loop]; try apply blames_fail.
  apply blames_vbind. intros _. apply IH.
Qed.

Lemma blames_validate_examples (examples : pyval) :
  blames (validate_examples examples).
Proof.
  destruct examples; try apply blames_fail. cbn [validate_examples].
  destruct (_ <? _); [apply blames_fail|apply blames_examples_loop].
Qed.

Lemma blames_validate_xor_constraint (marker : dict) :
  blames (validate_xor_constraint marker).
Proof.
  unfold validate_xor_constraint.
  destruct (negb _); [apply blames_fail|intros st; discriminate].
Qed.

Lemma blames_validate_marker_from (marker : dict) :
  blames (validate_marker_from marker).
Proof.
  unfold validate_marker_from.
  destruct (negb _); [apply blames_fail|].
  apply blames_vbind. intros _. apply blames_vbind. intros _.
  apply blames_guard; [apply blames_validate_frame_structure|].
  apply blames_vbind. intros _.
  apply blames_guard; [apply blames_validate_examples|].
  apply blames_vbind. intros _.
  apply blames_guard; [apply blames_validate_xor_constraint|].
  do 4 (apply blames_vbind; intros _).
  intros st. cbn [fst snd]. intros H. injection H as H.
  now destruct (errors st).
Qed.

Lemma validate_marker_true_no_errors (marker : dict) :
  fst (validate_marker marker) = Ok true ->
  errors (snd (validate_marker marker)) = [].
Proof.
  unfold validate_marker.
  destruct (missing_from required_fields marker) as [|f fs] eqn:Hm.
  - rewrite validate_marker_from_checks by exact Hm. unfold finish.
    destruct ((id_step marker ;;; checks_after_id marker) init_state)
      as [[[|]|e] st]; cbn [fst snd]; try discriminate.
    intros H. injection H as H. now destruct (errors st).
  - unfold validate_marker_from. rewrite Hm. discriminate.
Qed.

End Verdicts.

(** C7, as stated, fails: a marker that has the three required fields
    and a blank identifier, and a text in the place of its frame, gets
    the error about the identifier and the error about the frame, and
    [validate_marker] returns after the frame check: neither the
    examples check nor the XOR check is run.  With a good frame and one
    example the examples check is the last one run.  With a tag that is
    a list no verdict is returned: [validate_marker] raises. *)
Lemma bad_id_checks_stop_early :
  (missing_from required_fields blank_id_text_frame = []
   /\ id_ok (dict_get_default blank_id_text_frame (lit "_id") VNone) = false
   /\ validate_marker blank_id_text_frame
      = (Ok false,
         {| errors := [EIdNotNonEmptyString; EFrameNotDict];
            warnings := []; ran := [CkFrame] |}))
  /\ (missing_from required_fields blank_id_one_example = []
      /\ id_ok (dict_get_default blank_id_one_example (lit "_id") VNone)
         = false
      /\ validate_marker blank_id_one_example
         = (Ok false,
            {| errors := [EIdNotNonEmptyString; EInsufficientExamples 1];
               warnings := []; ran := [CkFrame; CkExamples] |}))
  /\ (missing_from required_fields blank_id_list_tag = []
      /\ id_ok (dict_get_default blank_id_list_tag (lit "_id") VNone)
         = false
      /\ fst (validate_marker blank_id_list_tag) = Raise TypeError).
Proof. repeat split; reflexivity. Qed.

(** C7, amended.  A marker that lacks one of [_id], [frame], [examples]
    gets the one error about the missing fields, and [validate_marker]
    returns [False] at once: no check of the frame, the examples or the
    descriptor fields is run.  A marker that has the three fields and an
    [_id] that is no non-empty string gets the error about its
    identifier first and is never valid: [validate_marker] returns
    [False], or raises [TypeError] (on tags without a hash).  The error
    about the identifier does not end the validation, and each later
    check still ends it: the frame check is always run, the examples
    check is run exactly when the frame passes, the XOR check is run
    exactly when the frame and the examples pass; errors, warnings and
    checks are those of the same marker with a good identifier, after
    the one error, and where that marker is valid all three checks have
    run. *)
Theorem validate_marker_required_and_id (m : dict) :
  (missing_from required_fields m <> [] ->
   validate_marker m
   = (Ok false,
      {| errors := [EMissingRequiredFields (missing_from required_fields m)];
         warnings := []; ran := [] |}))
  /\
  (missing_from required_fields m = [] ->
   id_ok (dict_get_default m (lit "_id") VNone) = false ->
   (fst (validate_marker m) = Ok false
    \/ fst (validate_marker m) = Raise TypeError)
   /\ (exists later,
         errors (snd (validate_marker m)) = EIdNotNonEmptyString :: later)
   /\ ran (snd (validate_marker m)) = checks_reached m
   /\ (exists rest, ran (snd (validate_marker m)) = CkFrame :: rest)
   /\ (In CkExamples (ran (snd (validate_marker m)))
       <-> frame_ok (dict_get_default m (lit "frame") VNone) = true)
   /\ (In CkXor (ran (snd (validate_marker m)))
       <-> frame_ok (dict_get_default m (lit "frame") VNone) = true
           /\ examples_accepted (dict_get_default m (lit "examples") VNone)
              = true)
   /\ forall s, id_ok (VStr s) = true ->
        let m' := dict_set m (lit "_id") (VStr s) in
        errors (snd (validate_marker m))
        = EIdNotNonEmptyString :: errors (snd (validate_marker m'))
        /\ warnings (snd (validate_marker m))
           = warnings (snd (validate_marker m'))
        /\ ran (snd (validate_marker m)) = ran (snd (validate_marker m'))
        /\ (fst (validate_marker m') = Ok true ->
            exists rest,
              ran (snd (validate_marker m))
              = CkFrame :: CkExamples :: CkXor :: rest)).
Proof.
  split.
  - intros H. unfold validate_marker, validate_marker_from.
    destruct (missing_from required_fields m); [contradiction|].
    reflexivity.
  - intros H Hid.
    assert (V : fst (validate_marker m) = Ok false
                \/ fst (validate_marker m) = Raise TypeError).
    { rewrite validate_marker_specified. unfold specified_verdict.
      destruct (negb (reaches_optional_checks m)); [now left|].
      destruct (negb (present_ok m (lit "metadata") _)); [now right|].
      rewrite Hid. now left. }
    pose proof (validate_marker_with_required m H) as E.
    cbv zeta in E. rewrite Hid in E. cbn [negb app] in E.
    assert (R : ran (snd (validate_marker m)) = checks_reached m).
    { rewrite E. cbn [snd ran]. apply checks_after_id_ran. }
    destruct (validate_frame_structure_judged
                (dict_get_default m (lit "frame") VNone)) as [OF _].
    destruct (validate_examples_judged
                (dict_get_default m (lit "examples") VNone)) as [OE _].
    unfold outcome_of in OF, OE.
    split; [exact V|]. split.
    { rewrite E. cbn [snd errors]. eauto. }
    split; [exact R|]. split.
    { rewrite R. unfold checks_reached. eauto. }
    split.
    { rewrite R. unfold checks_reached. rewrite OF.
      destruct (frame_ok (dict_get_default m (lit "frame") VNone)).
      - split; [reflexivity|]. intros _. right. now left.
      - split; [|discriminate]. intros [C|[]]. discriminate. }
    split.
    { rewrite R. unfold checks_reached. rewrite OF, OE.
      destruct (frame_ok (dict_get_default m (lit "frame") VNone)).
      - destruct (examples_accepted
                    (dict_get_default m (lit "examples") VNone)).
        + split; [now split|]. intros _. right. right. now left.
        + split; [|intros [_ C]; discriminate].
          intros [C|[C|[]]]; discriminate.
      - split; [|intros [C _]; discriminate].
        intros [C|[]]. discriminate. }
    rewrite E. cbn [fst snd errors warnings ran].
    intros s Hs. cbv zeta.
    destruct (missing_from_set_id m (VStr s) H) as [H' Hhas].
    pose proof (validate_marker_with_required _ H') as E'.
    cbv zeta in E'.
    unfold dict_get_default in E'. rewrite dict_get_set_same in E'.
    rewrite Hs in E'. cbn [negb app] in E'.
    rewrite (checks_after_id_set_id m (VStr s) Hhas) in E'.
    rewrite E'. cbn [fst snd errors warnings ran].
    repeat split.
    intros Hv.
    assert (Hr : fst (checks_after_id m init_state) = Ok true).
    { destruct (fst (checks_after_id m init_state)) as [[|]|e];
        [reflexivity|discriminate|discriminate]. }
    destruct (checks_after_id_result m Hr) as [Hf He].
    rewrite checks_after_id_ran. unfold checks_reached.
    rewrite Hf, He. eauto.
Qed.

Lemma validate_marker_required_and_id_witness :
  validate_marker scenario_b
  = (Ok false,
     {| errors := [EMissingRequiredFields [lit "examples"]];
        warnings := []; ran := [] |})
  /\ fst (validate_marker blank_id_marker) = Ok false
  /\ errors (snd (validate_marker blank_id_marker)) = [EIdNotNonEmptyString]
  /\ ran (snd (validate_marker blank_id_marker))
     = [CkFrame; CkExamples; CkXor; CkPattern; CkMetadata]
  /\ (In CkExamples (ran (snd (validate_marker blank_id_text_frame)))
      <-> frame_ok (dict_get_default blank_id_text_frame (lit "frame") VNone)
          = true).
Proof.
  split.
  - apply (proj1 (validate_marker_required_and_id scenario_b)).
    discriminate.
  - destruct (proj2 (validate_marker_required_and_id blank_id_text_frame)
                eq_refl eq_refl) as (_ & _ & _ & _ & H1 & _).
    split; [reflexivity|]. split; [reflexivity|].
    split; [reflexivity|exact H1].
Defined.

(** X14.  [validate_examples] accepts exactly the lists of at least five
    entries that are all strings, and adds one error when it rejects;
    on an accepted list it adds one warning for each entry that is equal
    to an earlier one: as many warnings as the list has entries beyond
    its distinct ones. *)
Theorem validate_examples_verdict (examples : pyval) (st : vstate) :
  (exists ws e,
     validate_examples examples st
     = (Ok (examples_accepted examples),
        {| errors := errors st
                     ++ (if examples_accepted examples then [] else [e]);
           warnings := warnings st ++ ws; ran := ran st |}))
  /\ (forall l,
        LeanDeep31Validator.MIN_EXAMPLES <= List.length l ->
        validate_examples (VList (map VStr l)) st
        = (Ok true,
           {| errors := errors st;
              warnings := warnings st ++ duplicate_warnings [] l;
              ran := ran st |}))
  /\ (forall l,
        List.length (duplicate_warnings [] l)
        + List.length (distinct_from [] l) = List.length l
        /\ NoDup (distinct_from [] l)
        /\ forall x, In x (distinct_from [] l) <-> In x l).
Proof.
  split; [apply examples_verdict_at|]. split.
  - intros l Hl. cbn [validate_examples]. rewrite length_map.
    apply Nat.ltb_ge in Hl. rewrite Hl. apply examples_loop_strings_exact.
  - intros l. split; [apply duplicate_count|].
    split; [apply distinct_from_NoDup|].
    intros x. rewrite distinct_from_In. cbn [In]. tauto.
Qed.

(** X15.  What [validate_marker] returns agrees with the errors it
    returns: with [True] there is no error, with [False] there is at
    least one (so the first error, which [qualify_marker] logs, is
    there). *)
Theorem validate_marker_errors_match (marker : dict) :
  (fst (validate_marker marker) = Ok true ->
   errors (snd (validate_marker marker)) = [])
  /\ (fst (validate_marker marker) = Ok false ->
      errors (snd (validate_marker marker)) <> []).
Proof.
  split.
  - apply validate_marker_true_no_errors.
  - apply blames_validate_marker_from.
Qed.

(** X16.  The verdict of [validate_marker] as a function of the marker:
    [False] when a required field is missing, or the frame, the examples
    or the XOR check fails; else [TypeError] when the metadata is a
    dictionary whose tags are a list with an entry that has no hash (the
    only exception the method raises); else [True] exactly when the
    identifier is a string that is not blank, the pattern (if there) is a
    string, [composed_of] (if there) is a list of dictionaries with
    [type] and [marker_ids], and the metadata (if there) is [None] or a
    dictionary whose tags (if there) are a list. *)
Theorem validate_marker_verdict (marker : dict) :
  fst (validate_marker marker) = specified_verdict marker.
Proof. apply validate_marker_specified. Qed.

(* ================================================================== *)
(** ** Normalized markers in the validator and the qualifier *)
(* ================================================================== *)

Section NormalizedValidates.

Lemma filter_all {A} (p : A -> bool) (l : list A) :
  forallb p l = true -> filter p l = l.
Proof.
  induction l as [|x l IH]; [reflexivity|]. cbn [forallb filter].
  intros H. apply andb_true_iff in H. destruct H as [-> H].
  f_equal. now apply IH.
Qed.

Lemma forallb_filter_sub {A} (p q : A -> bool) (l : list A) :
  forallb p l = true -> forallb p (filter q l) = true.
Proof.
  rewrite !forallb_forall. intros H x Hx. apply filter_In in Hx.
  apply H, Hx.
Qed.

Lemma forallb_filter_self {A} (p : A -> bool) (l : list A) :
  forallb p (filter p l) = true.
Proof.
  rewrite forallb_forall. intros x Hx. apply filter_In in Hx. apply Hx.
Qed.

Lemma filter_distinct (p : pyval -> bool) (l : list pyval) :
  distinct_atoms l -> distinct_atoms (filter p l).
Proof.
  induction l as [|x l IH]; [easy|]. cbn [distinct_atoms filter].
  intros [H1 H2]. destruct (p x); [|now apply IH].
  split; [now apply forallb_filter_sub|now apply IH].
Qed.

Lemma dedup_distinct (l : list pyval) : distinct_atoms (dedup l).
Proof.
  induction l as [|x l IH]; [exact I|]. cbn [dedup distinct_atoms].
  split; [apply forallb_filter_self|now apply filter_distinct].
Qed.

Lemma dedup_fixed (l : list pyval) : distinct_atoms l -> dedup l = l.
Proof.
  induction l as [|x l IH]; [reflexivity|]. cbn [dedup distinct_atoms].
  intros [H1 H2]. rewrite (IH H2). f_equal. now apply filter_all.
Qed.

Lemma dedup_hashable (l : list pyval) :
  forallb hashable l = true -> forallb hashable (dedup l) = true.
Proof.
  induction l as [|x l IH]; [reflexivity|]. cbn [dedup forallb].
  intros H. apply andb_true_iff in H. destruct H as [-> H]. cbn [andb].
  apply forallb_filter_sub. now apply IH.
Qed.

(** The tags of a normalized marker: they have a hash, and none is
    there twice. *)
Lemma py_set_Ok (v : pyval) (tags : list pyval) :
  py_set v = Ok tags ->
  forallb hashable tags = true /\ dedup tags = tags.
Proof.
  unfold py_set. destruct (py_iter v) as [l|]; [|discriminate].
  cbn [bind]. destruct (forallb hashable l) eqn:E; [|discriminate].
  intros H. injection H as <-. split.
  - now apply dedup_hashable.
  - apply dedup_fixed, dedup_distinct.
Qed.

Lemma normalized_metadata_quiet (created author version : pyval)
  (tags : list pyval) (st : vstate) :
  forallb hashable tags = true -> dedup tags = tags ->
  validate_metadata
    (VDict [ (lit "created", created); (lit "author", author);
             (lit "version", version); (lit "tags", VList tags) ]) st
  = (Ok true, st).
Proof.
  intros H1 H2. unfold validate_metadata.
  change (missing_from recommended_metadata
            [ (lit "created", created); (lit "author", author);
              (lit "version", version); (lit "tags", VList tags) ])
    with (@nil str).
  change (dict_get [ (lit "created", created); (lit "author", author);
                     (lit "version", version); (lit "tags", VList tags) ]
            (lit "tags"))
    with (Some (VList tags)).
  cbv iota. unfold py_set. cbn [py_iter bind]. rewrite H1, H2.
  rewrite (Nat.eqb_refl (List.length tags)). reflexivity.
Qed.

(** A marker with the fields as [normalize_marker] builds them: the
    validator has nothing to say but about the identifier and about
    examples that are there twice. *)
Lemma validate_marker_quiet (m : dict) (idv frame : pyval) (ex : list str)
  (p : str) (metadata : pyval) :
  dict_get m (lit "_id") = Some idv ->
  dict_get m (lit "frame") = Some frame ->
  (forall st, validate_frame_structure frame st = (Ok true, st)) ->
  dict_get m (lit "examples") = Some (VList (map VStr ex)) ->
  LeanDeep31Validator.MIN_EXAMPLES <= List.length ex ->
  dict_get m (lit "pattern") = Some (VStr p) ->
  nonblank p ->
  dict_get m (lit "composed_of") = None ->
  dict_get m (lit "detect_class") = None ->
  dict_get m (lit "metadata") = Some metadata ->
  (forall st, validate_metadata metadata st = (Ok true, st)) ->
  filter (fun k => negb (existsb (str_eqb k) all_allowed_fields))
    (dict_keys m) = [] ->
  validate_marker m
  = (Ok (id_ok idv),
     {| errors := if id_ok idv then [] else [EIdNotNonEmptyString];
        warnings := duplicate_warnings [] ex;
        ran := [CkFrame; CkExamples; CkXor; CkPattern; CkMetadata] |}).
Proof.
  intros Hid Hf Hfq Hex Hlen Hp Hpn Hc Hd Hm Hmq Hu.
  unfold validate_marker, validate_marker_from, validate_xor_constraint,
    when_present, missing_from, required_fields, xor_fields, dict_has,
    dict_get_default.
  unfold all_allowed_fields, required_fields, xor_fields in Hu.
  cbv zeta. cbn [filter].
  rewrite Hid, Hf, Hex, Hp, Hc, Hd, Hm, Hu.
  cbn [negb List.length Nat.eqb filter].
  unfold vbind at 1.
  assert (Hfin : forall st,
            (enter CkFrame ;;;
             frame_ok <~ validate_frame_structure frame ;;
             (if negb frame_ok then ret false else
              enter CkExamples ;;;
              examples_ok <~ validate_examples (VList (map VStr ex)) ;;
              (if negb examples_ok then ret false else
               enter CkXor ;;;
               xor_ok <~ ret true ;;
               (if negb xor_ok then ret false else
                (enter CkPattern ;;; _ <~ validate_pattern (VStr p) ;; ret tt) ;;;
                ret tt ;;;
                (enter CkMetadata ;;; _ <~ validate_metadata metadata ;; ret tt) ;;;
                ret tt ;;;
                (fun st => (Ok (Nat.eqb (List.length (errors st)) 0), st))))))
              st
            = (Ok (Nat.eqb (List.length (errors st)) 0),
               {| errors := errors st;
                  warnings := warnings st ++ duplicate_warnings [] ex;
                  ran := ran st ++ [CkFrame; CkExamples; CkXor; CkPattern;
                                    CkMetadata] |})).
  { intros st. unfold vbind, enter. rewrite Hfq. cbn [negb].
    cbn [validate_examples]. rewrite length_map.
    apply Nat.ltb_ge in Hlen. rewrite Hlen.
    rewrite examples_loop_strings_exact. cbn [negb ret].
    cbn [validate_pattern]. unfold vbind. unfold nonblank in Hpn.
    rewrite Hpn. cbn [ret]. rewrite Hmq.
    cbn [errors warnings ran]. rewrite <- !app_assoc. reflexivity. }
  destruct (id_ok idv).
  - cbn [negb ret]. rewrite Hfin. reflexivity.
  - cbn [negb add_error]. rewrite Hfin. reflexivity.
Qed.

Lemma normalized_marker_state (rt : runtime) (marker_data : dict)
  (file_name : str) (m : dict) :
  normalize_marker rt marker_data file_name = Ok m ->
  validate_marker m
  = (Ok (id_ok (marker_id_of marker_data file_name)),
     {| errors := if id_ok (marker_id_of marker_data file_name)
                  then [] else [EIdNotNonEmptyString];
        warnings := duplicate_warnings [] (normalized_examples marker_data);
        ran := [CkFrame; CkExamples; CkXor; CkPattern; CkMetadata] |}).
Proof.
  intros H.
  apply normalize_marker_Ok in H
    as (frame & created & author & version & tags_src & tags
        & Hf & _ & Hs & ->).
  apply py_set_Ok in Hs. destruct Hs as [Ht1 Ht2].
  apply generate_frame_shape in Hf as [c [_ ->]].
  destruct (generated_frame_strings c (signal_suffix marker_data))
    as (s1 & s2 & s3 & s4 & E & _ & N1 & N2 & N3 & N4).
  eapply validate_marker_quiet.
  - now rewrite with_optional_fields_get.
  - now rewrite with_optional_fields_get.
  - intros st. rewrite E. now apply four_strings_quiet.
  - now rewrite with_optional_fields_get.
  - apply pad_examples_length.
    unfold LeanDeep31Validator.MIN_EXAMPLES, MarkerNormalizer.MIN_EXAMPLES.
    lia.
  - now rewrite with_optional_fields_get.
  - now apply nonblank_cons.
  - now rewrite with_optional_fields_get.
  - now rewrite with_optional_fields_get.
  - now rewrite with_optional_fields_get.
  - intros st. now apply normalized_metadata_quiet.
  - unfold with_optional_fields, set_if_present.
    destruct (dict_get marker_data (lit "kategorie"));
      destruct (dict_get marker_data (lit "semantische_grabber_id"));
      destruct (dict_get marker_data (lit "beschreibung")); reflexivity.
Qed.

End NormalizedValidates.

(** X17.  The validator on a marker that [normalize_marker] returned:
    the frame, examples, XOR, pattern and metadata checks are run and add
    no error; the verdict is [True] exactly when the identifier (the
    source name, or the file name without [.yaml] when there is no name)
    is a string that is not blank, and else the one error is the one
    about the identifier; the warnings are those about examples that are
    there twice, and no other. *)
Theorem normalized_marker_validates (rt : runtime) (marker_data : dict)
  (file_name : str) (m : dict) :
  normalize_marker rt marker_data file_name = Ok m ->
  validate_marker m
  = (Ok (id_ok (marker_id_of marker_data file_name)),
     {| errors := if id_ok (marker_id_of marker_data file_name)
                  then [] else [EIdNotNonEmptyString];
        warnings := duplicate_warnings [] (normalized_examples marker_data);
        ran := [CkFrame; CkExamples; CkXor; CkPattern; CkMetadata] |}).
Proof. apply normalized_marker_state. Qed.

Lemma normalized_marker_validates_witness :
  validate_marker scenario_a_normalized
  = (Ok (id_ok (marker_id_of scenario_a (lit "cafe.yaml"))),
     {| errors := if id_ok (marker_id_of scenario_a (lit "cafe.yaml"))
                  then [] else [EIdNotNonEmptyString];
        warnings := duplicate_warnings [] (normalized_examples scenario_a);
        ran := [CkFrame; CkExamples; CkXor; CkPattern; CkMetadata] |}).
Proof.
  apply (normalized_marker_validates sample_runtime scenario_a
           (lit "cafe.yaml")).
  reflexivity.
Defined.

(* ================================================================== *)
(** ** The score and the qualification *)
(* ================================================================== *)

Section Qualification.

Lemma calculate_quality_score_bonuses (m : dict) (ws : list vwarning) :
  calculate_quality_score m ws
  = (bonuses <- quality_bonuses m ;;
     Ok (py_max 0 (py_min 100 (score_with bonuses (List.length ws))),
         rating_of (score_with bonuses (List.length ws)))).
Proof.
  unfold calculate_quality_score, quality_bonuses, score_with.
  destruct (dict_get m (lit "metadata")) as [metadata|].
  - destruct (all_in recommended_metadata metadata) as [[]|]; cbn [bind];
      try reflexivity;
      destruct (py_len _) as [n|]; cbn [bind]; try reflexivity;
      destruct (dict_get m (lit "frame")) as [frame|]; cbn [bind];
      try reflexivity;
      destruct (frame_length_sum frame) as [total|]; reflexivity.
  - cbn [bind]. destruct (py_len _) as [n|]; cbn [bind]; try reflexivity.
    destruct (dict_get m (lit "frame")) as [frame|]; cbn [bind];
      try reflexivity.
    destruct (frame_length_sum frame) as [total|]; reflexivity.
Qed.

Lemma Qle_bool_false (a b : Q) : Qle_bool a b = false -> (b < a)%Q.
Proof.
  intros H. apply Qnot_le_lt. intros L. apply Qle_bool_iff in L. congruence.
Qed.

Lemma limits_bounds (score : Q) :
  (0 <= py_max 0 (py_min 100 score))%Q
  /\ (py_max 0 (py_min 100 score) <= 100)%Q.
Proof.
  unfold py_max, py_min, Qltb.
  destruct (Qle_bool 100 score) eqn:H100; cbn [negb].
  - destruct (Qle_bool 100 0) eqn:H0; cbn [negb]; lra.
  - apply Qle_bool_false in H100.
    destruct (Qle_bool score 0) eqn:H0; cbn [negb]; [lra|].
    apply Qle_bool_false in H0. lra.
Qed.

Lemma limits_monotone (a b : Q) :
  (a <= b)%Q -> (py_max 0 (py_min 100 a) <= py_max 0 (py_min 100 b))%Q.
Proof.
  intros H. unfold py_max, py_min, Qltb.
  destruct (Qle_bool 100 a) eqn:A100; destruct (Qle_bool 100 b) eqn:B100;
    cbn [negb];
    try apply Qle_bool_iff in A100; try apply Qle_bool_iff in B100;
    try apply Qle_bool_false in A100; try apply Qle_bool_false in B100;
    repeat match goal with
      | |- context [Qle_bool ?x ?y] =>
          let E := fresh "E" in
          destruct (Qle_bool x y) eqn:E;
          [apply Qle_bool_iff in E|apply Qle_bool_false in E]
      end;
    cbn [negb]; lra.
Qed.

Lemma score_with_next (bonuses : bool * bool * bool) (n : nat) :
  (score_with bonuses (S n) == score_with bonuses n - 5)%Q.
Proof.
  assert (H : (inject_Z (Z.of_nat (S n * 5))
               == inject_Z (Z.of_nat (n * 5)) + 5)%Q).
  { replace (S n * 5) with (n * 5 + 5) by lia.
    rewrite Nat2Z.inj_add, inject_Z_plus. reflexivity. }
  unfold score_with.
  destruct (fst (fst bonuses)), (snd (fst bonuses)), (snd bonuses);
    rewrite H; ring.
Qed.

Lemma with_optional_fields_nonempty (rt : runtime) (marker_data : dict)
  (k : str) (v : pyval) (d : dict) :
  exists kv m, with_optional_fields rt marker_data ((k, v) :: d) = kv :: m.
Proof.
  unfold with_optional_fields, set_if_present.
  destruct (dict_get marker_data (lit "kategorie"));
    destruct (dict_get marker_data (lit "semantische_grabber_id"));
    destruct (dict_get marker_data (lit "beschreibung"));
    cbn [dict_set];
    repeat match goal with
      | |- context [if ?b then _ else _] => destruct b; cbn [dict_set]
      end; eauto.
Qed.

(** The score of a marker that [normalize_marker] returned. *)
Lemma normalized_marker_score (rt : runtime) (marker_data : dict)
  (file_name : str) (m : dict) (ws : list vwarning) :
  normalize_marker rt marker_data file_name = Ok m ->
  calculate_quality_score m ws = Ok (specified_score m (List.length ws))
  /\ metadata_complete m = true
  /\ exists kv m', m = kv :: m'.
Proof.
  intros H.
  apply normalize_marker_Ok in H
    as (frame & created & author & version & tags_src & tags
        & Hf & _ & Hs & ->).
  apply generate_frame_shape in Hf as [c [_ ->]].
  destruct (generated_frame_strings c (signal_suffix marker_data))
    as (s1 & s2 & s3 & s4 & E & _).
  split; [|split].
  - eapply calculate_quality_score_specified.
    + rewrite with_optional_fields_get by reflexivity. reflexivity.
    + rewrite E. apply Permutation_refl.
    + now rewrite E.
    + rewrite with_optional_fields_get by reflexivity. reflexivity.
    + right. eexists.
      rewrite with_optional_fields_get by reflexivity. reflexivity.
  - unfold metadata_complete.
    now rewrite with_optional_fields_get by reflexivity.
  - apply with_optional_fields_nonempty.
Qed.

Lemma specified_score_full (m : dict) :
  metadata_complete m = true ->
  specified_score m 0 = (100%Q, Excellent).
Proof.
  intros H. unfold specified_score, specified_raw_score. rewrite H.
  destruct (MIN_EXAMPLES <? example_count m);
    destruct (Qltb 50 _); reflexivity.
Qed.

End Qualification.

(** X18.  A marker that [normalize_marker] returned with an identifier
    that is not blank is QUALIFIED by [qualify_marker]: no error, the
    warnings about examples that are there twice, and, when no two of
    its examples are equal, the score 100 and the rating Excellent. *)
Theorem normalized_marker_qualifies (rt : runtime) (marker_data : dict)
  (file_name : str) (m : dict) :
  normalize_marker rt marker_data file_name = Ok m ->
  id_ok (marker_id_of marker_data file_name) = true ->
  q_status (qualify_marker (VDict m)) = QUALIFIED
  /\ q_errors (qualify_marker (VDict m)) = []
  /\ q_warnings (qualify_marker (VDict m))
     = duplicate_warnings [] (normalized_examples marker_data)
  /\ (NoDup (normalized_examples marker_data) ->
      quality_score (qualify_marker (VDict m)) = 100%Q
      /\ quality_rating (qualify_marker (VDict m)) = Some Excellent).
Proof.
  intros H Hid.
  pose proof (normalized_marker_state rt _ _ _ H) as Hv.
  rewrite Hid in Hv.
  destruct (normalized_marker_score rt _ _ _
              (duplicate_warnings [] (normalized_examples marker_data)) H)
    as (Hs & Hc & kv & m' & Hm).
  assert (Ht : truthy (VDict m) = true) by now rewrite Hm.
  unfold qualify_marker. rewrite Ht, Hv. cbn [negb warnings errors].
  rewrite Hs. unfold specified_score.
  cbn [q_status q_errors q_warnings quality_score quality_rating map].
  repeat split.
  - rewrite duplicate_warnings_NoDup by (assumption || intros ? ? []).
    pose proof (specified_score_full m Hc) as F.
    unfold specified_score in F. now injection F.
  - rewrite duplicate_warnings_NoDup by (assumption || intros ? ? []).
    pose proof (specified_score_full m Hc) as F.
    unfold specified_score in F. injection F as _ F.
    cbn [List.length]. now rewrite F.
Qed.

Lemma normalized_marker_qualifies_witness :
  q_status (qualify_marker (VDict scenario_a_normalized)) = QUALIFIED
  /\ q_errors (qualify_marker (VDict scenario_a_normalized)) = []
  /\ q_warnings (qualify_marker (VDict scenario_a_normalized))
     = duplicate_warnings [] (normalized_examples scenario_a)
  /\ (NoDup (normalized_examples scenario_a) ->
      quality_score (qualify_marker (VDict scenario_a_normalized)) = 100%Q
      /\ quality_rating (qualify_marker (VDict scenario_a_normalized))
         = Some Excellent).
Proof.
  apply (normalized_marker_qualifies sample_runtime scenario_a
           (lit "cafe.yaml")).
  - reflexivity.
  - reflexivity.
Defined.

(** X19.  A key that the validator does not know changes nothing in what
    [validate_marker] returns or raises, whatever its value: unknown
    fields only bring a warning. *)
Theorem unknown_field_keeps_verdict (m : dict) (k : str) (v : pyval) :
  existsb (str_eqb k) all_allowed_fields = false ->
  fst (validate_marker (dict_set m k v)) = fst (validate_marker m).
Proof.
  intros H.
  assert (G : forall a, In a all_allowed_fields ->
                dict_get (dict_set m k v) a = dict_get m a).
  { intros a Ha. apply dict_get_set_other. apply str_eqb_neq. intros ->.
    assert (E : existsb (str_eqb k) all_allowed_fields = true).
    { apply existsb_exists. exists k. split; [exact Ha|apply str_eqb_refl]. }
    congruence. }
  assert (G' : forall a, In a all_allowed_fields ->
                 dict_has (dict_set m k v) a = dict_has m a).
  { intros a Ha. unfold dict_has. now rewrite G. }
  rewrite !validate_marker_specified.
  unfold specified_verdict, reaches_optional_checks, present_ok, xor_ok,
    missing_from, dict_get_default, required_fields, xor_fields.
  cbn [filter].
  rewrite !G by (cbn; tauto). rewrite !G' by (cbn; tauto).
  reflexivity.
Qed.

Lemma unknown_field_keeps_verdict_witness :
  fst (validate_marker (dict_set scenario_a_normalized (lit "note") VNone))
  = fst (validate_marker scenario_a_normalized).
Proof.
  apply (unknown_field_keeps_verdict scenario_a_normalized (lit "note") VNone).
  reflexivity.
Defined.

(** X20.  A score that [calculate_quality_score] returns lies between 0
    and 100 and comes with the rating of that score; one more warning
    never raises it: the score for the same marker with a further
    warning is returned too, and is not above it. *)
Theorem calculate_quality_score_bounds (m : dict) (ws : list vwarning)
  (score : Q) (rating : rating) :
  calculate_quality_score m ws = Ok (score, rating) ->
  (0 <= score)%Q /\ (score <= 100)%Q /\ rating = rating_of score
  /\ forall w,
       exists score' rating',
         calculate_quality_score m (w :: ws) = Ok (score', rating')
         /\ (score' <= score)%Q.
Proof.
  rewrite calculate_quality_score_bonuses.
  destruct (quality_bonuses m) as [bonuses|] eqn:B; [|discriminate].
  cbn [bind]. intros H. injection H as <- <-.
  destruct (limits_bounds (score_with bonuses (List.length ws))) as [L1 L2].
  repeat split; try assumption.
  - now rewrite rating_of_limits.
  - intros w. rewrite calculate_quality_score_bonuses, B. cbn [bind].
    do 2 eexists. split; [reflexivity|].
    apply limits_monotone. cbn [List.length].
    rewrite score_with_next. lra.
Qed.

Lemma calculate_quality_score_bounds_witness :
  (0 <= 100)%Q /\ (100 <= 100)%Q /\ Excellent = rating_of 100
  /\ forall w,
       exists score' rating',
         calculate_quality_score scenario_a_normalized [w]
         = Ok (score', rating')
         /\ (score' <= 100)%Q.
Proof.
  apply (calculate_quality_score_bounds scenario_a_normalized [] 100%Q
           Excellent).
  reflexivity.
Defined.

(** X21.  The record [qualify_marker] returns is consistent: the status
    is QUALIFIED exactly when the list of errors is empty, and exactly
    when there is a rating; the score is 0 unless the status is
    QUALIFIED, and lies between 0 and 100 in every case. *)
Theorem qualify_marker_record (marker : pyval) :
  (q_status (qualify_marker marker) = QUALIFIED
   <-> q_errors (qualify_marker marker) = [])
  /\ (q_status (qualify_marker marker) = QUALIFIED
      <-> quality_rating (qualify_marker marker) <> None)
  /\ (q_status (qualify_marker marker) <> QUALIFIED ->
      quality_score (qualify_marker marker) = 0%Q)
  /\ (0 <= quality_score (qualify_marker marker))%Q
  /\ (quality_score (qualify_marker marker) <= 100)%Q.
Proof.
  unfold qualify_marker.
  destruct (truthy marker); cbn [negb].
  2: { cbn. repeat split; try easy; lra. }
  destruct marker as [| | | | |m]; try (cbn; repeat split; try easy; lra).
  pose proof (validate_marker_true_no_errors m) as T.
  pose proof (blames_validate_marker_from m init_state) as F.
  fold (validate_marker m) in F.
  destruct (validate_marker m) as [[[|]|e] st]; cbn [fst snd] in T, F.
  - rewrite (T eq_refl).
    destruct (calculate_quality_score m (warnings st)) as [[s r]|e] eqn:C.
    + rewrite calculate_quality_score_bonuses in C.
      destruct (quality_bonuses m) as [bonuses|]; [|discriminate].
      cbn [bind] in C. injection C as <- <-.
      destruct (limits_bounds (score_with bonuses (List.length (warnings st))))
        as [L1 L2].
      cbn. repeat split; try easy.
    + cbn. repeat split; try easy; lra.
  - specialize (F eq_refl). cbn. repeat split; try easy; try lra.
    intros H. apply map_eq_nil in H. contradiction.
  - cbn. repeat split; try easy; lra.
Qed.

(* ================================================================== *)
(** ** The runs over the marker files *)
(* ================================================================== *)

Section Runs.

Import ProcessMarkers.

Variable rt : runtime.
Variable safe_load : str -> yaml_result.
Variable write_marker : str -> dict -> result unit.
Variable to_quarantine : str -> result unit.

(** The parser returns a value, or a text that is not empty, or an
    exception leaves it. *)
Lemma parse_with_recovery_cases (file : file_read) :
  (raised (parse_with_recovery safe_load file) = None
   /\ exists v, parsed (parse_with_recovery safe_load file) = Some v
                /\ error (parse_with_recovery safe_load file) = None)
  \/ (raised (parse_with_recovery safe_load file) = None
      /\ parsed (parse_with_recovery safe_load file) = None
      /\ exists c msg,
           error (parse_with_recovery safe_load file) = Some (c :: msg))
  \/ (exists e, raised (parse_with_recovery safe_load file) = Some e).
Proof.
  destruct file as [content|message]; cbn [parse_with_recovery].
  - destruct (usable (safe_load content)) as [[v|]|e];
      [left; split; [reflexivity|]; eexists; split; reflexivity| |
       right; right; eexists; reflexivity].
    destruct (usable (safe_load (repair_yaml_content content)))
      as [[v|]|e];
      [left; split; [reflexivity|]; eexists; split; reflexivity| |
       right; right; eexists; reflexivity].
    destruct (truthy (VDict (line_salvage content)));
      [left; split; [reflexivity|]; eexists; split; reflexivity|].
    right. left. split; [reflexivity|]. split; [reflexivity|].
    do 2 eexists. reflexivity.
  - right. left. split; [reflexivity|]. split; [reflexivity|].
    do 2 eexists. reflexivity.
Qed.

(** The number of examples of a normalized marker can be taken. *)
Lemma examples_count_normalized (marker_data : dict) (file_name : str)
  (m : dict) :
  normalize_marker rt marker_data file_name = Ok m ->
  examples_count m = Ok (List.length (normalized_examples marker_data)).
Proof.
  intros H.
  apply normalize_marker_Ok in H
    as (frame & created & author & version & tags_src & tags
        & _ & _ & _ & ->).
  unfold examples_count.
  rewrite with_optional_fields_get by reflexivity.
  change (dict_get (normalized_literal _ _ _ _ _ _ _ _) (lit "examples"))
    with (Some (VList (map VStr (normalized_examples marker_data)))).
  cbn [py_len]. now rewrite length_map.
Qed.

Lemma normalized_examples_length (marker_data : dict) :
  List.length (normalized_examples marker_data)
  = Nat.max MarkerNormalizer.MIN_EXAMPLES
      (List.length
         (kept_examples
            (dict_get_default marker_data (lit "beispiele") (VList [])))).
Proof.
  unfold normalized_examples, ensure_minimum_examples.
  fold (kept_examples
          (dict_get_default marker_data (lit "beispiele") (VList []))).
  rewrite pad_examples_seq by lia.
  rewrite length_app, length_map, length_seq. lia.
Qed.

Lemma normalize_value_Ok (marker_data : option pyval) (file_name : str)
  (m : dict) :
  normalize_value rt marker_data file_name = Ok m
  <-> exists d, marker_data = Some (VDict d)
                /\ normalize_marker rt d file_name = Ok m.
Proof.
  unfold normalize_value. split.
  - destruct marker_data as [[]|]; try discriminate. eauto.
  - intros [d [-> H]]. exact H.
Qed.

(** What the [try] of the loop gives: the normalized marker, once it is
    written. *)
Lemma normalized_and_written (marker_data : option pyval)
  (file_name : str) (m : dict) :
  (normalized <- normalize_value rt marker_data file_name ;;
   _ <- write_marker file_name normalized ;;
   Ok normalized) = Ok m
  <-> exists d, marker_data = Some (VDict d)
                /\ normalize_marker rt d file_name = Ok m
                /\ write_marker file_name m = Ok tt.
Proof.
  split.
  - destruct (normalize_value rt marker_data file_name) as [m'|e] eqn:Hn;
      cbn [bind]; [|discriminate].
    destruct (write_marker file_name m') as [[]|e] eqn:Hw;
      cbn [bind]; [|discriminate].
    intros H. injection H as <-.
    apply normalize_value_Ok in Hn. destruct Hn as [d [Hd Hm]].
    exists d. now repeat split.
  - intros (d & Hd & Hm & Hw).
    rewrite (proj2 (normalize_value_Ok marker_data file_name m))
      by (exists d; now split).
    cbn [bind]. rewrite Hw. reflexivity.
Qed.

(** The quarantine of a file returns exactly when its writes do. *)
Lemma quarantine_file_cases (st : run) (file_name : str) (tag : row_error)
  (details : row_details) :
  (to_quarantine file_name = Ok tt
   /\ exists st',
        quarantine_file to_quarantine st file_name tag details = Ok st'
        /\ total_files st' = total_files st
        /\ successful st' = successful st
        /\ quarantined st' = quarantined st + 1
        /\ report_data st'
           = report_data st
             ++ [ {| r_file := file_name; r_status := QUARANTINED;
                     r_error := tag; r_details := details |} ]
        /\ output_dir st' = output_dir st
        /\ quarantine st' = quarantine st ++ [file_name])
  \/ (exists e, to_quarantine file_name = Raise e
                /\ quarantine_file to_quarantine st file_name tag details
                   = Raise e).
Proof.
  unfold quarantine_file.
  destruct (to_quarantine file_name) as [[]|e]; cbn [bind].
  - left. split; [reflexivity|]. eexists. split; [reflexivity|].
    cbn [total_files successful quarantined report_data output_dir
         quarantine].
    now repeat split.
  - right. now exists e.
Qed.

(** An exception leaves the body of the loop exactly when it leaves the
    parser or the writes to the quarantine. *)
Lemma process_file_raises (st : run) (yaml_file : str * file_read)
  (e : exn) :
  process_file rt safe_load write_marker to_quarantine st yaml_file
  = Raise e
  <-> leaves_loop rt safe_load write_marker to_quarantine yaml_file e.
Proof.
  destruct yaml_file as [file_name file].
  unfold process_file, leaves_loop. cbn [fst snd].
  destruct (parse_with_recovery_cases file)
    as [[Hr [v [Hp He]]]|[[Hr [Hp [c [msg He]]]]|[e' Hr]]];
    rewrite Hr.
  - rewrite He, Hp. cbn [error_set].
    destruct (normalized <- normalize_value rt (Some v) file_name ;; _)
      as [m|e'] eqn:Hn.
    + pose proof Hn as Hn'.
      apply normalized_and_written in Hn' as (d & Hd & Hm & Hw).
      rewrite (examples_count_normalized _ _ _ Hm).
      split; [discriminate|].
      intros [H|(_ & _ & H)]; [discriminate|].
      exfalso. apply H. exists d, m. now repeat split.
    + assert (N : ~ exists d m,
                    Some v = Some (VDict d)
                    /\ normalize_marker rt d file_name = Ok m
                    /\ write_marker file_name m = Ok tt).
      { intros (d & m & Hd & Hm & Hw).
        assert (Hn' : (normalized <- normalize_value rt (Some v) file_name ;;
                       _ <- write_marker file_name normalized ;;
                       Ok normalized) = Ok m).
        { apply normalized_and_written. exists d. now repeat split. }
        congruence. }
      match goal with
      | |- quarantine_file _ ?s ?f ?t ?d = _ <-> _ =>
          destruct (quarantine_file_cases s f t d)
            as [[Hq (st' & -> & _)]|[e'' [Hq ->]]]
      end.
      * split; [discriminate|].
        intros [H|(_ & H & _)]; [discriminate|congruence].
      * split.
        -- intros H. injection H as ->. right. now repeat split.
        -- intros [H|(_ & H & _)]; [discriminate|congruence].
  - rewrite He, Hp. cbn [error_set].
    match goal with
    | |- quarantine_file _ ?s ?f ?t ?d = _ <-> _ =>
        destruct (quarantine_file_cases s f t d)
          as [[Hq (st' & -> & _)]|[e'' [Hq ->]]]
    end.
    + split; [discriminate|].
      intros [H|(_ & H & _)]; [discriminate|congruence].
    + split.
      * intros H. injection H as ->. right.
        split; [reflexivity|]. split; [exact Hq|].
        intros (d & m & H & _). discriminate.
      * intros [H|(_ & H & _)]; [discriminate|congruence].
  - split.
    + intros H. injection H as ->. now left.
    + intros [H|(H & _)]; [congruence|discriminate].
Qed.

(** The row that the body of the loop adds for a file, when it
    returns. *)
Lemma process_file_adds (st st' : run) (file_name : str)
  (file : file_read) :
  process_file rt safe_load write_marker to_quarantine st (file_name, file)
  = Ok st' ->
  exists row,
    report_data st' = report_data st ++ [row]
    /\ r_file row = file_name
    /\ (r_status row = SUCCESS
        <-> exists d m,
              parsed (parse_with_recovery safe_load file) = Some (VDict d)
              /\ well_typed_source d = true
              /\ normalize_marker rt d file_name = Ok m
              /\ write_marker file_name m = Ok tt)
    /\ (r_status row = SUCCESS ->
        r_error row = NoError
        /\ exists d,
             parsed (parse_with_recovery safe_load file) = Some (VDict d)
             /\ r_details row
                = NormalizedWith
                    (Nat.max MarkerNormalizer.MIN_EXAMPLES
                       (List.length
                          (kept_examples
                             (dict_get_default d (lit "beispiele")
                                (VList []))))))
    /\ (r_error row = YAML_ERROR
        <-> parsed (parse_with_recovery safe_load file) = None)
    /\ (r_status row = QUARANTINED <-> to_quarantine file_name = Ok tt
                                       /\ r_status row <> SUCCESS).
Proof.
  unfold process_file. cbn [fst snd].
  destruct (parse_with_recovery_cases file)
    as [[Hr [v [Hp He]]]|[[Hr [Hp [c [msg He]]]]|[e' Hr]]];
    rewrite Hr; [| |discriminate].
  2: { rewrite He, Hp. cbn [error_set].
       match goal with
       | |- quarantine_file _ ?s ?f ?t ?d = _ -> _ =>
           destruct (quarantine_file_cases s f t d)
             as [[Hq (st'' & -> & _ & _ & _ & Hd & _)]|[e'' [Hq ->]]]
       end; [|discriminate].
       intros H. injection H as <-.
       eexists. split; [exact Hd|].
       cbn [r_file r_status r_error r_details].
       split; [reflexivity|]. split.
       { split; [discriminate|]. intros (d & m & H & _). discriminate. }
       split; [discriminate|]. split; [now split|].
       split; [intros _; split; [exact Hq|discriminate]|reflexivity]. }
  rewrite He, Hp. cbn [error_set].
  destruct (normalized <- normalize_value rt (Some v) file_name ;; _)
    as [m|e'] eqn:Hn.
  2: { match goal with
       | |- quarantine_file _ ?s ?f ?t ?d = _ -> _ =>
           destruct (quarantine_file_cases s f t d)
             as [[Hq (st'' & -> & _ & _ & _ & Hd & _)]|[e'' [Hq ->]]]
       end; [|discriminate].
       intros H. injection H as <-.
       eexists. split; [exact Hd|].
       cbn [r_file r_status r_error r_details].
       split; [reflexivity|]. split.
       { split; [discriminate|].
         intros (d & m & H & _ & Hm & Hw).
         assert (Hn' : (normalized <- normalize_value rt (Some v)
                                        file_name ;;
                        _ <- write_marker file_name normalized ;;
                        Ok normalized) = Ok m).
         { apply normalized_and_written. exists d. now repeat split. }
         congruence. }
       split; [discriminate|]. split; [split; discriminate|].
       split; [intros _; split; [exact Hq|discriminate]|reflexivity]. }
  apply normalized_and_written in Hn as (d & Hd & Hm & Hw).
  injection Hd as ->.
  rewrite (examples_count_normalized _ _ _ Hm).
  intros H. injection H as <-.
  cbn [total_files successful quarantined report_data output_dir
       quarantine].
  eexists. split; [reflexivity|].
  cbn [r_file r_status r_error r_details].
  assert (Hwt : well_typed_source d = true).
  { destruct (well_typed_source d) eqn:E; [reflexivity|].
    destruct (proj2 (normalize_marker_raises rt d file_name) E) as [e Hx].
    congruence. }
  split; [reflexivity|]. split.
  { split; [|reflexivity]. intros _. exists d, m. now repeat split. }
  split.
  { intros _. split; [reflexivity|]. exists d. split; [reflexivity|].
    now rewrite normalized_examples_length. }
  split; [split; discriminate|].
  split; [discriminate|]. intros [_ H]. now elim H.
Qed.

Lemma process_file_consistent (st st' : run)
  (yaml_file : str * file_read) :
  tally_consistent st ->
  process_file rt safe_load write_marker to_quarantine st yaml_file
  = Ok st' ->
  tally_consistent st'
  /\ total_files st' = total_files st + 1
  /\ map r_file (report_data st')
     = map r_file (report_data st) ++ [fst yaml_file].
Proof.
  intros (H1 & H2 & H3 & H4 & H5). unfold process_file.
  assert (Q : forall s tag details,
            successful s + quarantined s = total_files st ->
            List.length (report_data s) = total_files st ->
            List.length (filter is_success (report_data s)) = successful s ->
            List.length (output_dir s) = successful s ->
            List.length (quarantine s) = quarantined s ->
            total_files s = total_files st + 1 ->
            map r_file (report_data s) = map r_file (report_data st) ->
            quarantine_file to_quarantine s (fst yaml_file) tag details
            = Ok st' ->
            tally_consistent st'
            /\ total_files st' = total_files st + 1
            /\ map r_file (report_data st')
               = map r_file (report_data st) ++ [fst yaml_file]).
  { intros s tag details G1 G2 G3 G4 G5 G6 G7.
    destruct (quarantine_file_cases s (fst yaml_file) tag details)
      as [[Hq (st'' & -> & T1 & T2 & T3 & T4 & T5 & T6)]|[e'' [Hq ->]]];
      [|discriminate].
    intros H. injection H as <-.
    unfold tally_consistent. rewrite T1, T2, T3, T4, T5, T6.
    rewrite filter_app, !length_app, map_app.
    cbn [filter is_success r_status List.length map r_file].
    rewrite G7. repeat split; lia. }
  destruct (raised _); [discriminate|].
  destruct (error_set _).
  - apply Q; cbn; auto.
  - destruct (normalized <- normalize_value rt _ _ ;; _) as [m|e] eqn:Hn.
    + apply normalized_and_written in Hn as (d & Hd & Hm & Hw).
      rewrite (examples_count_normalized _ _ _ Hm).
      intros H. injection H as <-.
      unfold tally_consistent.
      cbn [total_files successful quarantined report_data output_dir
           quarantine].
      rewrite filter_app, !length_app, map_app.
      cbn [filter is_success r_status List.length map r_file].
      repeat split; lia.
    + apply Q; cbn; auto.
Qed.

Lemma process_files_consistent (yaml_files : list (str * file_read))
  (st st' : run) :
  tally_consistent st ->
  process_files rt safe_load write_marker to_quarantine yaml_files st
  = Ok st' ->
  tally_consistent st'
  /\ total_files st' = total_files st + List.length yaml_files
  /\ map r_file (report_data st')
     = map r_file (report_data st) ++ map fst yaml_files.
Proof.
  revert st. induction yaml_files as [|f fs IH]; intros st H.
  - cbn [process_files List.length map]. intros E. injection E as <-.
    rewrite app_nil_r. split; [exact H|]. split; [lia|reflexivity].
  - cbn [process_files List.length map].
    destruct (process_file rt safe_load write_marker to_quarantine st f)
      as [s|e] eqn:E; cbn [bind]; [|discriminate].
    intros E'.
    destruct (process_file_consistent st s f H E) as (C & T & R).
    destruct (IH _ C E') as (C' & T' & R').
    split; [exact C'|]. split; [lia|].
    rewrite R', R, <- app_assoc. reflexivity.
Qed.

(** The loop ends with the exception of the first file at which one
    leaves the body. *)
Lemma process_files_raises (yaml_files : list (str * file_read))
  (st : run) (e : exn) :
  process_files rt safe_load write_marker to_quarantine yaml_files st
  = Raise e
  <-> exists before yaml_file rest,
        yaml_files = before ++ yaml_file :: rest
        /\ (forall f e',
              In f before ->
              ~ leaves_loop rt safe_load write_marker to_quarantine f e')
        /\ leaves_loop rt safe_load write_marker to_quarantine yaml_file e.
Proof.
  revert st. induction yaml_files as [|f fs IH]; intros st.
  - cbn [process_files]. split; [discriminate|].
    intros (before & y & rest & H & _). now destruct before.
  - cbn [process_files].
    destruct (process_file rt safe_load write_marker to_quarantine st f)
      as [s|e0] eqn:E; cbn [bind].
    + assert (N : forall e', ~ leaves_loop rt safe_load write_marker
                                 to_quarantine f e').
      { intros e' L. apply (process_file_raises st) in L. congruence. }
      rewrite IH. split.
      * intros (before & y & rest & -> & Hb & Hy).
        exists (f :: before), y, rest. split; [reflexivity|].
        split; [|exact Hy].
        intros g e' [<-|Hg]; [apply N|now apply Hb].
      * intros (before & y & rest & Hl & Hb & Hy).
        destruct before as [|g before]; cbn [app] in Hl;
          injection Hl as <- ->.
        -- exfalso. exact (N e Hy).
        -- exists before, y, rest. split; [reflexivity|].
           split; [|exact Hy].
           intros g e' Hg. apply Hb. now right.
    + apply process_file_raises in E. split.
      * intros H. injection H as <-.
        exists [], f, fs. split; [reflexivity|].
        split; [intros g e' []|exact E].
      * intros (before & y & rest & Hl & Hb & Hy).
        destruct before as [|g before]; cbn [app] in Hl;
          injection Hl as <- ->.
        -- apply (process_file_raises st) in Hy.
           apply (process_file_raises st) in E. congruence.
        -- exfalso. apply (Hb f e0); [now left|exact E].
Qed.

End Runs.

(** X22.  The loop of [process_markers] either comes to its end or is
    left by an exception, since neither the call of the parser nor the
    writes to the quarantine are under a [try].  When it comes to its
    end, the counter of the files is the number of files, every file has
    been counted as successful or as quarantined and never as both, the
    report has one row for each file in the order of the files, the rows
    with status SUCCESS are as many as the counter says, and so are the
    markers written and the files in quarantine.  (After [successful] is
    increased the code still takes the length of the examples of the
    normalized marker, under the same [try]: this never raises.)  It is
    left by an exception exactly when, at the first file at which one
    leaves the parser or the writes to the quarantine, that exception
    does; it comes to its end exactly when there is no such file. *)
Theorem process_markers_tally (rt : runtime)
  (safe_load : str -> yaml_result)
  (write_marker : str -> dict -> result unit)
  (to_quarantine : str -> result unit)
  (yaml_files : list (str * file_read)) :
  let r := ProcessMarkers.process_markers rt safe_load write_marker
             to_quarantine yaml_files in
  (forall st,
     r = Ok st ->
     tally_consistent st
     /\ ProcessMarkers.total_files st = List.length yaml_files
     /\ map ProcessMarkers.r_file (ProcessMarkers.report_data st)
        = map fst yaml_files)
  /\ (forall e,
        r = Raise e
        <-> exists before yaml_file rest,
              yaml_files = before ++ yaml_file :: rest
              /\ (forall f e',
                    In f before ->
                    ~ leaves_loop rt safe_load write_marker to_quarantine
                        f e')
              /\ leaves_loop rt safe_load write_marker to_quarantine
                   yaml_file e)
  /\ ((exists st, r = Ok st)
      <-> forall f e,
            In f yaml_files ->
            ~ leaves_loop rt safe_load write_marker to_quarantine f e).
Proof.
  cbv zeta. unfold ProcessMarkers.process_markers.
  split; [|split].
  - intros st H.
    destruct (process_files_consistent rt safe_load write_marker
                to_quarantine yaml_files ProcessMarkers.start st)
      as (C & T & R); [repeat split|exact H|].
    split; [exact C|]. split; [exact T|exact R].
  - intros e. apply process_files_raises.
  - split.
    + intros [st H] f e Hf L.
      apply in_split in Hf as (l1 & l2 & ->).
      assert (X : exists e',
                ProcessMarkers.process_files rt safe_load write_marker
                  to_quarantine (l1 ++ f :: l2) ProcessMarkers.start
                = Raise e').
      { clear H. revert L. generalize ProcessMarkers.start.
        induction l1 as [|g l1 IH]; intros s L;
          cbn [app ProcessMarkers.process_files].
        - apply (process_file_raises rt safe_load write_marker
                   to_quarantine s) in L.
          rewrite L. cbn [bind]. now exists e.
        - destruct (ProcessMarkers.process_file rt safe_load write_marker
                      to_quarantine s g) as [s'|e']; cbn [bind].
          + now apply IH.
          + now exists e'. }
      destruct X as [e' X]. congruence.
    + intros H.
      destruct (ProcessMarkers.process_files rt safe_load write_marker
                  to_quarantine yaml_files ProcessMarkers.start)
        as [st|e] eqn:E; [now exists st|].
      apply process_files_raises in E
        as (before & y & rest & -> & _ & L).
      exfalso. apply (H y e); [|exact L].
      apply in_or_app. right. now left.
Qed.

(** X23.  The body of the loop of [process_markers] for one file.  An
    exception leaves it, and no row is added, exactly when that
    exception leaves the parser, or the parser returned and the
    exception leaves the writes to the quarantine, which are made unless
    the marker was normalized and written.  When the body returns it has
    added one row, for this file: its status is SUCCESS exactly when the
    parser returned a dictionary that is a well typed source structure
    and the normalized marker could be written; the row then has no
    error tag and reports the larger of the minimum and the number of
    examples kept; the tag is YAML_ERROR exactly when the parser
    returned no value; and a row that is not SUCCESS is QUARANTINED,
    and the writes to the quarantine returned. *)
Theorem process_file_row (rt : runtime) (safe_load : str -> yaml_result)
  (write_marker : str -> dict -> result unit)
  (to_quarantine : str -> result unit)
  (st : ProcessMarkers.run) (file_name : str) (file : file_read) :
  let r := ProcessMarkers.process_file rt safe_load write_marker
             to_quarantine st (file_name, file) in
  (forall e,
     r = Raise e
     <-> leaves_loop rt safe_load write_marker to_quarantine
           (file_name, file) e)
  /\ (forall st',
        r = Ok st' ->
        exists row,
          ProcessMarkers.report_data st'
          = ProcessMarkers.report_data st ++ [row]
          /\ ProcessMarkers.r_file row = file_name
          /\ (ProcessMarkers.r_status row = ProcessMarkers.SUCCESS
              <-> exists d m,
                    parsed (parse_with_recovery safe_load file)
                    = Some (VDict d)
                    /\ well_typed_source d = true
                    /\ normalize_marker rt d file_name = Ok m
                    /\ write_marker file_name m = Ok tt)
          /\ (ProcessMarkers.r_status row = ProcessMarkers.SUCCESS ->
              ProcessMarkers.r_error row = ProcessMarkers.NoError
              /\ exists d,
                   parsed (parse_with_recovery safe_load file)
                   = Some (VDict d)
                   /\ ProcessMarkers.r_details row
                      = ProcessMarkers.NormalizedWith
                          (Nat.max MarkerNormalizer.MIN_EXAMPLES
                             (List.length
                                (kept_examples
                                   (dict_get_default d (lit "beispiele")
                                      (VList []))))))
          /\ (ProcessMarkers.r_error row = ProcessMarkers.YAML_ERROR
              <-> parsed (parse_with_recovery safe_load file) = None)
          /\ (ProcessMarkers.r_status row = ProcessMarkers.QUARANTINED
              <-> to_quarantine file_name = Ok tt
                  /\ ProcessMarkers.r_status row
                     <> ProcessMarkers.SUCCESS)).
Proof.
  cbv zeta. split.
  - intros e. apply process_file_raises.
  - intros st'. apply process_file_adds.
Qed.

Section QualificationRun.

Import QualifyMarkerSet.




End QualificationRun.


(* ================================================================== *)
(** ** The category of a marker *)
(* ================================================================== *)

Section Category.

Lemma startswith_app (p b : str) : startswith p (p ++ b) = true.
Proof.
  induction p as [|c p IH]; [reflexivity|].
  cbn [app startswith]. now rewrite Ascii.eqb_refl.
Qed.

Lemma contains_start (p s : str) :
  startswith p s = true -> contains p s = true.
Proof. intros H. destruct s; cbn [contains]; now rewrite H. Qed.

Lemma contains_app (p a b : str) : contains p (a ++ p ++ b) = true.
Proof.
  induction a as [|c a IH].
  - cbn [app]. apply contains_start, startswith_app.
  - cbn [app contains]. rewrite IH. apply orb_true_r.
Qed.

Lemma contains_lower (keyword a w b : str) :
  lower w = keyword ->
  contains keyword (lower (a ++ w ++ b)) = true.
Proof.
  intros <-. unfold lower. rewrite !map_app. apply contains_app.
Qed.

End Category.

(** X25.  How [detect_category] decides, for a name that is a string
    (or is absent): a name that starts with A_LOC, A_PER or A_ORG gives
    ENTITY whatever the description says; without such a prefix, the
    word attachment anywhere in the description, in capitals or not,
    gives ATTACHMENT; and where neither the name nor the description
    speaks of attachment, the word emotion in the description, in
    capitals or not, gives EMOTION, also for a name that starts with
    MM_. *)
Theorem detect_category_keywords (rt : runtime) (marker_data : dict)
  (name : str) :
  dict_get_default marker_data (lit "marker_name") (VStr []) = VStr name ->
  (entity_prefix name = true -> detect_category rt marker_data = Ok ENTITY)
  /\ (entity_prefix name = false ->
      forall a w b,
        description_of rt marker_data = a ++ w ++ b ->
        lower w = lit "attachment" ->
        detect_category rt marker_data = Ok ATTACHMENT)
  /\ (entity_prefix name = false ->
      contains (lit "ATTACHMENT") name = false ->
      contains (lit "attachment") (lower (description_of rt marker_data))
      = false ->
      forall a w b,
        description_of rt marker_data = a ++ w ++ b ->
        lower w = lit "emotion" ->
        detect_category rt marker_data = Ok EMOTION).
Proof.
  intros Hn. unfold detect_category. rewrite Hn.
  fold (description_of rt marker_data). fold (entity_prefix name).
  split; [|split].
  - now intros ->.
  - intros -> a w b E Hw. rewrite E.
    rewrite (contains_lower _ a w b Hw). now rewrite orb_true_r.
  - intros -> H1 H2 a w b E Hw. rewrite H1, H2. cbn [orb].
    rewrite E. rewrite (contains_lower _ a w b Hw).
    now rewrite orb_true_r.
Qed.

Lemma detect_category_keywords_witness :
  (entity_prefix (lit "MM_STYLE") = true ->
   detect_category sample_runtime described_in_capitals = Ok ENTITY)
  /\ (entity_prefix (lit "MM_STYLE") = false ->
      forall a w b,
        description_of sample_runtime described_in_capitals = a ++ w ++ b ->
        lower w = lit "attachment" ->
        detect_category sample_runtime described_in_capitals = Ok ATTACHMENT)
  /\ (entity_prefix (lit "MM_STYLE") = false ->
      contains (lit "ATTACHMENT") (lit "MM_STYLE") = false ->
      contains (lit "attachment")
        (lower (description_of sample_runtime described_in_capitals))
      = false ->
      forall a w b,
        description_of sample_runtime described_in_capitals = a ++ w ++ b ->
        lower w = lit "emotion" ->
        detect_category sample_runtime described_in_capitals = Ok EMOTION).
Proof.
  apply (detect_category_keywords sample_runtime described_in_capitals
           (lit "MM_STYLE")).
  reflexivity.
Defined.

(** The description of that structure names attachment in capitals: the
    category is ATTACHMENT, not META. *)
Example detect_category_in_capitals :
  detect_category sample_runtime described_in_capitals = Ok ATTACHMENT.
Proof. reflexivity. Qed.

(** A marker whose tags hold a list: the validator raises, and the
    qualifier reports the status ERROR. *)
Example validate_marker_unhashable_tag :
  fst (validate_marker marker_with_list_tag) = Raise TypeError
  /\ specified_verdict marker_with_list_tag = Raise TypeError
  /\ q_status (qualify_marker (VDict marker_with_list_tag)) = ERROR.
Proof. repeat split; reflexivity. Qed.

(** A run of [process_markers] over two files, with a parser that reads
    every text as the mapping of [a] to [b]: the first file is
    normalized, the second cannot be read and goes to quarantine. *)
Example process_markers_two_files :
  exists r,
    ProcessMarkers.process_markers sample_runtime reads_a_b writes_all
      copies_all
      [ (lit "x.yaml", ReadOk (lit "a: b"));
        (lit "y.yaml", ReadFailed (lit "denied")) ]
    = Ok r
    /\ ProcessMarkers.total_files r = 2
    /\ ProcessMarkers.successful r = 1
    /\ ProcessMarkers.quarantined r = 1
    /\ map ProcessMarkers.r_status (ProcessMarkers.report_data r)
       = [ProcessMarkers.SUCCESS; ProcessMarkers.QUARANTINED]
    /\ map ProcessMarkers.r_details (ProcessMarkers.report_data r)
       = [ ProcessMarkers.NormalizedWith 5;
           ProcessMarkers.ParserError (lit "Failed to read file: denied") ]
    /\ map fst (ProcessMarkers.output_dir r) = [lit "x.yaml"]
    /\ ProcessMarkers.quarantine r = [lit "y.yaml"].
Proof. eexists. split; [reflexivity|]. repeat split; reflexivity. Qed.

(** The same run when the file that cannot be read cannot be copied
    either: the exception of the copy ends the run, and the row of the
    first file is lost with it. *)
Example process_markers_copy_fails :
  ProcessMarkers.process_markers sample_runtime reads_a_b writes_all
    copies_all_but_y
    [ (lit "x.yaml", ReadOk (lit "a: b"));
      (lit "y.yaml", ReadFailed (lit "denied")) ]
  = Raise OSError.
Proof. reflexivity. Qed.

(** A file with a date that does not exist: the exception of the parser
    is no [yaml.YAMLError], it leaves [parse_with_recovery] at the
    direct strategy and ends the run, whatever comes after the file. *)
Example process_markers_date_ends_run :
  parse_with_recovery refuses_the_date
    (ReadOk (lit "created_at: 2001-13-45"))
  = {| parsed := None; error := None; invoked := [Direct];
       raised := Some ValueError |}
  /\ ProcessMarkers.process_markers sample_runtime refuses_the_date
       writes_all copies_all
       [ (lit "x.yaml", ReadOk (lit "a: b"));
         (lit "d.yaml", ReadOk (lit "created_at: 2001-13-45"));
         (lit "z.yaml", ReadOk (lit "a: b")) ]
     = Raise ValueError.
Proof. split; reflexivity. Qed.

(** A run of [qualify_marker_set] over the marker of scenario A, the
    marker without examples of scenario B, and an empty file. *)
Example qualify_marker_set_three_files :
  let r := QualifyMarkerSet.qualify_marker_set
             [VDict scenario_a_normalized; VDict scenario_b; VNone] in
  QualifyMarkerSet.total_files r = 3
  /\ QualifyMarkerSet.qualified r = 1
  /\ QualifyMarkerSet.failed r = 2
  /\ map QualifyMarkerSet.e_status (QualifyMarkerSet.report_data r)
     = [QUALIFIED; FAILED; FAILED]
  /\ map QualifyMarkerSet.e_error (QualifyMarkerSet.report_data r)
     = [[]; lit "VALIDATION_ERROR"; lit "VALIDATION_ERROR"]
  /\ (QualifyMarkerSet.success_rate r == 100 # 3)%Q.
Proof. repeat split; reflexivity. Qed.

(* ================================================================== *)
(** ** The status of a qualification *)
(* ================================================================== *)

Section Status.

Lemma sum_lengths_sized (frame : dict) (keys : list str) :
  (forallb (fun k => sized (dict_get_default frame k (VStr []))) keys = true ->
   exists n, sum_lengths frame keys = Ok n)
  /\ (forallb (fun k => sized (dict_get_default frame k (VStr []))) keys
      = false ->
      sum_lengths frame keys = Raise TypeError).
Proof.
  induction keys as [|k keys [IH1 IH2]];
    [split; [intros _; now exists 0|discriminate]|].
  cbn [forallb sum_lengths].
  destruct (dict_get_default frame k (VStr [])) as [| | |s|l|d];
    cbn [sized py_len bind andb];
    try (split; [discriminate|reflexivity]);
    (split;
     [ intros H; destruct (IH1 H) as [n ->]; cbn [bind]; eauto
     | intros H; now rewrite (IH2 H) ]).
Qed.

(** A marker that the validator accepts has a dictionary as its frame,
    a list as its examples, and a metadata that is absent, [None] or a
    dictionary. *)
Lemma valid_marker_shape (m : dict) :
  fst (validate_marker m) = Ok true ->
  (exists f, dict_get m (lit "frame") = Some (VDict f))
  /\ (exists l, dict_get m (lit "examples") = Some (VList l))
  /\ (dict_get m (lit "metadata") = None
      \/ dict_get m (lit "metadata") = Some VNone
      \/ exists md, dict_get m (lit "metadata") = Some (VDict md)).
Proof.
  rewrite validate_marker_specified. unfold specified_verdict.
  destruct (reaches_optional_checks m) eqn:R; [|discriminate].
  cbn [negb].
  destruct (present_ok m (lit "metadata") (fun v => negb (tags_unhashable v)));
    [|discriminate].
  cbn [negb].
  destruct (present_ok m (lit "metadata") metadata_ok) eqn:Hm;
    [intros _|rewrite andb_false_r; discriminate].
  unfold reaches_optional_checks in R.
  apply andb_true_iff in R. destruct R as [R _].
  apply andb_true_iff in R. destruct R as [R He].
  apply andb_true_iff in R. destruct R as [_ Hf].
  unfold dict_get_default in Hf, He. split; [|split].
  - destruct (dict_get m (lit "frame")) as [[]|]; try discriminate. eauto.
  - destruct (dict_get m (lit "examples")) as [[]|]; try discriminate. eauto.
  - unfold present_ok in Hm.
    destruct (dict_get m (lit "metadata")) as [[]|]; try discriminate; eauto.
Qed.

(** On a marker that the validator accepts the score is computed, or
    [TypeError] is raised: the second exactly for a metadata that is
    [None] or a frame value without a length. *)
Lemma valid_score_raises (m : dict) (ws : list vwarning) :
  fst (validate_marker m) = Ok true ->
  if scoring_fails m then calculate_quality_score m ws = Raise TypeError
  else exists score rating, calculate_quality_score m ws = Ok (score, rating).
Proof.
  intros H. destruct (valid_marker_shape m H) as ([f Hf] & [l Hl] & Hm).
  rewrite calculate_quality_score_bonuses.
  unfold scoring_fails, quality_bonuses, dict_get_default.
  rewrite Hf, Hl. cbn [py_len bind frame_length_sum].
  destruct (sum_lengths_sized f (dict_keys f)) as [S1 S2].
  destruct Hm as [Hm|[Hm|[md Hm]]]; rewrite Hm.
  - cbn [bind orb].
    destruct (forallb _ (dict_keys f)); cbn [negb].
    + destruct (S1 eq_refl) as [n ->]. cbn [bind]. eauto.
    + now rewrite (S2 eq_refl).
  - reflexivity.
  - rewrite all_in_dict. cbn [bind orb].
    destruct (forallb _ (dict_keys f)); cbn [negb].
    + destruct (S1 eq_refl) as [n ->]. cbn [bind]. eauto.
    + now rewrite (S2 eq_refl).
Qed.

End Status.

(** X26.  Strategy 2 of [parse_with_recovery]: when the direct parse
    gives no usable value and the parse of the repaired text gives one,
    that value is returned and the line salvage is not tried; and on a
    text that [repair_yaml_content] leaves as it is, strategy 2 never
    returns when strategy 1 did not: the result is that of the line
    salvage. *)
Theorem repaired_strategy (safe_load : str -> yaml_result) (content : str) :
  usable (safe_load content) = Ok None ->
  (forall v,
     usable (safe_load (repair_yaml_content content)) = Ok (Some v) ->
     parse_with_recovery safe_load (ReadOk content)
     = {| parsed := Some v; error := None; invoked := [Direct; Repaired];
          raised := None |})
  /\ (repair_yaml_content content = content ->
      invoked (parse_with_recovery safe_load (ReadOk content))
      = [Direct; Repaired; Salvage]
      /\ parsed (parse_with_recovery safe_load (ReadOk content))
         = if truthy (VDict (line_salvage content))
           then Some (VDict (line_salvage content)) else None).
Proof.
  intros H. cbn [parse_with_recovery]. rewrite H. split.
  - intros v Hv. now rewrite Hv.
  - intros E. rewrite E, H.
    now destruct (truthy (VDict (line_salvage content))).
Qed.

Lemma repaired_strategy_witness :
  (forall v,
     usable (rejects_all (repair_yaml_content (lit "[key: v")))
     = Ok (Some v) ->
     parse_with_recovery rejects_all (ReadOk (lit "[key: v"))
     = {| parsed := Some v; error := None; invoked := [Direct; Repaired];
          raised := None |})
  /\ (repair_yaml_content (lit "[key: v") = lit "[key: v" ->
      invoked (parse_with_recovery rejects_all (ReadOk (lit "[key: v")))
      = [Direct; Repaired; Salvage]
      /\ parsed (parse_with_recovery rejects_all (ReadOk (lit "[key: v")))
         = if truthy (VDict (line_salvage (lit "[key: v")))
           then Some (VDict (line_salvage (lit "[key: v"))) else None).
Proof.
  apply (repaired_strategy rejects_all (lit "[key: v")).
  reflexivity.
Defined.

(** X27.  The identifier of a marker that [normalize_marker] returned
    is always a string: the source name when there is one (which then is
    a string, or the method had raised), and else the file name with
    every [.yaml] removed; the pattern is [Pattern for] followed by that
    string, and the examples are the padded list of strings. *)
Theorem normalized_marker_id (rt : runtime) (marker_data : dict)
  (file_name : str) (m : dict) :
  normalize_marker rt marker_data file_name = Ok m ->
  exists s,
    dict_get m (lit "_id") = Some (VStr s)
    /\ dict_get m (lit "pattern") = Some (VStr (lit "Pattern for " ++ s))
    /\ dict_get m (lit "examples")
       = Some (VList (map VStr (normalized_examples marker_data)))
    /\ (dict_get marker_data (lit "marker_name") = None ->
        s = replace (lit ".yaml") [] file_name)
    /\ (forall name,
          dict_get marker_data (lit "marker_name") = Some name ->
          name = VStr s).
Proof.
  intros H.
  apply normalize_marker_Ok in H
    as (frame & created & author & version & tags_src & tags
        & Hf & _ & _ & ->).
  rewrite !with_optional_fields_get by reflexivity.
  unfold generate_frame, detect_category, dict_get_default in Hf.
  unfold normalized_literal, marker_id_of, dict_get_default.
  destruct (dict_get marker_data (lit "marker_name")) as [[| | |name| |]|];
    try discriminate.
  - exists name. repeat split; try easy. intros n Hn. now injection Hn as <-.
  - eexists. repeat split; try easy.
Qed.

Lemma normalized_marker_id_witness :
  exists s,
    dict_get scenario_a_normalized (lit "_id") = Some (VStr s)
    /\ dict_get scenario_a_normalized (lit "pattern")
       = Some (VStr (lit "Pattern for " ++ s))
    /\ dict_get scenario_a_normalized (lit "examples")
       = Some (VList (map VStr (normalized_examples scenario_a)))
    /\ (dict_get scenario_a (lit "marker_name") = None ->
        s = replace (lit ".yaml") [] (lit "cafe.yaml"))
    /\ (forall name,
          dict_get scenario_a (lit "marker_name") = Some name ->
          name = VStr s).
Proof.
  apply (normalized_marker_id sample_runtime scenario_a (lit "cafe.yaml")).
  reflexivity.
Defined.

(** X28.  On a marker that [validate_marker] accepts,
    [calculate_quality_score] raises exactly when the metadata field is
    there and is [None], or some value of the frame (of any of its keys,
    the four fields or others) has no length; the exception is
    [TypeError]; in every other case a score and a rating are
    returned. *)
Theorem valid_marker_score_raises_iff (m : dict) (ws : list vwarning) :
  fst (validate_marker m) = Ok true ->
  (forall e,
     calculate_quality_score m ws = Raise e
     <-> scoring_fails m = true /\ e = TypeError)
  /\ (scoring_fails m = false <->
      exists score rating, calculate_quality_score m ws = Ok (score, rating)).
Proof.
  intros H. pose proof (valid_score_raises m ws H) as S.
  destruct (scoring_fails m).
  - rewrite S. split.
    + intros e. split.
      * intros E. injection E as <-. now split.
      * intros [_ ->]. reflexivity.
    + split; [discriminate|]. intros (s & r & E). discriminate.
  - destruct S as (s & r & ->). split.
    + intros e. split; [discriminate|]. intros [E _]. discriminate.
    + split; [eauto|reflexivity].
Qed.

Lemma valid_marker_score_raises_iff_witness :
  (forall e,
     calculate_quality_score marker_with_numbered_frame [] = Raise e
     <-> scoring_fails marker_with_numbered_frame = true /\ e = TypeError)
  /\ (scoring_fails marker_with_numbered_frame = false <->
      exists score rating,
        calculate_quality_score marker_with_numbered_frame []
        = Ok (score, rating)).
Proof.
  apply (valid_marker_score_raises_iff marker_with_numbered_frame []).
  reflexivity.
Defined.

(** A valid marker with a number in its frame: the validator accepts
    it, the score cannot be computed, and the status is ERROR. *)
Example numbered_frame_is_an_error :
  fst (validate_marker marker_with_numbered_frame) = Ok true
  /\ scoring_fails marker_with_numbered_frame = true
  /\ calculate_quality_score marker_with_numbered_frame [] = Raise TypeError
  /\ q_status (qualify_marker (VDict marker_with_numbered_frame)) = ERROR.
Proof. repeat split; reflexivity. Qed.

(** X29.  The status that [qualify_marker] gives to a loaded value:
    FAILED for a value that is false in the sense of [if] (an empty
    file); ERROR for any other value that is no dictionary; for a
    dictionary, FAILED when the verdict of the validator is [False],
    ERROR when the validator raises or the score cannot be computed, and
    QUALIFIED in the remaining case. *)
Theorem qualify_marker_status (marker : pyval) :
  q_status (qualify_marker marker) = specified_status marker.
Proof.
  unfold qualify_marker, specified_status.
  destruct (truthy marker); cbn [negb]; [|reflexivity].
  destruct marker as [| | | | |m]; try reflexivity.
  rewrite <- validate_marker_specified.
  pose proof (fun ws => valid_score_raises m ws) as S.
  destruct (validate_marker m) as [[[|]|e] st]; cbn [fst] in *;
    try reflexivity.
  specialize (S (warnings st) eq_refl).
  destruct (scoring_fails m).
  - now rewrite S.
  - destruct S as (s & r & ->). reflexivity.
Qed.
